(** * Token lifecycle of Feishu-MCP: a shallow embedding in Rocq

    The development follows the TypeScript sources:
    - [src/src/utils/tokenCacheManager.ts]      (TokenCacheManager)
    - [src/src/services/feishuAuthService.ts]   (AuthService)
    - [src/src/utils/auth/tokenRefreshManager.ts] (TokenRefreshManager)
    - [src/src/utils/auth/authUtils.ts]         (AuthUtils)
    - [src/src/auth/feishuOAuthServer.ts]       (FeishuOAuthServer)
    - [src/unnamed/part_003]                     (the OAuth [callback])
    - [src/unnamed/part_007], [src/unnamed/part_008] (auth middleware, utils/auth,
      the session/user-key map)

    Conventions.
    - Time: [Date.now()] is a millisecond count [nowms : Z]; the code's
      [Math.floor(Date.now() / 1000)] is [nowms / 1000] (floor division).
    - A JS object of type [any] holding token fields is a record of
      optional fields; [None] is [undefined].
    - JS truthiness: a string is truthy iff it is defined and non-empty,
      a number iff it is defined and non-zero (NaN does not arise: all
      numbers here are integral timestamps or durations).
    - The in-memory [Map<string, CacheItem>] is a [gmap string CacheItem];
      the JSON snapshot files written after each mutation are not modelled
      (no property below reads them back). *)

From Stdlib Require Import String Ascii ZArith Bool List Lia.
From stdpp Require Import gmap strings list fin_maps.

Open Scope string_scope.
Open Scope Z_scope.

(* ------------------------------------------------------------------ *)
(** ** JS values *)

Definition str_truthy (o : option string) : bool :=
  match o with
  | Some s => negb (String.eqb s "")
  | None => false
  end.

Definition num_truthy (o : option Z) : bool :=
  match o with
  | Some z => negb (z =? 0)
  | None => false
  end.

(** Value of a number field once its truthiness has been checked. *)
Definition num_val (o : option Z) : Z :=
  match o with
  | Some z => z
  | None => 0
  end.

(** JS [a || b] on optional strings: [a] when truthy, else [b]. *)
Definition str_or (a b : option string) : option string :=
  if str_truthy a then a else b.

(** [new Date(t).toISOString()] throws a [RangeError] outside the time
    range of ECMAScript dates, |t| <= 8.64e15 ms. *)
Definition date_in_range (t : Z) : bool := Z.abs t <=? 8640000000000000.

(** [String.prototype.startsWith]. *)
Definition startsWith (s pre : string) : bool := String.prefix pre s.

(** [String.prototype.includes]. *)
Fixpoint includes (s sub : string) : bool :=
  String.prefix sub s ||
  match s with
  | EmptyString => false
  | String _ s' => includes s' sub
  end.

(* ------------------------------------------------------------------ *)
(** ** Data model (tokenCacheManager.ts) *)

(** The token object stored under a cache key ([cacheItem.data], typed
    [any]): the fields of [UserTokenInfo] and [TenantTokenInfo], plus the
    [client_id]/[client_secret] and the upstream [expires_in] /
    [refresh_token_expires_in] fields that [AuthService.refreshUserToken]
    reads and writes on the same object. *)
Record TokenData := mkTokenData {
  access_token : option string;
  refresh_token : option string;
  expires_at : option Z;                 (** unix seconds *)
  refresh_token_expires_at : option Z;   (** unix seconds *)
  client_id : option string;
  client_secret : option string;
  app_access_token : option string;
  expires_in : option Z;
  refresh_token_expires_in : option Z;
}.

Definition empty_data : TokenData :=
  mkTokenData None None None None None None None None None.

(** [interface CacheItem<T> { data; timestamp; expiresAt }], times in ms. *)
Record CacheItem := mkCacheItem {
  data : TokenData;
  timestamp : Z;
  item_expiresAt : Z;
}.

Abbreviation Cache := (gmap string CacheItem).

(** [interface TokenStatus]. *)
Record TokenStatus := mkTokenStatus {
  isValid : bool;
  isExpired : bool;
  canRefresh : bool;
  shouldRefresh : bool;
}.

Definition user_prefix : string := "user_access_token:".
Definition tenant_prefix : string := "tenant_access_token:".

(* ------------------------------------------------------------------ *)
(** ** TokenCacheManager *)

Module TokenCacheManager.

(** [getUserTokenInfo(key)]: returns the token object or [null], and the
    store after the possible purge. *)
Definition getUserTokenInfo (key : string) (nowms : Z) (cache : Cache)
    : option TokenData * Cache :=
  let cacheKey := user_prefix ++ key in
  match cache !! cacheKey with
  | None => (None, cache)
  | Some cacheItem =>
      let tokenInfo := data cacheItem in
      let now := nowms / 1000 in
      if str_truthy (refresh_token tokenInfo)
         && num_truthy (refresh_token_expires_at tokenInfo) then
        if num_val (refresh_token_expires_at tokenInfo) <? now
        then (None, delete cacheKey cache)
        else (Some tokenInfo, cache)
      else
        if nowms >? item_expiresAt cacheItem
        then (None, delete cacheKey cache)
        else (Some tokenInfo, cache)
  end.

(** [getUserToken(key)]. *)
Definition getUserToken (key : string) (nowms : Z) (cache : Cache)
    : option string * Cache :=
  let (info, cache') := getUserTokenInfo key nowms cache in
  match info with
  | Some ti => (access_token ti, cache')
  | None => (None, cache')
  end.

(** [cacheUserToken(key, tokenInfo, customTtl?)]: the returned flag and
    the store. Without a custom TTL, the branches taking the expiry from
    [refresh_token_expires_at] or [expires_at] log
    [new Date(expiresAt).toISOString()] before [cache.set]; when that throws,
    the [catch] returns [false] and nothing is stored. Otherwise the entry is
    set first, and a throw of the final debug message only turns the flag
    to [false]. *)
Definition cacheUserToken (key : string) (tokenInfo : TokenData)
    (customTtl : option Z) (nowms : Z) (cache : Cache) : bool * Cache :=
  let cacheKey := user_prefix ++ key in
  let expiresAt :=
    if num_truthy customTtl then nowms + num_val customTtl * 1000
    else if num_truthy (refresh_token_expires_at tokenInfo)
    then num_val (refresh_token_expires_at tokenInfo) * 1000
    else if num_truthy (expires_at tokenInfo)
    then num_val (expires_at tokenInfo) * 1000
    else nowms + 2 * 60 * 60 * 1000 in
  let formats_before_set :=
    negb (num_truthy customTtl)
    && (num_truthy (refresh_token_expires_at tokenInfo)
        || num_truthy (expires_at tokenInfo)) in
  if formats_before_set && negb (date_in_range expiresAt) then (false, cache)
  else (date_in_range expiresAt,
        <[cacheKey := mkCacheItem tokenInfo nowms expiresAt]> cache).

Definition expired_status : TokenStatus :=
  mkTokenStatus false true false false.

(** [checkUserTokenStatus(key)]. *)
Definition checkUserTokenStatus (key : string) (nowms : Z) (cache : Cache)
    : TokenStatus * Cache :=
  let (info, cache') := getUserTokenInfo key nowms cache in
  match info with
  | None => (expired_status, cache')
  | Some tokenInfo =>
      let now := nowms / 1000 in
      let isExpired :=
        if num_truthy (expires_at tokenInfo)
        then num_val (expires_at tokenInfo) <? now else false in
      let timeToExpiry :=
        if num_truthy (expires_at tokenInfo)
        then Z.max 0 (num_val (expires_at tokenInfo) - now) else 0 in
      let canRefresh :=
        str_truthy (refresh_token tokenInfo)
        && num_truthy (refresh_token_expires_at tokenInfo)
        && (now <? num_val (refresh_token_expires_at tokenInfo)) in
      let shouldRefresh :=
        (0 <? timeToExpiry) && (timeToExpiry <? 300) && canRefresh in
      (mkTokenStatus (negb isExpired) isExpired canRefresh shouldRefresh,
       cache')
  end.

(** [removeUserToken(key)]. *)
Definition removeUserToken (key : string) (cache : Cache) : bool * Cache :=
  let cacheKey := user_prefix ++ key in
  match cache !! cacheKey with
  | Some _ => (true, delete cacheKey cache)
  | None => (false, cache)
  end.

(** The per-entry decision of [cleanExpiredTokens]. *)
Definition shouldDelete (nowms : Z) (key : string) (cacheItem : CacheItem)
    : bool :=
  let nowSeconds := nowms / 1000 in
  if startsWith key user_prefix then
    let tokenInfo := data cacheItem in
    if str_truthy (refresh_token tokenInfo)
       && num_truthy (refresh_token_expires_at tokenInfo)
    then num_val (refresh_token_expires_at tokenInfo) <? nowSeconds
    else item_expiresAt cacheItem <=? nowms
  else item_expiresAt cacheItem <=? nowms.

(** [cleanExpiredTokens()]: the number of deleted entries and the store
    without them. *)
Definition cleanExpiredTokens (nowms : Z) (cache : Cache) : nat * Cache :=
  let keysToDelete :=
    filter (fun kv : string * CacheItem => shouldDelete nowms kv.1 kv.2 = true)
      cache in
  (size keysToDelete,
   filter (fun kv : string * CacheItem => shouldDelete nowms kv.1 kv.2 = false)
     cache).

(** [static generateClientKey(clientId, clientSecret, userKey?)]: the hash
    is commented out in the source; the key is the plain text. *)
Definition generateClientKey (clientId clientSecret : string)
    (userKey : option string) : string :=
  let userPart :=
    if str_truthy userKey then ":" ++ default "" userKey else "" in
  clientId ++ ":" ++ clientSecret ++ userPart.

End TokenCacheManager.

(* ------------------------------------------------------------------ *)
(** ** Exceptions and the upstream token endpoint *)

(** A thrown JS error, as the code inspects it: [error.message] and, for
    an axios error carrying an upstream response, [error.response.data.code]. *)
Record JsError := mkJsError {
  err_message : string;
  err_response_code : option Z;
}.

Definition plain_error (msg : string) : JsError := mkJsError msg None.

(** A computation that returns a value or throws. *)
Definition Exc (A : Type) : Type := (JsError + A)%type.

(** The request body of the upstream refresh call
    ([POST /open-apis/authen/v2/oauth/token]). *)
Record RefreshBody := mkRefreshBody {
  rb_client_id : string;
  rb_client_secret : string;
  rb_refresh_token : string;
}.

(* ------------------------------------------------------------------ *)
(** ** AuthService (feishuAuthService.ts) *)

Module AuthService.
Import TokenCacheManager.

Section WithUpstream.

(** The awaited result of [axios.post(...)] on the refresh endpoint:
    [response.data], or the error axios throws (network failure, or a
    non-2xx status with the upstream body's [code]). *)
Variable upstream_refresh : RefreshBody -> Exc TokenData.

(** [refreshUserToken(clientKey, appId?, appSecret?)]. *)
Definition refreshUserToken (clientKey : string) (appId appSecret : option string)
    (nowms : Z) (cache : Cache) : Exc TokenData * Cache :=
  let (info, cache1) := getUserTokenInfo clientKey nowms cache in
  match info with
  | None => (inl (plain_error ("无法获取token信息: " ++ clientKey)), cache1)
  | Some tokenInfo =>
      let actualRefreshToken := refresh_token tokenInfo in
      let actualAppId := str_or (client_id tokenInfo) appId in
      let actualAppSecret := str_or (client_secret tokenInfo) appSecret in
      if negb (str_truthy actualRefreshToken) then
        (inl (plain_error "无法获取refresh_token，无法刷新用户访问令牌"), cache1)
      else if negb (str_truthy actualAppId && str_truthy actualAppSecret) then
        (inl (plain_error "无法获取client_id或client_secret，无法刷新用户访问令牌"),
         cache1)
      else
        let body := mkRefreshBody (default "" actualAppId)
                      (default "" actualAppSecret)
                      (default "" actualRefreshToken) in
        match upstream_refresh body with
        | inl e => (inl e, cache1)
        | inr d =>
            if str_truthy (access_token d) && num_truthy (expires_in d) then
              let now := nowms / 1000 in
              let d1 := {| access_token := access_token d;
                           refresh_token := refresh_token d;
                           expires_at := Some (now + num_val (expires_in d));
                           refresh_token_expires_at :=
                             if num_truthy (refresh_token_expires_in d)
                             then Some (now + num_val (refresh_token_expires_in d))
                             else refresh_token_expires_at d;
                           client_id := actualAppId;
                           client_secret := actualAppSecret;
                           app_access_token := app_access_token d;
                           expires_in := expires_in d;
                           refresh_token_expires_in := refresh_token_expires_in d |} in
              let refreshTtl :=
                if num_truthy (refresh_token_expires_in d)
                then num_val (refresh_token_expires_in d)
                else 3600 * 24 * 365 in
              (inr d1, snd (cacheUserToken clientKey d1 (Some refreshTtl) nowms cache1))
            else (inl (plain_error "刷新用户访问令牌失败"), cache1)
        end
  end.

(** The error [getUserAccessToken] throws when no token can be produced:
    [new AuthRequiredError('user', '需要用户授权')]. *)
Definition auth_required : JsError := plain_error "需要用户授权".

(** [getUserAccessToken(clientKey, appId?, appSecret?)]. *)
Definition getUserAccessToken (clientKey : string) (appId appSecret : option string)
    (nowms : Z) (cache : Cache) : Exc string * Cache :=
  let (tokenStatus, c1) := checkUserTokenStatus clientKey nowms cache in
  (* first branch: a valid token outside the refresh window *)
  let (early, c2) :=
    if isValid tokenStatus && negb (shouldRefresh tokenStatus) then
      let (cachedToken, c') := getUserToken clientKey nowms c1 in
      if str_truthy cachedToken then (cachedToken, c') else (None, c')
    else (None, c1) in
  match early with
  | Some tok => (inr tok, c2)
  | None =>
      if canRefresh tokenStatus
         && (isExpired tokenStatus || shouldRefresh tokenStatus) then
        let (r, c3) := refreshUserToken clientKey appId appSecret nowms c2 in
        match r with
        | inr refreshed =>
            if str_truthy (access_token refreshed)
            then (inr (default "" (access_token refreshed)), c3)
            else (inl auth_required, c3)
        | inl _ =>
            (* refresh failed: the cache entry is removed *)
            let (_, c4) := removeUserToken clientKey c3 in
            (inl auth_required, c4)
        end
      else (inl auth_required, c2)
  end.

End WithUpstream.
End AuthService.

(* ------------------------------------------------------------------ *)
(** ** TokenRefreshManager (tokenRefreshManager.ts) *)

Module TokenRefreshManager.
Import TokenCacheManager.

Section WithUpstream.
Variable upstream_refresh : RefreshBody -> Exc TokenData.

(** The eviction test of the [catch] in [checkAndRefreshTokens]:
    [error?.response?.data?.code === 99991669 ||
     error?.message?.includes('refresh_token')]. *)
Definition refreshTokenInvalid (e : JsError) : bool :=
  match err_response_code e with
  | Some code => code =? 99991669
  | None => false
  end || includes (err_message e) "refresh_token".

(** Counters [checkedCount], [refreshedCount], [failedCount]. *)
Record Counts := mkCounts { checked : nat; refreshed : nat; failed : nat }.

(** The body of the [for (const clientKey of allCacheKeys)] loop. *)
Definition checkKey (clientKey : string) (nowms : Z) (cnt : Counts) (cache : Cache)
    : Counts * Cache :=
  let cnt := mkCounts (S (checked cnt)) (refreshed cnt) (failed cnt) in
  let fail := mkCounts (checked cnt) (refreshed cnt) (S (failed cnt)) in
  let (tokenStatus, c1) := checkUserTokenStatus clientKey nowms cache in
  if shouldRefresh tokenStatus
     || (canRefresh tokenStatus && isExpired tokenStatus) then
    let (info, c2) := getUserTokenInfo clientKey nowms c1 in
    match info with
    | None => (fail, c2)
    | Some tokenInfo =>
        if negb (str_truthy (refresh_token tokenInfo)) then (fail, c2)
        else if negb (str_truthy (client_id tokenInfo)
                      && str_truthy (client_secret tokenInfo)) then (fail, c2)
        else
          let (r, c3) :=
            AuthService.refreshUserToken upstream_refresh clientKey None None
              nowms c2 in
          match r with
          | inr _ => (mkCounts (checked cnt) (S (refreshed cnt)) (failed cnt), c3)
          | inl e =>
              if refreshTokenInvalid e
              then (fail, snd (removeUserToken clientKey c3))
              else (fail, c3)
          end
    end
  else (cnt, c1).

(** [checkAndRefreshTokens()] over the key list [getAllUserTokenKeys()]. *)
Fixpoint checkAndRefreshTokens (keys : list string) (nowms : Z) (cnt : Counts)
    (cache : Cache) : Counts * Cache :=
  match keys with
  | [] => (cnt, cache)
  | k :: ks =>
      let (cnt', cache') := checkKey k nowms cnt cache in
      checkAndRefreshTokens ks nowms cnt' cache'
  end.

End WithUpstream.
End TokenRefreshManager.

(* ------------------------------------------------------------------ *)
(** ** HTTP responses *)

(** JSON scalar values of the response bodies below. *)
Inductive JV :=
| JStr (s : string)
| JNum (z : Z).

(** What a handler does with [res]: [res.status(s).json({...})] (status 200
    for a bare [res.json]), [res.redirect(url)], or [res.status(s).send(text)]. *)
Inductive Response :=
| RJson (status : Z) (body : list (string * JV))
| RRedirect (url : string)
| RSend (status : Z) (text : string).

Definition oauth_error (status : Z) (err desc : string) : Response :=
  RJson status [("error", JStr err); ("error_description", JStr desc)].


Definition response_status (r : Response) : Z :=
  match r with
  | RJson s _ => s
  | RRedirect _ => 302
  | RSend s _ => s
  end.

(* ------------------------------------------------------------------ *)
(** ** FeishuOAuthServer (feishuOAuthServer.ts) *)

Module FeishuOAuthServer.
Import TokenCacheManager.


(** [req.query] of the Feishu callback. *)
Record CallbackQuery := mkCallbackQuery {
  q_code : option string;
  q_state : option string;
  q_error : option string;
}.

(** The fields read from the decoded state blob. *)
Record CallbackState := mkCallbackState {
  original_redirect_uri : option string;
  original_state : option string;
  st_timestamp : option Z;   (** [Date.now()] at authorization time, ms *)
}.



Section Handlers.

(** [this.config.feishu.appId] / [appSecret]. *)
Variables (appId appSecret : string).
(** [getBaseUrl(req)]. *)
Variable baseUrl : string.
(** [this.authService.getUserTokenByCode({...})]: the upstream reply, or
    the exception of [fetch]/[response.json()]. Arguments: client id,
    client secret, code, redirect uri. *)
Variable getUserTokenByCode : string -> string -> string -> string -> Exc TokenData.
Variable upstream_refresh : RefreshBody -> Exc TokenData.



(** [Buffer.from(state, 'base64').toString()] followed by [JSON.parse] and
    the field reads; [None] when [JSON.parse] throws. *)
Variable decodeCallbackState : string -> option CallbackState.
(** [new URL(original_redirect_uri)] with [code] (and [state], when the
    original state is truthy) set as search parameters; [None] when the
    [URL] constructor throws. Arguments: redirect uri, code, state. *)
Variable buildRedirect : option string -> string -> option string -> option string.

(** [handleFeishuCallback(req, res)]. *)
Definition handleFeishuCallback (q : CallbackQuery) (nowms : Z) : Response :=
  if str_truthy (q_error q) then RSend 400 ("授权失败: " ++ default "" (q_error q))
  else if negb (str_truthy (q_code q) && str_truthy (q_state q)) then
    RSend 400 "缺少必需参数"
  else
    match decodeCallbackState (default "" (q_state q)) with
    | None => RSend 400 "状态参数解码失败"
    | Some stateData =>
        (* [now - timestamp > 5 * 60 * 1000]; an absent timestamp gives
           NaN and the comparison is false *)
        let stale :=
          match st_timestamp stateData with
          | Some ts => nowms - ts >? 5 * 60 * 1000
          | None => false
          end in
        if stale then RSend 400 "授权请求已过期，请重新授权"
        else
          let ostate :=
            if str_truthy (original_state stateData)
            then original_state stateData else None in
          match buildRedirect (original_redirect_uri stateData)
                  (default "" (q_code q)) ostate with
          | None => RSend 400 "状态参数解码失败"
          | Some url => RRedirect url
          end
    end.

End Handlers.
End FeishuOAuthServer.

(* ------------------------------------------------------------------ *)
(** ** Configuration, AuthUtils (authUtils.ts) and utils/auth (part_008) *)

(** [Config.getInstance().feishu]. *)
Record FeishuConfig := mkFeishuConfig {
  cfg_appId : string;
  cfg_appSecret : string;
  cfg_authType : string;
}.

Module AuthUtils.

Section WithHash.
(** [crypto.createHash('sha256').update(source).digest('hex')]. *)
Variable sha256hex : string -> string.

(** [static generateClientKey(userKey?)]. *)
Definition generateClientKey (feishuConfig : FeishuConfig) (userKey : option string)
    : string :=
  let userPart :=
    if str_truthy userKey then ":" ++ default "" userKey else "" in
  let source :=
    if String.eqb (cfg_authType feishuConfig) "tenant"
    then cfg_appId feishuConfig ++ ":" ++ cfg_appSecret feishuConfig
    else cfg_appId feishuConfig ++ ":" ++ cfg_appSecret feishuConfig ++ userPart in
  sha256hex source.

End WithHash.
End AuthUtils.

Module AuthHelpers.

(** The parts of an Express [Request] read by the helpers. *)
Record Request := mkRequest {
  user_agent : option string;       (** [req.headers['user-agent']] *)
  authorization : option string;    (** [req.headers.authorization] *)
  q_sessionId : option string;      (** [req.query.sessionId] *)
  q_userKey : option string;        (** [req.query.userKey] *)
}.

(** [sessionUserKeyMap : Map<string, string>]. *)
Abbreviation SessionMap := (gmap string string).

(** [isAuthForTenant()]. *)
Definition isAuthForTenant (cfg : FeishuConfig) : bool :=
  String.eqb (cfg_authType cfg) "tenant".

Definition is_digit (c : ascii) : bool :=
  (48 <=? nat_of_ascii c)%nat && (nat_of_ascii c <=? 57)%nat.

(** Greedy [\d+]: the leading digits and the rest. *)
Fixpoint take_digits (s : string) : string * string :=
  match s with
  | String c s' =>
      if is_digit c then let (d, r) := take_digits s' in (String c d, r)
      else (EmptyString, s)
  | EmptyString => (EmptyString, EmptyString)
  end.

(** [parseInt(d, 10)] of a non-empty digit string. *)
Fixpoint digits_value_acc (acc : Z) (d : string) : Z :=
  match d with
  | String c d' => digits_value_acc (acc * 10 + Z.of_nat (nat_of_ascii c - 48)) d'
  | EmptyString => acc
  end.

Definition drop_dot (s : string) : option string :=
  match s with
  | String "."%char s' => Some s'
  | _ => None
  end.

(** [/Cursor\/(\d+)\.(\d+)\.(\d+)/] anchored at the start of [s]. *)
Definition cursor_match_here (s : string) : option (Z * Z * Z) :=
  if String.prefix "Cursor/" s then
    let s1 := substring 7 (String.length s - 7) s in
    let (d1, r1) := take_digits s1 in
    match drop_dot r1 with
    | Some s2 =>
        let (d2, r2) := take_digits s2 in
        match drop_dot r2 with
        | Some s3 =>
            let (d3, _) := take_digits s3 in
            if negb (String.eqb d1 "") && negb (String.eqb d2 "")
               && negb (String.eqb d3 "")
            then Some (digits_value_acc 0 d1, digits_value_acc 0 d2,
                       digits_value_acc 0 d3)
            else None
        | None => None
        end
    | None => None
    end
  else None.

(** [userAgent.match(/Cursor\/(\d+)\.(\d+)\.(\d+)/)]: leftmost match. *)
Fixpoint cursor_match (s : string) : option (Z * Z * Z) :=
  match cursor_match_here s with
  | Some v => Some v
  | None =>
      match s with
      | String _ s' => cursor_match s'
      | EmptyString => None
      end
  end.

(** [isUserAuthSupported(req)]. *)
Definition isUserAuthSupported (req : Request) : bool :=
  match user_agent req with
  | None => false
  | Some userAgent =>
      match cursor_match userAgent with
      | None => false
      | Some (major, minor, patch) =>
          (1 <? major) || ((major =? 1) && (5 <? minor))
          || ((major =? 1) && (minor =? 5) && (0 <=? patch))
      end
  end.

Section WithTrim.
(** [String.prototype.trim] (strips JS white space). *)
Variable trim : string -> string.

Definition nonblank (o : option string) : bool :=
  match o with
  | Some s => negb (String.eqb (trim s) "")
  | None => false
  end.

(** [getRequestKey(req)]: the key, and [sessionUserKeyMap] after the
    possible [bindSessionUserKey]. *)
Definition getRequestKey (cfg : FeishuConfig) (req : Request) (sessions : SessionMap)
    : string * SessionMap :=
  if isAuthForTenant cfg then ("", sessions)
  else if isUserAuthSupported req then
    match authorization req with
    | Some auth =>
        if String.prefix "Bearer " auth then
          let token := trim (substring 7 (String.length auth - 7) auth) in
          if (0 <? String.length token)%nat then (token, sessions) else ("", sessions)
        else ("", sessions)
    | None => ("", sessions)
    end
  else if nonblank (q_userKey req) then
    let userKey := trim (default "" (q_userKey req)) in
    if nonblank (q_sessionId req)
    then (userKey, <[trim (default "" (q_sessionId req)) := userKey]> sessions)
    else (userKey, sessions)
  else if nonblank (q_sessionId req) then
    let trimmedSessionId := trim (default "" (q_sessionId req)) in
    match sessions !! trimmedSessionId with
    | Some foundUserKey =>
        if String.eqb foundUserKey "" then (trimmedSessionId, sessions)
        else (foundUserKey, sessions)
    | None => (trimmedSessionId, sessions)
    end
  else ("", sessions).

End WithTrim.

(** [{ error, error_description, statusCode }]. *)
Record AuthErrorResponse := mkAuthErrorResponse {
  ae_error : string;
  ae_error_description : string;
  ae_statusCode : Z;
}.

Definition newline : string := String (ascii_of_nat 10) EmptyString.

Definition auth_scope : string :=
  "base:app:read bitable:app bitable:app:readonly board:whiteboard:node:read contact:user.employee_id:readonly docs:document.content:read docx:document docx:document.block:convert docx:document:create docx:document:readonly drive:drive drive:drive:readonly drive:file drive:file:upload sheets:spreadsheet sheets:spreadsheet:readonly space:document:retrieve space:folder:create wiki:space:read wiki:space:retrieve wiki:wiki wiki:wiki:readonly offline_access".

Section WithEncode.
(** [encodeURIComponent]. *)
Variable encodeURIComponent : string -> string.

(** The authorization link embedded for clients without user auth. *)
Definition authorize_url (cfg : FeishuConfig) (baseUrl reqKey : string) : string :=
  let redirect_uri := encodeURIComponent (baseUrl ++ "/callback?baseUrl=" ++ baseUrl) in
  let scope := encodeURIComponent auth_scope in
  let state := reqKey in
  "https://accounts.feishu.cn/open-apis/authen/v1/authorize?client_id="
    ++ cfg_appId cfg ++ "&redirect_uri=" ++ redirect_uri ++ "&scope=" ++ scope
    ++ "&state=" ++ state.

(** [generateAuthErrorResponse(isUserAuthSupported, baseUrl, reqKey)]. *)
Definition generateAuthErrorResponse (cfg : FeishuConfig) (supported : bool)
    (baseUrl reqKey : string) : AuthErrorResponse :=
  if supported then
    mkAuthErrorResponse "unauthorized"
      "Missing or invalid Authorization header. Please provide a valid user access token."
      401
  else
    mkAuthErrorResponse "unauthorized"
      ("请提示用戶在浏览器打开以下链接进行授权：" ++ newline ++ newline
         ++ "[点击授权](" ++ authorize_url cfg baseUrl reqKey ++ ")")
      500.

End WithEncode.
End AuthHelpers.

(* ------------------------------------------------------------------ *)
(** ** Auth middleware (part_007) *)

Module Middleware.
Import AuthHelpers.

(** [interface TokenResult { success; token?; error? }]. *)
Record TokenResult := mkTokenResult {
  tr_success : bool;
  tr_token : option string;
  tr_error : option string;
}.

(** What the middleware does: answer the request, or call [next()] with
    [req.feishuToken] set. *)
Inductive Outcome :=
| Respond (r : Response)
| Next (feishuToken : option string).

Section Verify.
Variable trim : string -> string.
Variable encodeURIComponent : string -> string.
(** [getBaseUrl(req)]. *)
Variable getBaseUrl : Request -> string.
(** [tokenProvider.getTenantToken()] and [getUserToken(requestKey)]. *)
Variable getTenantToken : TokenResult.
Variable getUserToken : string -> TokenResult.

(** [verifyAndGetUserToken(req, res, next)]. *)
Definition verifyAndGetUserToken (cfg : FeishuConfig) (req : Request)
    (sessions : SessionMap) : Outcome * SessionMap :=
  if isAuthForTenant cfg then
    let tokenResult := getTenantToken in
    if tr_success tokenResult then (Next (tr_token tokenResult), sessions)
    else (Respond (oauth_error 500 "server_error" (default "" (tr_error tokenResult))),
          sessions)
  else
    let (requestKey, sessions') := getRequestKey trim cfg req sessions in
    let userToken := getUserToken requestKey in
    if tr_success userToken then (Next (tr_token userToken), sessions')
    else
      let r := generateAuthErrorResponse encodeURIComponent cfg
                 (isUserAuthSupported req) (getBaseUrl req) requestKey in
      if isUserAuthSupported req then
        (Respond (oauth_error (ae_statusCode r) (ae_error r) (ae_error_description r)),
         sessions')
      else (Next (Some ""), sessions').

End Verify.
End Middleware.

(* ------------------------------------------------------------------ *)
(** ** The OAuth state blob (AuthUtils.encodeState / decodeState)

    Here JS strings are what they are in the engine: sequences of UTF-16
    code units, [list Z] with every unit in [0, 65536). Bytes are [Z] in
    [0, 256). The library calls are modelled after their definitions:
    [JSON.stringify] (ES2019 well-formed stringify), [Buffer.from(s)]
    (UTF-8, lone surrogates become U+FFFD), [buf.toString('base64')]
    (padded base64), [Buffer.from(s, 'base64')] (Node's lenient decoder),
    [buf.toString('utf-8')] (WHATWG UTF-8 decoding with replacement) and
    [JSON.parse] (ECMA-404 grammar). *)

Module StateCodec.

Local Open Scope list_scope.
Local Set Warnings "-register-all".

(** ASCII literal to code units. *)
Definition cu (s : string) : list Z :=
  List.map (fun a => Z.of_nat (nat_of_ascii a)) (list_ascii_of_string s).

Definition is_lead (c : Z) : bool := (0xD800 <=? c) && (c <=? 0xDBFF).
Definition is_trail (c : Z) : bool := (0xDC00 <=? c) && (c <=? 0xDFFF).

(* --- UTF-8 ---------------------------------------------------------- *)

(** UTF-8 bytes of a code point. *)
Definition encode_cp (cp : Z) : list Z :=
  if cp <? 0x80 then [cp]
  else if cp <? 0x800 then [0xC0 + cp / 64; 0x80 + cp mod 64]
  else if cp <? 0x10000 then
    [0xE0 + cp / 4096; 0x80 + (cp / 64) mod 64; 0x80 + cp mod 64]
  else [0xF0 + cp / 262144; 0x80 + (cp / 4096) mod 64;
        0x80 + (cp / 64) mod 64; 0x80 + cp mod 64].

(** [Buffer.from(string)] / [Buffer.from(string, 'utf8')]. *)
Fixpoint utf16_to_utf8 (s : list Z) : list Z :=
  match s with
  | [] => []
  | c :: rest =>
      if is_lead c then
        match rest with
        | d :: rest' =>
            if is_trail d then
              encode_cp (0x10000 + (c - 0xD800) * 1024 + (d - 0xDC00))
                ++ utf16_to_utf8 rest'
            else encode_cp 0xFFFD ++ utf16_to_utf8 rest
        | [] => encode_cp 0xFFFD
        end
      else if is_trail c then encode_cp 0xFFFD ++ utf16_to_utf8 rest
      else encode_cp c ++ utf16_to_utf8 rest
  end.

(** State of the WHATWG UTF-8 decoder. *)
Record U8 := mkU8 {
  bytes_needed : Z;
  bytes_seen : Z;
  code_point : Z;
  lower_boundary : Z;
  upper_boundary : Z;
}.

Definition u8_init : U8 := mkU8 0 0 0 0x80 0xBF.

(** A byte read while [bytes_needed = 0]: code points emitted and the next
    state. *)
Definition u8_first (b : Z) : list Z * U8 :=
  if b <=? 0x7F then ([b], u8_init)
  else if (0xC2 <=? b) && (b <=? 0xDF) then ([], mkU8 1 0 (b mod 32) 0x80 0xBF)
  else if (0xE0 <=? b) && (b <=? 0xEF) then
    ([], mkU8 2 0 (b mod 16) (if b =? 0xE0 then 0xA0 else 0x80)
                             (if b =? 0xED then 0x9F else 0xBF))
  else if (0xF0 <=? b) && (b <=? 0xF4) then
    ([], mkU8 3 0 (b mod 8) (if b =? 0xF0 then 0x90 else 0x80)
                            (if b =? 0xF4 then 0x8F else 0xBF))
  else ([0xFFFD], u8_init).

(** The decoder over a byte list: the code points. An unexpected byte in
    a sequence yields U+FFFD and is processed again as a first byte. *)
Fixpoint utf8_decode (st : U8) (bs : list Z) : list Z :=
  match bs with
  | [] => if bytes_needed st =? 0 then [] else [0xFFFD]
  | b :: rest =>
      if bytes_needed st =? 0 then
        let (em, st') := u8_first b in em ++ utf8_decode st' rest
      else if (b <? lower_boundary st) || (upper_boundary st <? b) then
        let (em, st') := u8_first b in 0xFFFD :: em ++ utf8_decode st' rest
      else
        let cp := code_point st * 64 + b mod 64 in
        if bytes_seen st + 1 =? bytes_needed st then cp :: utf8_decode u8_init rest
        else utf8_decode (mkU8 (bytes_needed st) (bytes_seen st + 1) cp 0x80 0xBF) rest
  end.

(** UTF-16 code units of a code point. *)
Definition cp_to_utf16 (cp : Z) : list Z :=
  if cp <? 0x10000 then [cp]
  else [0xD800 + (cp - 0x10000) / 1024; 0xDC00 + (cp - 0x10000) mod 1024].

(** [buf.toString('utf-8')]. *)
Definition utf8_to_utf16 (bs : list Z) : list Z :=
  List.flat_map cp_to_utf16 (utf8_decode u8_init bs).

(* --- base64 --------------------------------------------------------- *)

Definition b64_char (v : Z) : Z :=
  if v <? 26 then 65 + v
  else if v <? 52 then 97 + (v - 26)
  else if v <? 62 then 48 + (v - 52)
  else if v =? 62 then 43
  else 47.

(** [buf.toString('base64')]: padded, standard alphabet. *)
Fixpoint base64_encode (bs : list Z) : list Z :=
  match bs with
  | b1 :: b2 :: b3 :: rest =>
      [b64_char (b1 / 4); b64_char ((b1 mod 4) * 16 + b2 / 16);
       b64_char ((b2 mod 16) * 4 + b3 / 64); b64_char (b3 mod 64)]
        ++ base64_encode rest
  | [b1; b2] =>
      [b64_char (b1 / 4); b64_char ((b1 mod 4) * 16 + b2 / 16);
       b64_char ((b2 mod 16) * 4); 61]
  | [b1] => [b64_char (b1 / 4); b64_char ((b1 mod 4) * 16); 61; 61]
  | [] => []
  end.

(** Node's [unbase64] table: both the standard and the URL-safe alphabet;
    255 for every other byte. *)
Definition unbase64 (c : Z) : Z :=
  if (65 <=? c) && (c <=? 90) then c - 65
  else if (97 <=? c) && (c <=? 122) then c - 71
  else if (48 <=? c) && (c <=? 57) then c + 4
  else if (c =? 43) || (c =? 45) then 62
  else if (c =? 47) || (c =? 95) then 63
  else 255.

(** The sextets Node's decoder ([base64_decode] in [src/base64-inl.h])
    consumes: each code unit is cast to 8 bits, illegal characters are
    skipped, and decoding stops at the first ['=']. *)
Fixpoint b64_sextets (s : list Z) : list Z :=
  match s with
  | [] => []
  | c :: s' =>
      let c8 := c mod 256 in
      let v := unbase64 c8 in
      if v <? 64 then v :: b64_sextets s'
      else if c8 =? 61 then []
      else b64_sextets s'
  end.

(** The bytes written for a sextet stream: one per sextet after the first
    of each group of four. *)
Fixpoint b64_bytes (v : list Z) : list Z :=
  match v with
  | a :: b :: c :: d :: rest =>
      [a * 4 + b / 16; (b mod 16) * 16 + c / 4; (c mod 4) * 64 + d]
        ++ b64_bytes rest
  | [a; b; c] => [a * 4 + b / 16; (b mod 16) * 16 + c / 4]
  | [a; b] => [a * 4 + b / 16]
  | _ => []
  end.

(** [base64ByteLength(str, str.length)] of [lib/buffer.js]: the buffer
    size allocated before decoding. *)
Definition base64ByteLength (s : list Z) : nat :=
  let n := length s in
  let n1 := match nth_error s (n - 1)%nat with
            | Some c => if (0 <? n)%nat && (c =? 61) then (n - 1)%nat else n
            | None => n
            end in
  let n2 := match nth_error s (n1 - 1)%nat with
            | Some c => if (1 <? n1)%nat && (c =? 61) then (n1 - 1)%nat else n1
            | None => n1
            end in
  ((n2 * 3) / 4)%nat.

(** [Buffer.from(s, 'base64')]: the written bytes, at most the allocated
    size. *)
Definition buffer_from_base64 (s : list Z) : list Z :=
  firstn (base64ByteLength s) (b64_bytes (b64_sextets s)).

(* --- JSON ----------------------------------------------------------- *)

(** JSON values; a number is kept as its source text. *)
Inductive json :=
| JNull
| JTrue
| JFalse
| JNumber (lexeme : list Z)
| JString (s : list Z)
| JArray (l : list json)
| JObject (members : list (list Z * json)).

Definition hex_digit (v : Z) : Z := if v <? 10 then 48 + v else 87 + v.

(** The four lowercase hex digits of a [\uXXXX] escape. *)
Definition hex4 (c : Z) : list Z :=
  [hex_digit (c / 4096); hex_digit ((c / 256) mod 16);
   hex_digit ((c / 16) mod 16); hex_digit (c mod 16)].

(** QuoteJSONString without the quotes (ES2019). *)
Fixpoint json_escape (s : list Z) : list Z :=
  match s with
  | [] => []
  | c :: r =>
      if c =? 34 then [92; 34] ++ json_escape r
      else if c =? 92 then [92; 92] ++ json_escape r
      else if c =? 8 then [92; 98] ++ json_escape r
      else if c =? 12 then [92; 102] ++ json_escape r
      else if c =? 10 then [92; 110] ++ json_escape r
      else if c =? 13 then [92; 114] ++ json_escape r
      else if c =? 9 then [92; 116] ++ json_escape r
      else if c <? 32 then [92; 117] ++ hex4 c ++ json_escape r
      else if is_lead c then
        match r with
        | d :: r' =>
            if is_trail d then [c; d] ++ json_escape r'
            else [92; 117] ++ hex4 c ++ json_escape r
        | [] => [92; 117] ++ hex4 c
        end
      else if is_trail c then [92; 117] ++ hex4 c ++ json_escape r
      else c :: json_escape r
  end.

Definition json_quote (s : list Z) : list Z := [34] ++ json_escape s ++ [34].

(** Decimal digits of a natural number, most significant first. *)
Fixpoint digits_of (fuel : nat) (n : Z) : list Z :=
  match fuel with
  | O => []
  | S f => if n <? 10 then [48 + n] else digits_of f (n / 10) ++ [48 + n mod 10]
  end.

(** [Number::toString] of an integer below 10^21 in absolute value (the
    timestamps below are far smaller). *)
Definition number_lexeme (n : Z) : list Z :=
  if n <? 0 then 45 :: digits_of (S (Z.to_nat (Z.log2 (- n)))) (- n)
  else digits_of (S (Z.to_nat (Z.log2 n))) n.

Fixpoint json_stringify (v : json) : list Z :=
  let fix members (ms : list (list Z * json)) : list Z :=
    match ms with
    | [] => []
    | [(k, x)] => json_quote k ++ [58] ++ json_stringify x
    | (k, x) :: ms' => json_quote k ++ [58] ++ json_stringify x ++ [44] ++ members ms'
    end in
  let fix elements (l : list json) : list Z :=
    match l with
    | [] => []
    | [x] => json_stringify x
    | x :: l' => json_stringify x ++ [44] ++ elements l'
    end in
  match v with
  | JNull => cu "null"
  | JTrue => cu "true"
  | JFalse => cu "false"
  | JNumber lex => lex
  | JString s => json_quote s
  | JArray l => [91] ++ elements l ++ [93]
  | JObject ms => [123] ++ members ms ++ [125]
  end.

Definition is_ws (c : Z) : bool := (c =? 32) || (c =? 9) || (c =? 10) || (c =? 13).

Fixpoint skip_ws (s : list Z) : list Z :=
  match s with
  | c :: r => if is_ws c then skip_ws r else s
  | [] => []
  end.

Definition hex_val (c : Z) : option Z :=
  if (48 <=? c) && (c <=? 57) then Some (c - 48)
  else if (97 <=? c) && (c <=? 102) then Some (c - 87)
  else if (65 <=? c) && (c <=? 70) then Some (c - 55)
  else None.

Definition cons_fst {A B} (x : A) (o : option (list A * B)) : option (list A * B) :=
  match o with
  | Some (l, b) => Some (x :: l, b)
  | None => None
  end.

(** The characters of a string literal after its opening quote: the
    string value and the text after the closing quote. *)
Fixpoint parse_string_body (s : list Z) : option (list Z * list Z) :=
  match s with
  | [] => None
  | c :: r =>
      if c =? 34 then Some ([], r)
      else if c =? 92 then
        match r with
        | e :: r' =>
            if e =? 34 then cons_fst 34 (parse_string_body r')
            else if e =? 92 then cons_fst 92 (parse_string_body r')
            else if e =? 47 then cons_fst 47 (parse_string_body r')
            else if e =? 98 then cons_fst 8 (parse_string_body r')
            else if e =? 102 then cons_fst 12 (parse_string_body r')
            else if e =? 110 then cons_fst 10 (parse_string_body r')
            else if e =? 114 then cons_fst 13 (parse_string_body r')
            else if e =? 116 then cons_fst 9 (parse_string_body r')
            else if e =? 117 then
              match r' with
              | h1 :: h2 :: h3 :: h4 :: r'' =>
                  match hex_val h1, hex_val h2, hex_val h3, hex_val h4 with
                  | Some v1, Some v2, Some v3, Some v4 =>
                      cons_fst (v1 * 4096 + v2 * 256 + v3 * 16 + v4)
                        (parse_string_body r'')
                  | _, _, _, _ => None
                  end
              | _ => None
              end
            else None
        | [] => None
        end
      else if c <? 32 then None
      else cons_fst c (parse_string_body r)
  end.

Definition is_digit_cu (c : Z) : bool := (48 <=? c) && (c <=? 57).

Fixpoint take_digits_cu (s : list Z) : list Z * list Z :=
  match s with
  | c :: r =>
      if is_digit_cu c then let (d, r') := take_digits_cu r in (c :: d, r')
      else ([], s)
  | [] => ([], [])
  end.

(** One or more digits. *)
Definition digits1 (s : list Z) : option (list Z * list Z) :=
  match take_digits_cu s with
  | ([], _) => None
  | (d, r) => Some (d, r)
  end.

(** A JSON number: its text and the rest. *)
Definition parse_number (s : list Z) : option (list Z * list Z) :=
  let (sign, s1) := match s with
                    | 45 :: r => ([45], r)
                    | _ => ([], s)
                    end in
  let int_part :=
    match s1 with
    | 48 :: r => Some ([48], r)
    | c :: _ => if (49 <=? c) && (c <=? 57) then digits1 s1 else None
    | [] => None
    end in
  match int_part with
  | None => None
  | Some (i, s2) =>
      let frac :=
        match s2 with
        | 46 :: r => match digits1 r with
                     | Some (d, r') => Some (46 :: d, r')
                     | None => None
                     end
        | _ => Some ([], s2)
        end in
      match frac with
      | None => None
      | Some (f, s3) =>
          let exp :=
            match s3 with
            | e :: r =>
                if (e =? 101) || (e =? 69) then
                  let (sg, r1) := match r with
                                  | 43 :: r1 => ([43], r1)
                                  | 45 :: r1 => ([45], r1)
                                  | _ => ([], r)
                                  end in
                  match digits1 r1 with
                  | Some (d, r') => Some (e :: sg ++ d, r')
                  | None => None
                  end
                else Some ([], s3)
            | [] => Some ([], s3)
            end in
          match exp with
          | None => None
          | Some (x, s4) => Some (sign ++ i ++ f ++ x, s4)
          end
      end
  end.

(** A literal [true], [false] or [null] at the start of [s]. *)
Definition parse_literal (s : list Z) : option (json * list Z) :=
  match s with
  | 116 :: 114 :: 117 :: 101 :: r => Some (JTrue, r)
  | 102 :: 97 :: 108 :: 115 :: 101 :: r => Some (JFalse, r)
  | 110 :: 117 :: 108 :: 108 :: r => Some (JNull, r)
  | _ => None
  end.

(** Recursive descent; every call consumes at least one code unit, so a
    fuel of [length s + 1] never runs out. *)
Fixpoint parse_value (fuel : nat) (s : list Z) : option (json * list Z) :=
  match fuel with
  | O => None
  | S f =>
      match skip_ws s with
      | 123 :: r =>
          match skip_ws r with
          | 125 :: r' => Some (JObject [], r')
          | _ => match parse_members f r with
                 | Some (ms, r') => Some (JObject ms, r')
                 | None => None
                 end
          end
      | 91 :: r =>
          match skip_ws r with
          | 93 :: r' => Some (JArray [], r')
          | _ => match parse_elements f r with
                 | Some (l, r') => Some (JArray l, r')
                 | None => None
                 end
          end
      | 34 :: r =>
          match parse_string_body r with
          | Some (str, r') => Some (JString str, r')
          | None => None
          end
      | s' =>
          match parse_literal s' with
          | Some res => Some res
          | None =>
              match parse_number s' with
              | Some (lex, r') => Some (JNumber lex, r')
              | None => None
              end
          end
      end
  end
with parse_members (fuel : nat) (s : list Z) : option (list (list Z * json) * list Z) :=
  match fuel with
  | O => None
  | S f =>
      match skip_ws s with
      | 34 :: r =>
          match parse_string_body r with
          | Some (k, r1) =>
              match skip_ws r1 with
              | 58 :: r2 =>
                  match parse_value f r2 with
                  | Some (v, r3) =>
                      match skip_ws r3 with
                      | 44 :: r4 =>
                          match parse_members f r4 with
                          | Some (ms, r5) => Some ((k, v) :: ms, r5)
                          | None => None
                          end
                      | 125 :: r4 => Some ([(k, v)], r4)
                      | _ => None
                      end
                  | None => None
                  end
              | _ => None
              end
          | None => None
          end
      | _ => None
      end
  end
with parse_elements (fuel : nat) (s : list Z) : option (list json * list Z) :=
  match fuel with
  | O => None
  | S f =>
      match parse_value f s with
      | Some (v, r) =>
          match skip_ws r with
          | 44 :: r' =>
              match parse_elements f r' with
              | Some (l, r'') => Some (v :: l, r'')
              | None => None
              end
          | 93 :: r' => Some ([v], r')
          | _ => None
          end
      | None => None
      end
  end.

(** [JSON.parse(text)]; [None] when it throws. *)
Definition JSON_parse (text : list Z) : option json :=
  match parse_value (S (length text)) text with
  | Some (v, rest) => match skip_ws rest with [] => Some v | _ => None end
  | None => None
  end.

(** The value of a property of a parsed object: the last binding wins. *)
Definition json_get (v : json) (key : string) : option json :=
  match v with
  | JObject ms =>
      List.fold_left (fun acc '(k, x) => if bool_decide (k = cu key)
                                         then Some x else acc) ms None
  | _ => None
  end.

(** The object literal of [encodeState]; [JSON.stringify] drops the
    [redirectUri] property when it is [undefined]. *)
Definition stateData (appId appSecret clientKey : list Z)
    (redirectUri : option (list Z)) (timestamp : Z) : json :=
  JObject ([(cu "appId", JString appId); (cu "appSecret", JString appSecret);
            (cu "clientKey", JString clientKey)]
           ++ match redirectUri with
              | Some r => [(cu "redirectUri", JString r)]
              | None => []
              end
           ++ [(cu "timestamp", JNumber (number_lexeme timestamp))]).

(** [AuthUtils.encodeState(appId, appSecret, clientKey, redirectUri?)],
    with [this.timestamp() = Math.floor(Date.now() / 1000)]. *)
Definition encodeState (nowms : Z) (appId appSecret clientKey : list Z)
    (redirectUri : option (list Z)) : list Z :=
  base64_encode
    (utf16_to_utf8
       (json_stringify (stateData appId appSecret clientKey redirectUri (nowms / 1000)))).

(** [AuthUtils.decodeState(encodedState)]: the parsed value, or [None]
    for the [catch] branch's [null]. *)
Definition decodeState (encodedState : list Z) : option json :=
  JSON_parse (utf8_to_utf16 (buffer_from_base64 encodedState)).

End StateCodec.

(* ------------------------------------------------------------------ *)
(** ** Reference definitions read off the specification *)

Module SpecRef.

(** The status the validator's reference definition prescribes for a
    record at time [now] (seconds): a 5-minute early-refresh window
    [(0, 300]]. *)
Definition spec_status (ti : TokenData) (now : Z) : TokenStatus :=
  let isExpired :=
    match expires_at ti with Some e => e <? now | None => false end in
  let canRefresh :=
    str_truthy (refresh_token ti)
    && match refresh_token_expires_at ti with
       | Some r => now <? r
       | None => false
       end in
  let shouldRefresh :=
    match expires_at ti with
    | Some e => (0 <? e - now) && (e - now <=? 300)
    | None => false
    end && canRefresh in
  mkTokenStatus (negb isExpired) isExpired canRefresh shouldRefresh.

End SpecRef.

(** Whether [getUserTokenInfo] keeps (and returns) the entry [item] at
    [nowms]. *)
Definition retained (nowms : Z) (item : CacheItem) : bool :=
  let ti := data item in
  if str_truthy (refresh_token ti) && num_truthy (refresh_token_expires_at ti)
  then negb (num_val (refresh_token_expires_at ti) <? nowms / 1000)
  else negb (nowms >? item_expiresAt item).

(** The status the code computes for a retained record: the reference
    fields with presence read as JS truthiness and an open window
    [(0, 300)]. *)
Definition window_status (ti : TokenData) (now : Z) : TokenStatus :=
  let isExpired :=
    num_truthy (expires_at ti) && (num_val (expires_at ti) <? now) in
  let canRefresh :=
    str_truthy (refresh_token ti)
    && num_truthy (refresh_token_expires_at ti)
    && (now <? num_val (refresh_token_expires_at ti)) in
  let shouldRefresh :=
    num_truthy (expires_at ti)
    && (0 <? num_val (expires_at ti) - now)
    && (num_val (expires_at ti) - now <? 300)
    && canRefresh in
  mkTokenStatus (negb isExpired) isExpired canRefresh shouldRefresh.


Definition upstream_network_error (_ : RefreshBody) : Exc TokenData :=
  inl (plain_error "Network Error").


(** A user record whose access token expired 10 s ago and whose refresh
    token is valid for 10000 s more, at [now = 1000000] seconds. *)
Definition c5_record : TokenData :=
  mkTokenData (Some "u-token") (Some "r-token") (Some 999990) (Some 1010000)
    (Some "cli_app") (Some "secret") None None None.

Definition c5_cache : Cache :=
  <[user_prefix ++ "k" := mkCacheItem c5_record 990000000 1010000000]> ∅.

(** An upstream rejecting the refresh token itself. *)
Definition upstream_invalid_grant (_ : RefreshBody) : Exc TokenData :=
  inl (mkJsError "Request failed with status code 400" (Some 99991669)).

(** A state decoder returning a blob minted at [ts] (ms), and a URL
    builder that always succeeds. *)
Definition c6_decode (ts : Z) (_ : string) : option FeishuOAuthServer.CallbackState :=
  Some (FeishuOAuthServer.mkCallbackState (Some "http://localhost:8080/cb")
          (Some "client-state") (Some ts)).

Definition c6_build (uri : option string) (code : string) (st : option string)
    : option string :=
  Some (default "" uri ++ "?code=" ++ code).

Definition user_cfg : FeishuConfig := mkFeishuConfig "cli_app" "secret" "user".
Definition tenant_cfg : FeishuConfig := mkFeishuConfig "cli_app" "secret" "tenant".

(** A Cursor 1.4 client (no user authorization) polling with a session id,
    and a Cursor 1.5.11 client presenting no bearer token. *)
Definition legacy_request : AuthHelpers.Request :=
  AuthHelpers.mkRequest (Some "Cursor/1.4.2 (darwin arm64)") None (Some "sess-1") None.
Definition capable_request : AuthHelpers.Request :=
  AuthHelpers.mkRequest (Some "Cursor/1.5.11 (win32 x64)") None None None.

Definition no_user_token (_ : string) : Middleware.TokenResult :=
  Middleware.mkTokenResult false None (Some "需要用户授权").
Definition tenant_token_ok : Middleware.TokenResult :=
  Middleware.mkTokenResult true (Some "t-token") None.

Definition c2_user_item : CacheItem :=
  mkCacheItem (mkTokenData (Some "u-token") (Some "r-token") (Some 999000)
                 (Some 1005000) None None None None None)
    990000000 999000000.

(* ------------------------------------------------------------------ *)
(** ** Predicates on code-unit and byte lists *)

Section CodeUnits.
Local Open Scope list_scope.

(** A byte. *)
Definition is_byte (b : Z) : Prop := 0 <= b < 256.

(** A UTF-16 code unit, the element of a JS string. *)
Definition is_u16 (c : Z) : Prop := 0 <= c < 0x10000.

(** An ASCII decimal digit. *)
Definition is_dec_digit (c : Z) : Prop := 48 <= c <= 57.

(** Well-formed UTF-16: lone surrogates excluded. *)
Inductive wf16 : list Z -> Prop :=
| wf16_nil : wf16 []
| wf16_bmp (c : Z) (t : list Z) :
    0 <= c < 0xD800 \/ 0xDFFF < c < 0x10000 -> wf16 t -> wf16 (c :: t)
| wf16_pair (c d : Z) (t : list Z) :
    0xD800 <= c <= 0xDBFF -> 0xDC00 <= d <= 0xDFFF -> wf16 t -> wf16 (c :: d :: t).

End CodeUnits.

(* ------------------------------------------------------------------ *)
(** ** TokenCacheManager: tenant tokens, bulk operations, statistics *)

Module TokenCacheManagerMore.
Import TokenCacheManager.

(** [getTenantTokenInfo(key)]. *)
Definition getTenantTokenInfo (key : string) (nowms : Z) (cache : Cache)
    : option TokenData * Cache :=
  let cacheKey := tenant_prefix ++ key in
  match cache !! cacheKey with
  | None => (None, cache)
  | Some cacheItem =>
      if nowms >? item_expiresAt cacheItem
      then (None, delete cacheKey cache)
      else (Some (data cacheItem), cache)
  end.

(** [getTenantToken(key)]: [tokenInfo ? tokenInfo.app_access_token : null]. *)
Definition getTenantToken (key : string) (nowms : Z) (cache : Cache)
    : option string * Cache :=
  let (info, cache') := getTenantTokenInfo key nowms cache in
  match info with
  | Some ti => (app_access_token ti, cache')
  | None => (None, cache')
  end.

(** [cacheTenantToken(key, tokenInfo, customTtl?)]: the returned flag and
    the store. The entry is set before the debug message formats
    [new Date(expiresAt).toISOString()]; when that throws, the [catch]
    returns [false] with the entry already stored. *)
Definition cacheTenantToken (key : string) (tokenInfo : TokenData)
    (customTtl : option Z) (nowms : Z) (cache : Cache) : bool * Cache :=
  let cacheKey := tenant_prefix ++ key in
  let expiresAt :=
    if num_truthy customTtl then nowms + num_val customTtl * 1000
    else if num_truthy (expires_at tokenInfo)
    then num_val (expires_at tokenInfo) * 1000
    else nowms + 2 * 60 * 60 * 1000 in
  (date_in_range expiresAt,
   <[cacheKey := mkCacheItem tokenInfo nowms expiresAt]> cache).

(** [checkTenantTokenStatus(key)]. *)
Definition checkTenantTokenStatus (key : string) (nowms : Z) (cache : Cache)
    : TokenStatus * Cache :=
  let (info, cache') := getTenantTokenInfo key nowms cache in
  match info with
  | None => (expired_status, cache')
  | Some tokenInfo =>
      let now := nowms / 1000 in
      let isExpired :=
        if num_truthy (expires_at tokenInfo)
        then num_val (expires_at tokenInfo) <? now else false in
      let timeToExpiry :=
        if num_truthy (expires_at tokenInfo)
        then Z.max 0 (num_val (expires_at tokenInfo) - now) else 0 in
      let shouldRefresh := (0 <? timeToExpiry) && (timeToExpiry <? 300) in
      (mkTokenStatus (negb isExpired) isExpired false shouldRefresh, cache')
  end.

(** [removeTenantToken(key)]. *)
Definition removeTenantToken (key : string) (cache : Cache) : bool * Cache :=
  let cacheKey := tenant_prefix ++ key in
  match cache !! cacheKey with
  | Some _ => (true, delete cacheKey cache)
  | None => (false, cache)
  end.

(** The loop of [clearUserTokens] / [clearTenantTokens]: every key that
    starts with [prefix] is deleted (deleting the current entry while
    iterating a [Map] visits every entry) and counted. *)
Definition clear_prefixed (prefix : string) (cache : Cache) : nat * Cache :=
  (size (filter (fun kv : string * CacheItem => startsWith kv.1 prefix = true) cache),
   filter (fun kv : string * CacheItem => startsWith kv.1 prefix = false) cache).

(** [clearUserTokens()]. *)
Definition clearUserTokens (cache : Cache) : nat * Cache :=
  clear_prefixed user_prefix cache.

(** [clearTenantTokens()]. *)
Definition clearTenantTokens (cache : Cache) : nat * Cache :=
  clear_prefixed tenant_prefix cache.

(** [s.replace(pattern, replacement)] with a string pattern: the first
    occurrence of [pattern] is replaced. *)
Fixpoint replace_first (s pat rep : string) : string :=
  if String.prefix pat s
  then rep ++ substring (String.length pat) (String.length s - String.length pat) s
  else match s with
       | EmptyString => s
       | String c s' => String c (replace_first s' pat rep)
       end.

(** The loop of [getValidUserTokenKeys] / [getValidTenantTokenKeys]. The
    entries are visited in [map_to_list] order rather than the [Map]'s
    insertion order: the properties below are about membership, not order. *)
Definition valid_keys (prefix : string) (nowms : Z) (cache : Cache) : list string :=
  List.map (fun kv : string * CacheItem => replace_first kv.1 prefix "")
    (List.filter (fun kv : string * CacheItem =>
                    startsWith kv.1 prefix && (nowms <? item_expiresAt kv.2))
       (map_to_list cache)).

(** [getValidUserTokenKeys()]. *)
Definition getValidUserTokenKeys (nowms : Z) (cache : Cache) : list string :=
  valid_keys user_prefix nowms cache.

(** [getValidTenantTokenKeys()]. *)
Definition getValidTenantTokenKeys (nowms : Z) (cache : Cache) : list string :=
  valid_keys tenant_prefix nowms cache.

(** The object returned by [getStats()]. *)
Record CacheStats := mkCacheStats {
  userTokenCount : nat;
  tenantTokenCount : nat;
  totalCacheSize : nat;
  validUserTokens : nat;
  validTenantTokens : nat;
}.

(** One iteration of the [getStats] loop on the counters
    (userTokenCount, tenantTokenCount, validUserTokens, validTenantTokens). *)
Definition stats_step (nowms : Z) (acc : nat * nat * nat * nat)
    (kv : string * CacheItem) : nat * nat * nat * nat :=
  let '(u, t, vu, vt) := acc in
  if startsWith kv.1 user_prefix then
    (S u, t, if nowms <? item_expiresAt kv.2 then S vu else vu, vt)
  else if startsWith kv.1 tenant_prefix then
    (u, S t, vu, if nowms <? item_expiresAt kv.2 then S vt else vt)
  else acc.

(** [getStats()]. *)
Definition getStats (nowms : Z) (cache : Cache) : CacheStats :=
  let '(u, t, vu, vt) :=
    List.fold_left (stats_step nowms) (map_to_list cache) (0%nat, 0%nat, 0%nat, 0%nat) in
  mkCacheStats u t (size cache) vu vt.

(** A lowercase hex digit, as [Buffer#toString('hex')] writes it. *)
Definition hex_char (v : Z) : ascii :=
  ascii_of_nat (Z.to_nat (if v <? 10 then 48 + v else 87 + v)).

(** The two hex digits of a byte. *)
Definition hex_byte (b : Z) : string :=
  String (hex_char (b / 16)) (String (hex_char (b mod 16)) EmptyString).

Section Random.
(** [crypto.randomBytes(n)]. *)
Variable randomBytes : nat -> list Z.

(** [static generateRandomKey(length = 32)] for a non-negative integer
    [length]: [Math.ceil(length / 2)] bytes, hex encoded, cut to [length]
    characters by [slice(0, length)]. *)
Definition generateRandomKey (length : nat) : string :=
  substring 0 length
    (String.concat "" (List.map hex_byte (randomBytes ((length + 1) / 2)))).

End Random.

(** Whether every character of [s] is a lowercase hex digit. *)
Fixpoint all_hex (s : string) : bool :=
  match s with
  | EmptyString => true
  | String c s' =>
      List.existsb (Ascii.eqb c) (list_ascii_of_string "0123456789abcdef") && all_hex s'
  end.

End TokenCacheManagerMore.

(* ------------------------------------------------------------------ *)
(** ** The OAuth callback (src/unnamed/part_003) *)

Module CallbackService.
Import StateCodec.

(** The prefix of [l] before the first element satisfying [p]. *)
Fixpoint take_until (p : Z -> bool) (l : list Z) : list Z :=
  match l with
  | [] => []
  | c :: r => if p c then [] else c :: take_until p r
  end.

(** The value of a string of decimal digits. *)
Definition digits_val (ds : list Z) : Z :=
  List.fold_left (fun acc c => acc * 10 + (c - 48)) ds 0.

(** Whether a JSON number lexeme ([-]int[.frac][(e|E)[+|-]digits]) reads
    as zero: its digits are all zero, or the decimal it denotes is at most
    2^-1075 and rounds to the double [0] (round half to even). *)
Definition lexeme_is_zero (lex : list Z) : bool :=
  let body := match lex with 45 :: r => r | _ => lex end in
  let mant := take_until (fun c => (c =? 101) || (c =? 69)) body in
  let expo := List.skipn (length mant) body in
  let int_part := take_until (fun c => c =? 46) mant in
  let frac_part := List.skipn (S (length int_part)) mant in
  let m := digits_val (int_part ++ frac_part) in
  let e :=
    match expo with
    | _ :: 45 :: ds => - digits_val ds
    | _ :: 43 :: ds => digits_val ds
    | _ :: ds => digits_val ds
    | [] => 0
    end - Z.of_nat (length frac_part) in
  (m =? 0) || ((e <? 0) && (m * 2 ^ 1075 <=? 10 ^ (- e))).

(** JS truthiness of a value produced by [JSON.parse]. *)
Definition json_truthy (v : json) : bool :=
  match v with
  | JNull | JFalse => false
  | JTrue => true
  | JNumber lex => negb (lexeme_is_zero lex)
  | JString s => negb (Nat.eqb (length s) 0)
  | JArray _ | JObject _ => true
  end.

(** JS truthiness of an optional value ([undefined] is [None]). *)
Definition opt_truthy (o : option json) : bool :=
  match o with Some v => json_truthy v | None => false end.

(** [x === s] for a property value [x] ([undefined] is [None]) and a
    string [s]. *)
Definition strict_eq_str (x : option json) (s : list Z) : bool :=
  match x with
  | Some (JString t) => bool_decide (t = s)
  | _ => false
  end.

(** Where [callback] stops: [sendFail(res, msg, code)], or the call
    [authService.getUserTokenByCode({...})] with the [clientKey] read from
    the state and the [redirect_uri] it sends. *)
Inductive CallbackStep :=
| CbFail (msg : string) (code : Z)
| CbExchange (clientKey : option json) (redirect_uri : json).

(** [callback(req, res)] up to the token exchange: the checks of [code]
    and [state], [AuthUtils.decodeState(state)], the comparison of the
    state's [appId]/[appSecret] with [config.feishu] ([!==] on strings)
    and the choice of [redirect_uri]. [port] is [config.server.port]; the
    query parameters are given once, as strings. *)
Definition callback (configAppId configAppSecret : list Z) (port : Z)
    (code state : option (list Z)) : CallbackStep :=
  if negb (match code with Some c => negb (Nat.eqb (length c) 0) | None => false end)
  then CbFail "缺少code参数" 400
  else match state with
  | None | Some [] => CbFail "缺少state参数" 400
  | Some st =>
      match decodeState st with
      | None => CbFail "state参数格式错误" 400
      | Some stateData =>
          if negb (json_truthy stateData) then CbFail "state参数格式错误" 400
          else
            let appId := json_get stateData "appId" in
            let appSecret := json_get stateData "appSecret" in
            if negb (strict_eq_str appId configAppId)
               || negb (strict_eq_str appSecret configAppSecret)
            then CbFail "state参数验证失败" 400
            else
              let redirectUri := json_get stateData "redirectUri" in
              let redirect_uri :=
                match redirectUri with
                | Some v => if json_truthy v then v
                            else JString (cu "http://localhost:" ++ number_lexeme port ++ cu "/callback")
                | None => JString (cu "http://localhost:" ++ number_lexeme port ++ cu "/callback")
                end in
              CbExchange (json_get stateData "clientKey") redirect_uri
      end
  end.

End CallbackService.

(* ------------------------------------------------------------------ *)
(** ** sessionUserKeyMap (src/unnamed/part_008) *)

Module SessionUserKeys.

(** A [Map<string, string>] as its entries in insertion order. *)
Abbreviation JsMap := (list (string * string)).

(** [map.get(k)]. *)
Fixpoint map_get (m : JsMap) (k : string) : option string :=
  match m with
  | [] => None
  | (k', v) :: r => if String.eqb k k' then Some v else map_get r k
  end.

(** [map.set(k, v)]: an existing key keeps its position. *)
Fixpoint map_set (m : JsMap) (k v : string) : JsMap :=
  match m with
  | [] => [(k, v)]
  | (k', v') :: r => if String.eqb k k' then (k', v) :: r else (k', v') :: map_set r k v
  end.

(** [map.delete(k)]: whether [k] was present, and the map without it. *)
Fixpoint map_delete (m : JsMap) (k : string) : bool * JsMap :=
  match m with
  | [] => (false, [])
  | (k', v') :: r =>
      if String.eqb k k' then (true, r)
      else let (b, r') := map_delete r k in (b, (k', v') :: r')
  end.

(** [bindSessionUserKey(sessionId, userKey)]. *)
Definition bindSessionUserKey (sessionId userKey : string) (m : JsMap) : JsMap :=
  map_set m sessionId userKey.

(** [unbindSessionUserKey(sessionId)]. *)
Definition unbindSessionUserKey (sessionId : string) (m : JsMap) : bool * JsMap :=
  map_delete m sessionId.

(** [getUserKeyBySessionId(sessionId)]. *)
Definition getUserKeyBySessionId (sessionId : string) (m : JsMap) : option string :=
  map_get m sessionId.

(** [getSessionIdByUserKey(userKey)]: the first entry in insertion order
    whose value is [userKey] ([===] on strings). *)
Fixpoint getSessionIdByUserKey (userKey : string) (m : JsMap) : option string :=
  match m with
  | [] => None
  | (sessionId, mappedUserKey) :: r =>
      if String.eqb mappedUserKey userKey then Some sessionId
      else getSessionIdByUserKey userKey r
  end.

(** [isSessionIdBound(sessionId)]: [map.has]. *)
Definition isSessionIdBound (sessionId : string) (m : JsMap) : bool :=
  match map_get m sessionId with Some _ => true | None => false end.

(** [isUserKeyBound(userKey)]. *)
Definition isUserKeyBound (userKey : string) (m : JsMap) : bool :=
  match getSessionIdByUserKey userKey m with Some _ => true | None => false end.

End SessionUserKeys.

(* ================================================================== *)
(** * Properties *)

Ltac zbool :=
  repeat match goal with
  | |- context [Z.ltb ?a ?b] => destruct (Z.ltb_spec a b)
  | |- context [Z.leb ?a ?b] => destruct (Z.leb_spec a b)
  | |- context [Z.eqb ?a ?b] => destruct (Z.eqb_spec a b)
  | |- context [Z.gtb ?a ?b] => rewrite (Z.gtb_ltb a b)
  | |- context [Z.max ?a ?b] => destruct (Z.max_spec a b) as [[? ->] | [? ->]]
  end.

(** The record of the C1 examples, at [now = 1000000] seconds. *)
Definition c1_record (ea : Z) (rt : option string) : TokenData :=
  mkTokenData (Some "u-token") rt (Some ea) (Some 1010000) None None None None None.

Definition c1_cache (ti : TokenData) : Cache :=
  <[user_prefix ++ "k" := mkCacheItem ti 999000000 1010000000]> ∅.

Example c1_example_window :
  fst (TokenCacheManager.checkUserTokenStatus "k" 1000000000
         (c1_cache (c1_record 1000200 (Some "r-token"))))
  = mkTokenStatus true false true true.
Proof. vm_compute. reflexivity. Qed.

(** Claim C1 (counterexample): a refreshable record whose access token
    expires exactly 300 s from now is outside the code's early-refresh
    window, while the reference definition's window [(0, 300]] contains
    it. *)
Lemma C1_counterexample :
  let c := c1_cache (c1_record 1000300 (Some "r-token")) in
  fst (TokenCacheManager.checkUserTokenStatus "k" 1000000000 c)
    = mkTokenStatus true false true false
  /\ SpecRef.spec_status (c1_record 1000300 (Some "r-token")) 1000000
    = mkTokenStatus true false true true.
Proof. vm_compute. split; reflexivity. Qed.

(** Claim C1 (amended): for a user record stored under [key],
    [checkUserTokenStatus] reports [expired_status] when the read purges
    the record (refresh expiry passed, or, without refresh data, the
    cache entry expired); otherwise it reports the reference fields with
    presence read as truthiness and the early-refresh window open at 300
    ([0 < expiresAt - now < 300]). In particular a record with a refresh
    token, [expiresAt = now + 200] and [refreshExpiresAt = now + 10000]
    gets [shouldRefresh], [canRefresh] and [isValid] (for [now >= 0]),
    and a record with [expiresAt = now - 5] (non-zero) and no refresh
    token gets [isExpired] and not [canRefresh]. *)
Theorem C1_checkUserTokenStatus_amended (key : string) (nowms : Z)
    (cache : Cache) (item : CacheItem)
    (Hin : cache !! (user_prefix ++ key) = Some item) :
  fst (TokenCacheManager.checkUserTokenStatus key nowms cache)
    = (if retained nowms item then window_status (data item) (nowms / 1000)
       else TokenCacheManager.expired_status)
  /\ (0 <= nowms -> str_truthy (refresh_token (data item)) = true ->
      expires_at (data item) = Some (nowms / 1000 + 200) ->
      refresh_token_expires_at (data item) = Some (nowms / 1000 + 10000) ->
      let st := fst (TokenCacheManager.checkUserTokenStatus key nowms cache) in
      shouldRefresh st = true /\ canRefresh st = true /\ isValid st = true)
  /\ (expires_at (data item) = Some (nowms / 1000 - 5) -> nowms / 1000 <> 5 ->
      refresh_token (data item) = None ->
      let st := fst (TokenCacheManager.checkUserTokenStatus key nowms cache) in
      isExpired st = true /\ canRefresh st = false).
Proof.
  assert (Hgen : fst (TokenCacheManager.checkUserTokenStatus key nowms cache)
    = (if retained nowms item then window_status (data item) (nowms / 1000)
       else TokenCacheManager.expired_status)).
  { unfold TokenCacheManager.checkUserTokenStatus,
      TokenCacheManager.getUserTokenInfo, retained, window_status.
    rewrite Hin.
    destruct (str_truthy (refresh_token (data item))
              && num_truthy (refresh_token_expires_at (data item))) eqn:Hr;
      simpl.
    - destruct (num_val (refresh_token_expires_at (data item)) <? nowms / 1000);
        simpl; [reflexivity |].
      destruct (num_truthy (expires_at (data item))); simpl;
        f_equal; zbool; simpl; rewrite ?Hr; try reflexivity; try lia.
    - destruct (nowms >? item_expiresAt item); simpl; [reflexivity |].
      destruct (num_truthy (expires_at (data item))); simpl;
        f_equal; zbool; simpl; rewrite ?Hr; try reflexivity; try lia. }
  split; [exact Hgen | split].
  - intros Hnow Hrt Hea Hrte st. subst st. rewrite Hgen.
    unfold retained, window_status. rewrite Hrt, Hea, Hrte.
    assert (0 <= nowms / 1000) by (apply Z.div_pos; lia).
    unfold num_truthy, num_val. simpl.
    zbool; simpl; repeat split; lia.
  - intros Hea Hne Hrt st. subst st. rewrite Hgen.
    unfold retained, window_status. rewrite Hea, Hrt.
    unfold num_truthy, num_val. simpl.
    destruct (nowms >? item_expiresAt item); simpl; [split; reflexivity |].
    zbool; simpl; try lia; split; reflexivity.
Qed.

Lemma C1_checkUserTokenStatus_amended_witness :
  c1_cache (c1_record 1000200 (Some "r-token")) !! (user_prefix ++ "k")
    = Some (mkCacheItem (c1_record 1000200 (Some "r-token")) 999000000 1010000000)
  /\ fst (TokenCacheManager.checkUserTokenStatus "k" 1000000000
            (c1_cache (c1_record 1000200 (Some "r-token"))))
     = (if retained 1000000000
             (mkCacheItem (c1_record 1000200 (Some "r-token")) 999000000 1010000000)
        then window_status (c1_record 1000200 (Some "r-token")) (1000000000 / 1000)
        else TokenCacheManager.expired_status).
Proof.
  assert (H : c1_cache (c1_record 1000200 (Some "r-token")) !! (user_prefix ++ "k")
    = Some (mkCacheItem (c1_record 1000200 (Some "r-token")) 999000000 1010000000))
    by (vm_compute; reflexivity).
  split; [exact H |].
  exact (proj1 (C1_checkUserTokenStatus_amended "k" 1000000000 _ _ H)).
Defined.

(** The lookup of a key after the sweep: the entry stays unless
    [shouldDelete] holds for it. *)
Lemma cleanExpiredTokens_lookup (nowms : Z) (cache : Cache) (k : string)
    (item : CacheItem) :
  cache !! k = Some item ->
  snd (TokenCacheManager.cleanExpiredTokens nowms cache) !! k
    = if TokenCacheManager.shouldDelete nowms k item then None else Some item.
Proof.
  intros Hin. unfold TokenCacheManager.cleanExpiredTokens. simpl.
  destruct (TokenCacheManager.shouldDelete nowms k item) eqn:Hd.
  - apply map_lookup_filter_None_2. right. intros x Hx.
    rewrite Hin in Hx. injection Hx as <-. simpl. congruence.
  - apply map_lookup_filter_Some_2; [exact Hin | exact Hd].
Qed.

Lemma prefix_cons (x y : ascii) (s1 s2 : string) :
  String.prefix (String x s1) (String y s2)
    = if ascii_dec x y then String.prefix s1 s2 else false.
Proof. reflexivity. Qed.

(** A tenant key is not a user key. *)
Lemma tenant_key_not_user (k : string) :
  startsWith k tenant_prefix = true -> startsWith k user_prefix = false.
Proof.
  unfold startsWith, tenant_prefix, user_prefix.
  destruct k as [| a k]; [discriminate |].
  rewrite !prefix_cons.
  destruct (ascii_dec "t" a) as [<- | _]; [| discriminate].
  intros _. destruct (ascii_dec "u" "t") as [E | _]; [discriminate E | reflexivity].
Qed.

(** Claim C2: the sweep [cleanExpiredTokens] decides per namespace. A
    user record (key with the [user_access_token:] prefix) holding a
    refresh token and a refresh expiry stays in the store exactly when
    [refreshExpiresAt >= now] (seconds), whatever its access-token or
    cache-entry expiry; a tenant record ([tenant_access_token:] prefix)
    stays exactly when its cache entry's [expiresAt] is still ahead
    ([expiresAt > now], milliseconds). *)
Theorem C2_cleanExpiredTokens_namespaces (nowms : Z) (cache : Cache)
    (k : string) (item : CacheItem) (Hin : cache !! k = Some item) :
  (startsWith k user_prefix = true ->
   str_truthy (refresh_token (data item)) = true ->
   num_truthy (refresh_token_expires_at (data item)) = true ->
   snd (TokenCacheManager.cleanExpiredTokens nowms cache) !! k
     = if num_val (refresh_token_expires_at (data item)) <? nowms / 1000
       then None else Some item)
  /\ (startsWith k tenant_prefix = true ->
      snd (TokenCacheManager.cleanExpiredTokens nowms cache) !! k
        = if item_expiresAt item <=? nowms then None else Some item).
Proof.
  rewrite (cleanExpiredTokens_lookup nowms cache k item Hin).
  unfold TokenCacheManager.shouldDelete. split.
  - intros Hu Hrt Hrte. rewrite Hu, Hrt, Hrte. reflexivity.
  - intros Ht. rewrite (tenant_key_not_user k Ht). reflexivity.
Qed.

Lemma C2_cleanExpiredTokens_namespaces_witness :
  snd (TokenCacheManager.cleanExpiredTokens 1000000000
         (<[user_prefix ++ "k" := c2_user_item]> ∅)) !! (user_prefix ++ "k")
    = Some c2_user_item.
Proof.
  assert (Hin : (<[user_prefix ++ "k" := c2_user_item]> ∅ : Cache)
                  !! (user_prefix ++ "k") = Some c2_user_item)
    by (vm_compute; reflexivity).
  rewrite (proj1 (C2_cleanExpiredTokens_namespaces 1000000000 _ _ _ Hin)
             eq_refl eq_refl eq_refl).
  vm_compute. reflexivity.
Defined.

(** Claim C3: a user record holding a refresh token whose refresh expiry
    has passed ([refreshExpiresAt < now]) is purged by the very next read
    of its key: [getUserTokenInfo] returns [null] and the store loses the
    entry, [getUserToken] returns [null] as well, and every later read of
    the key, at any time, misses and leaves the store unchanged. *)
Theorem C3_getUserTokenInfo_purges (key : string) (nowms : Z) (cache : Cache)
    (item : CacheItem)
    (Hin : cache !! (user_prefix ++ key) = Some item)
    (Hrt : str_truthy (refresh_token (data item)) = true)
    (Hrte : num_truthy (refresh_token_expires_at (data item)) = true)
    (Hlapsed : num_val (refresh_token_expires_at (data item)) < nowms / 1000) :
  TokenCacheManager.getUserTokenInfo key nowms cache
    = (None, delete (user_prefix ++ key) cache)
  /\ delete (user_prefix ++ key) cache !! (user_prefix ++ key) = None
  /\ TokenCacheManager.getUserToken key nowms cache
    = (None, delete (user_prefix ++ key) cache)
  /\ (forall nowms' : Z,
        TokenCacheManager.getUserTokenInfo key nowms'
          (delete (user_prefix ++ key) cache)
        = (None, delete (user_prefix ++ key) cache)).
Proof.
  assert (Hget : TokenCacheManager.getUserTokenInfo key nowms cache
                 = (None, delete (user_prefix ++ key) cache)).
  { unfold TokenCacheManager.getUserTokenInfo. rewrite Hin, Hrt, Hrte.
    simpl. destruct (Z.ltb_spec (num_val (refresh_token_expires_at (data item)))
                                (nowms / 1000)); [reflexivity | lia]. }
  assert (Hdel : delete (user_prefix ++ key) cache !! (user_prefix ++ key) = None)
    by apply lookup_delete_eq.
  split; [exact Hget | split; [exact Hdel | split]].
  - unfold TokenCacheManager.getUserToken. rewrite Hget. reflexivity.
  - intros nowms'. unfold TokenCacheManager.getUserTokenInfo.
    rewrite Hdel. reflexivity.
Qed.

Lemma C3_getUserTokenInfo_purges_witness :
  TokenCacheManager.getUserTokenInfo "k" 1010000000
    (<[user_prefix ++ "k" := c2_user_item]> ∅)
  = (None, delete (user_prefix ++ "k") (<[user_prefix ++ "k" := c2_user_item]> ∅)).
Proof.
  assert (Hin : (<[user_prefix ++ "k" := c2_user_item]> ∅ : Cache)
                  !! (user_prefix ++ "k") = Some c2_user_item)
    by (vm_compute; reflexivity).
  refine (proj1 (C3_getUserTokenInfo_purges "k" 1010000000 _ _ Hin
                   eq_refl eq_refl _)).
  vm_compute. reflexivity.
Defined.




Lemma str_truthy_str_or (a b : option string) :
  str_truthy (str_or a b) = str_truthy a || str_truthy b.
Proof. unfold str_or. destruct (str_truthy a) eqn:H; [exact H | reflexivity]. Qed.

Lemma window_status_isValid (ti : TokenData) (now : Z) :
  isValid (window_status ti now) = negb (isExpired (window_status ti now)).
Proof. reflexivity. Qed.

Lemma getUserTokenInfo_retained (key : string) (nowms : Z) (cache : Cache)
    (item : CacheItem) :
  cache !! (user_prefix ++ key) = Some item -> retained nowms item = true ->
  TokenCacheManager.getUserTokenInfo key nowms cache = (Some (data item), cache).
Proof.
  intros Hin Hr. unfold TokenCacheManager.getUserTokenInfo. unfold retained in Hr.
  rewrite Hin.
  destruct (str_truthy (refresh_token (data item))
            && num_truthy (refresh_token_expires_at (data item)));
    [destruct (num_val (refresh_token_expires_at (data item)) <? nowms / 1000)
    | destruct (nowms >? item_expiresAt item)];
    simpl in Hr; first [discriminate | reflexivity].
Qed.

Lemma checkUserTokenStatus_retained (key : string) (nowms : Z) (cache : Cache)
    (item : CacheItem) :
  cache !! (user_prefix ++ key) = Some item -> retained nowms item = true ->
  TokenCacheManager.checkUserTokenStatus key nowms cache
    = (window_status (data item) (nowms / 1000), cache).
Proof.
  intros Hin Hr. unfold TokenCacheManager.checkUserTokenStatus.
  rewrite (getUserTokenInfo_retained key nowms cache item Hin Hr).
  unfold window_status. f_equal. f_equal.
  destruct (num_truthy (expires_at (data item))); simpl; zbool; simpl;
    try reflexivity; lia.
Qed.

(** With an upstream that always fails, [refreshUserToken] throws and
    leaves the store as its initial read left it. *)
Lemma refreshUserToken_upstream_fails
    (upstream_refresh : RefreshBody -> Exc TokenData) (e : JsError)
    (key : string) (appId appSecret : option string) (nowms : Z) (cache : Cache) :
  (forall b, upstream_refresh b = inl e) ->
  exists err, AuthService.refreshUserToken upstream_refresh key appId appSecret nowms cache
    = (inl err, snd (TokenCacheManager.getUserTokenInfo key nowms cache)).
Proof.
  intros Hup. unfold AuthService.refreshUserToken.
  destruct (TokenCacheManager.getUserTokenInfo key nowms cache) as [[ti |] c1].
  - simpl. destruct (negb (str_truthy (refresh_token ti))); [eexists; reflexivity |].
    destruct (negb (str_truthy (str_or (client_id ti) appId)
                    && str_truthy (str_or (client_secret ti) appSecret)));
      [eexists; reflexivity |].
    rewrite Hup. eexists; reflexivity.
  - eexists; reflexivity.
Qed.

(** Claim C5 (counterexample): on the on-demand path, a refresh that
    fails with a transient network error (no upstream code, a message
    without [refresh_token]) evicts the record. *)
Lemma C5_counterexample :
  TokenRefreshManager.refreshTokenInvalid (plain_error "Network Error") = false
  /\ c5_cache !! (user_prefix ++ "k") <> None
  /\ snd (AuthService.getUserAccessToken upstream_network_error "k" None None
            1000000000 c5_cache) !! (user_prefix ++ "k") = None.
Proof. vm_compute. split; [reflexivity | split; [discriminate | reflexivity]]. Qed.

(** Claim C5 (amended): what happens to a stored, readable user record
    when the upstream refresh call fails with error [e] depends on the
    path. The scheduled sweep ([checkAndRefreshTokens], one key)
    leaves the store unchanged when [e] does not say the refresh token is
    invalid (neither code 99991669 nor a message mentioning
    [refresh_token]: a network error or a 5xx). It evicts the key when
    [e] says the token is invalid, for an expired record that can be
    refreshed and carries its client credentials. The on-demand path
    ([getUserAccessToken]) evicts an expired, refreshable record on every
    refresh failure, transient or not, and throws [AuthRequiredError]. *)
Theorem C5_refresh_failure_eviction
    (upstream_refresh : RefreshBody -> Exc TokenData) (e : JsError)
    (key : string) (appId appSecret : option string) (nowms : Z)
    (cnt : TokenRefreshManager.Counts) (cache : Cache) (item : CacheItem)
    (Hin : cache !! (user_prefix ++ key) = Some item)
    (Hret : retained nowms item = true)
    (Hup : forall b, upstream_refresh b = inl e) :
  (TokenRefreshManager.refreshTokenInvalid e = false ->
   snd (TokenRefreshManager.checkKey upstream_refresh key nowms cnt cache) = cache)
  /\ (TokenRefreshManager.refreshTokenInvalid e = true ->
      str_truthy (client_id (data item)) = true ->
      str_truthy (client_secret (data item)) = true ->
      canRefresh (window_status (data item) (nowms / 1000)) = true ->
      isExpired (window_status (data item) (nowms / 1000)) = true ->
      snd (TokenRefreshManager.checkKey upstream_refresh key nowms cnt cache)
        !! (user_prefix ++ key) = None)
  /\ (canRefresh (window_status (data item) (nowms / 1000)) = true ->
      isExpired (window_status (data item) (nowms / 1000)) = true ->
      fst (AuthService.getUserAccessToken upstream_refresh key appId appSecret nowms cache)
        = inl AuthService.auth_required
      /\ snd (AuthService.getUserAccessToken upstream_refresh key appId appSecret nowms cache)
           !! (user_prefix ++ key) = None).
Proof.
  pose proof (checkUserTokenStatus_retained key nowms cache item Hin Hret) as Hst.
  pose proof (getUserTokenInfo_retained key nowms cache item Hin Hret) as Hget.
  assert (Hattempt : forall inv : bool,
    TokenRefreshManager.refreshTokenInvalid e = inv ->
    str_truthy (refresh_token (data item)) = true ->
    str_truthy (client_id (data item)) = true ->
    str_truthy (client_secret (data item)) = true ->
    (shouldRefresh (window_status (data item) (nowms / 1000))
     || canRefresh (window_status (data item) (nowms / 1000))
        && isExpired (window_status (data item) (nowms / 1000))) = true ->
    snd (TokenRefreshManager.checkKey upstream_refresh key nowms cnt cache)
      = if inv then delete (user_prefix ++ key) cache else cache).
  { intros inv Hinv Hrt Hcid Hcsec Hcond.
    unfold TokenRefreshManager.checkKey. rewrite Hst. cbn beta iota zeta delta [negb andb orb].
    rewrite Hcond, Hget. cbn beta iota zeta delta [negb andb orb].
    rewrite Hrt, Hcid, Hcsec. cbn beta iota zeta delta [negb andb orb].
    unfold AuthService.refreshUserToken. rewrite Hget. cbn beta iota zeta delta [negb andb orb].
    rewrite Hrt, !str_truthy_str_or, Hcid, Hcsec. cbn beta iota zeta delta [negb andb orb].
    rewrite Hup. cbn beta iota zeta delta [negb andb orb]. rewrite Hinv.
    destruct inv; [| reflexivity].
    unfold TokenCacheManager.removeUserToken. rewrite Hin. reflexivity. }
  split; [| split].
  - intros Hinv.
    assert (Hunf : snd (TokenRefreshManager.checkKey upstream_refresh key nowms cnt cache)
      = snd (TokenRefreshManager.checkKey upstream_refresh key nowms cnt cache)) by reflexivity.
    unfold TokenRefreshManager.checkKey at 2 in Hunf.
    rewrite Hst, Hget in Hunf. cbn beta iota zeta delta [negb andb orb] in Hunf.
    destruct (_ || _) eqn:Hcond; [| exact Hunf].
    destruct (str_truthy (refresh_token (data item))) eqn:Hrt; [| exact Hunf].
    destruct (str_truthy (client_id (data item))) eqn:Hcid; [| exact Hunf].
    destruct (str_truthy (client_secret (data item))) eqn:Hcsec; [| exact Hunf].
    exact (Hattempt false Hinv eq_refl eq_refl eq_refl eq_refl).
  - intros Hinv Hcid Hcsec Hcr Hie.
    assert (Hrt : str_truthy (refresh_token (data item)) = true).
    { unfold window_status in Hcr. cbn in Hcr.
      destruct (str_truthy (refresh_token (data item))); [reflexivity | discriminate]. }
    rewrite (Hattempt true Hinv Hrt Hcid Hcsec).
    + apply lookup_delete_eq.
    + rewrite Hcr, Hie. apply orb_true_r.
  - intros Hcr Hie.
    assert (Hval : isValid (window_status (data item) (nowms / 1000)) = false).
    { rewrite window_status_isValid, Hie. reflexivity. }
    destruct (refreshUserToken_upstream_fails upstream_refresh e key appId appSecret
                nowms cache Hup) as [err Herr].
    rewrite Hget in Herr. cbn in Herr.
    unfold AuthService.getUserAccessToken. rewrite Hst. cbn beta iota zeta delta [negb andb orb].
    rewrite Hval, Hcr, Hie. cbn beta iota zeta delta [negb andb orb]. rewrite Herr. cbn beta iota zeta delta [negb andb orb].
    unfold TokenCacheManager.removeUserToken. rewrite Hin. cbn beta iota zeta delta [negb andb orb].
    split; [reflexivity | apply lookup_delete_eq].
Qed.

Lemma C5_refresh_failure_eviction_witness :
  snd (AuthService.getUserAccessToken upstream_network_error "k" None None
         1000000000 c5_cache) !! (user_prefix ++ "k") = None.
Proof.
  assert (Hin : c5_cache !! (user_prefix ++ "k")
                = Some (mkCacheItem c5_record 990000000 1010000000))
    by (vm_compute; reflexivity).
  refine (proj2 (proj2 (proj2 (C5_refresh_failure_eviction upstream_network_error
            (plain_error "Network Error") "k" None None 1000000000
            (TokenRefreshManager.mkCounts 0 0 0) c5_cache _ Hin _ _)) _ _));
    reflexivity.
Defined.

(** Claim C6: when the decoded state blob carries a timestamp more than
    5 minutes (300000 ms) before now, the callback handler never
    redirects, whatever the decoder, the URL builder and the code are.
    A request with a code and a state and no [error] parameter gets the
    expiry error (400, "授权请求已过期，请重新授权"). *)
Theorem C6_stale_state_rejected
    (decodeCallbackState : string -> option FeishuOAuthServer.CallbackState)
    (buildRedirect : option string -> string -> option string -> option string)
    (q : FeishuOAuthServer.CallbackQuery) (nowms : Z)
    (sd : FeishuOAuthServer.CallbackState) (ts : Z)
    (Hdec : decodeCallbackState (default "" (FeishuOAuthServer.q_state q)) = Some sd)
    (Hts : FeishuOAuthServer.st_timestamp sd = Some ts)
    (Hold : nowms - ts > 5 * 60 * 1000) :
  (forall url : string,
     FeishuOAuthServer.handleFeishuCallback decodeCallbackState buildRedirect q nowms
       <> RRedirect url)
  /\ (str_truthy (FeishuOAuthServer.q_error q) = false ->
      str_truthy (FeishuOAuthServer.q_code q) = true ->
      str_truthy (FeishuOAuthServer.q_state q) = true ->
      FeishuOAuthServer.handleFeishuCallback decodeCallbackState buildRedirect q nowms
        = RSend 400 "授权请求已过期，请重新授权").
Proof.
  assert (Hstale : (nowms - ts >? 5 * 60 * 1000) = true)
    by (rewrite Z.gtb_ltb; apply Z.ltb_lt; lia).
  assert (Hres : FeishuOAuthServer.handleFeishuCallback decodeCallbackState
                   buildRedirect q nowms
                 = if str_truthy (FeishuOAuthServer.q_error q)
                   then RSend 400 ("授权失败: " ++ default "" (FeishuOAuthServer.q_error q))
                   else if negb (str_truthy (FeishuOAuthServer.q_code q)
                                 && str_truthy (FeishuOAuthServer.q_state q))
                   then RSend 400 "缺少必需参数"
                   else RSend 400 "授权请求已过期，请重新授权").
  { unfold FeishuOAuthServer.handleFeishuCallback. rewrite Hdec, Hts, Hstale.
    reflexivity. }
  split.
  - intros url. rewrite Hres.
    destruct (str_truthy (FeishuOAuthServer.q_error q)); [discriminate |].
    destruct (negb _); discriminate.
  - intros He Hc Hs. rewrite Hres, He, Hc, Hs. reflexivity.
Qed.

Lemma C6_stale_state_rejected_witness :
  FeishuOAuthServer.handleFeishuCallback (c6_decode 1000000000) c6_build
    (FeishuOAuthServer.mkCallbackQuery (Some "valid-code") (Some "c3RhdGU=") None)
    1000300001
  = RSend 400 "授权请求已过期，请重新授权".
Proof.
  refine (proj2 (C6_stale_state_rejected (c6_decode 1000000000) c6_build
            (FeishuOAuthServer.mkCallbackQuery (Some "valid-code") (Some "c3RhdGU=") None)
            1000300001 _ 1000000000 eq_refl eq_refl _) eq_refl eq_refl eq_refl).
  lia.
Defined.

Example c6_fresh_state_redirects :
  FeishuOAuthServer.handleFeishuCallback (c6_decode 1000000000) c6_build
    (FeishuOAuthServer.mkCallbackQuery (Some "valid-code") (Some "c3RhdGU=") None)
    1000300000
  = RRedirect "http://localhost:8080/cb?code=valid-code".
Proof. reflexivity. Qed.

(** Claim C7 (counterexample): for a legacy client the failure response
    carries status 500, not 200, and the middleware answers nothing: it
    calls [next()] with an empty token. *)
Lemma C7_counterexample :
  AuthHelpers.isUserAuthSupported legacy_request = false
  /\ AuthHelpers.ae_statusCode
       (AuthHelpers.generateAuthErrorResponse (fun s => s) user_cfg false
          "http://localhost:3333" "sess-1") = 500
  /\ fst (Middleware.verifyAndGetUserToken (fun s => s) (fun s => s)
            (fun _ => "http://localhost:3333") tenant_token_ok no_user_token
            user_cfg legacy_request ∅)
     = Middleware.Next (Some "").
Proof. vm_compute. split; [reflexivity | split; reflexivity]. Qed.

(** Claim C7 (amended): in user mode, when no user token can be
    obtained, a client able to use user authorization (Cursor 1.5.0 or
    later) is answered 401 with the error code [unauthorized]; for any
    other client the middleware sends no response and calls [next()] with
    an empty token. [generateAuthErrorResponse] gives such a client
    status 500, error [unauthorized] and a description embedding the
    authorization link. *)
Theorem C7_auth_failure_response
    (trim encodeURIComponent : string -> string)
    (getBaseUrl : AuthHelpers.Request -> string)
    (getTenantToken : Middleware.TokenResult)
    (getUserToken : string -> Middleware.TokenResult)
    (cfg : FeishuConfig) (req : AuthHelpers.Request) (sessions : AuthHelpers.SessionMap)
    (Hmode : AuthHelpers.isAuthForTenant cfg = false)
    (Hfail : forall k, Middleware.tr_success (getUserToken k) = false) :
  (AuthHelpers.isUserAuthSupported req = true ->
   fst (Middleware.verifyAndGetUserToken trim encodeURIComponent getBaseUrl
          getTenantToken getUserToken cfg req sessions)
   = Middleware.Respond (oauth_error 401 "unauthorized"
       "Missing or invalid Authorization header. Please provide a valid user access token."))
  /\ (AuthHelpers.isUserAuthSupported req = false ->
      fst (Middleware.verifyAndGetUserToken trim encodeURIComponent getBaseUrl
             getTenantToken getUserToken cfg req sessions)
      = Middleware.Next (Some ""))
  /\ (forall baseUrl reqKey : string,
      let r := AuthHelpers.generateAuthErrorResponse encodeURIComponent cfg false
                 baseUrl reqKey in
      AuthHelpers.ae_statusCode r = 500
      /\ AuthHelpers.ae_error r = "unauthorized"
      /\ AuthHelpers.ae_error_description r
         = "请提示用戶在浏览器打开以下链接进行授权：" ++ AuthHelpers.newline
             ++ AuthHelpers.newline ++ "[点击授权]("
             ++ AuthHelpers.authorize_url encodeURIComponent cfg baseUrl reqKey ++ ")").
Proof.
  assert (Hv : fst (Middleware.verifyAndGetUserToken trim encodeURIComponent getBaseUrl
                      getTenantToken getUserToken cfg req sessions)
    = if AuthHelpers.isUserAuthSupported req
      then Middleware.Respond (oauth_error 401 "unauthorized"
        "Missing or invalid Authorization header. Please provide a valid user access token.")
      else Middleware.Next (Some "")).
  { unfold Middleware.verifyAndGetUserToken. rewrite Hmode.
    destruct (AuthHelpers.getRequestKey trim cfg req sessions) as [k s'].
    cbn beta iota zeta. rewrite Hfail.
    unfold AuthHelpers.generateAuthErrorResponse.
    destruct (AuthHelpers.isUserAuthSupported req); reflexivity. }
  split; [| split].
  - intros H. rewrite Hv, H. reflexivity.
  - intros H. rewrite Hv, H. reflexivity.
  - intros baseUrl reqKey. repeat split.
Qed.

Lemma C7_auth_failure_response_witness :
  fst (Middleware.verifyAndGetUserToken (fun s => s) (fun s => s)
         (fun _ => "http://localhost:3333") tenant_token_ok no_user_token
         user_cfg capable_request ∅)
  = Middleware.Respond (oauth_error 401 "unauthorized"
      "Missing or invalid Authorization header. Please provide a valid user access token.").
Proof.
  refine (proj1 (C7_auth_failure_response (fun s => s) (fun s => s)
            (fun _ => "http://localhost:3333") tenant_token_ok no_user_token
            user_cfg capable_request ∅ _ _) _).
  - reflexivity.
  - intros k. reflexivity.
  - vm_compute. reflexivity.
Defined.

(** String concatenation, seen through [list_ascii_of_string]. *)
Lemma list_ascii_of_string_append (a b : string) :
  list_ascii_of_string (a ++ b) = (list_ascii_of_string a ++ list_ascii_of_string b)%list.
Proof. induction a as [| c a IH]; [reflexivity | exact (f_equal (cons c) IH)]. Qed.

Lemma string_append_inv_tail (a1 a2 t : string) : a1 ++ t = a2 ++ t -> a1 = a2.
Proof.
  intros H. apply (f_equal list_ascii_of_string) in H.
  rewrite !list_ascii_of_string_append in H. apply app_inv_tail in H.
  rewrite <- (string_of_list_ascii_of_string a1), <- (string_of_list_ascii_of_string a2).
  now rewrite H.
Qed.

Lemma string_append_inv_head (p t1 t2 : string) : p ++ t1 = p ++ t2 -> t1 = t2.
Proof. induction p as [| c p IH]; simpl; [auto | intros H; injection H; exact IH]. Qed.

Lemma string_length_append (a b : string) :
  String.length (a ++ b) = (String.length a + String.length b)%nat.
Proof. induction a as [| c a IH]; [reflexivity | exact (f_equal S IH)]. Qed.

Lemma string_append_nonempty_neq (p t : string) : t <> "" -> p ++ t <> p.
Proof.
  intros Ht H. apply (f_equal String.length) in H.
  rewrite string_length_append in H. destruct t; [contradiction | simpl in H; lia].
Qed.

Lemma string_append_empty_r (p : string) : p ++ "" = p.
Proof. induction p as [| c p IH]; [reflexivity | exact (f_equal (String c) IH)]. Qed.

(** The user part of a key: [":" ++ userKey] for a truthy key, empty
    otherwise. *)
Lemma userPart_inj (u1 u2 : option string) (p : string) :
  str_truthy u1 || str_truthy u2 = true -> u1 <> u2 ->
  p ++ (if str_truthy u1 then ":" ++ default "" u1 else "")
  <> p ++ (if str_truthy u2 then ":" ++ default "" u2 else "").
Proof.
  intros Ht Hne.
  destruct (str_truthy u1) eqn:E1, (str_truthy u2) eqn:E2; try discriminate; intros H.
  - apply string_append_inv_head in H. injection H as H.
    destruct u1 as [x1 |], u2 as [x2 |]; try discriminate.
    apply Hne. f_equal. exact H.
  - rewrite string_append_empty_r in H.
    refine (string_append_nonempty_neq p _ _ H). discriminate.
  - rewrite string_append_empty_r in H.
    refine (string_append_nonempty_neq p _ _ (eq_sym H)). discriminate.
Qed.

Lemma AuthUtils_generateClientKey_tenant (sha256hex : string -> string)
    (cfg : FeishuConfig) (u : option string) :
  cfg_authType cfg = "tenant" ->
  AuthUtils.generateClientKey sha256hex cfg u
  = sha256hex (cfg_appId cfg ++ ":" ++ cfg_appSecret cfg).
Proof. intros H. unfold AuthUtils.generateClientKey. now rewrite H. Qed.

(** Claim C8 (counterexample): the absent and the empty user key give the
    same key, and in tenant mode two different user keys give the same key
    whatever the hash function. *)
Lemma C8_counterexample :
  TokenCacheManager.generateClientKey "cli_app" "secret" None
  = TokenCacheManager.generateClientKey "cli_app" "secret" (Some "")
  /\ (forall sha256hex : string -> string,
      AuthUtils.generateClientKey sha256hex tenant_cfg (Some "alice")
      = AuthUtils.generateClientKey sha256hex tenant_cfg (Some "bob")).
Proof. split; [reflexivity | intros h; reflexivity]. Qed.

(** Claim C8 (amended): [TokenCacheManager.generateClientKey] is a function
    of its three arguments; changing the application id alone or the
    secret alone changes the key; changing the user key alone changes the
    key when at least one of the two user keys is a non-empty string, while
    all absent or empty user keys give one and the same key.
    [AuthUtils.generateClientKey] outside tenant mode is the SHA-256 of that
    same string, so it separates the same inputs up to hash collisions; in
    tenant mode it ignores the user key. *)
Theorem C8_client_key_separation :
  (forall a1 a2 s u, a1 <> a2 ->
     TokenCacheManager.generateClientKey a1 s u
     <> TokenCacheManager.generateClientKey a2 s u)
  /\ (forall a s1 s2 u, s1 <> s2 ->
     TokenCacheManager.generateClientKey a s1 u
     <> TokenCacheManager.generateClientKey a s2 u)
  /\ (forall a s u1 u2, str_truthy u1 || str_truthy u2 = true -> u1 <> u2 ->
     TokenCacheManager.generateClientKey a s u1
     <> TokenCacheManager.generateClientKey a s u2)
  /\ (forall a s u1 u2, str_truthy u1 = false -> str_truthy u2 = false ->
     TokenCacheManager.generateClientKey a s u1
     = TokenCacheManager.generateClientKey a s u2)
  /\ (forall sha256hex cfg u, cfg_authType cfg <> "tenant" ->
     AuthUtils.generateClientKey sha256hex cfg u
     = sha256hex (TokenCacheManager.generateClientKey (cfg_appId cfg) (cfg_appSecret cfg) u))
  /\ (forall sha256hex cfg u1 u2, cfg_authType cfg = "tenant" ->
     AuthUtils.generateClientKey sha256hex cfg u1
     = AuthUtils.generateClientKey sha256hex cfg u2).
Proof.
  unfold TokenCacheManager.generateClientKey; cbv zeta.
  split; [| split; [| split; [| split; [| split]]]].
  - intros a1 a2 s u Hne H. apply Hne. exact (string_append_inv_tail _ _ _ H).
  - intros a s1 s2 u Hne H.
    apply string_append_inv_head, string_append_inv_head, string_append_inv_tail in H.
    contradiction.
  - intros a s u1 u2 Ht Hne H.
    apply string_append_inv_head, string_append_inv_head in H.
    exact (userPart_inj u1 u2 s Ht Hne H).
  - intros a s u1 u2 H1 H2. now rewrite H1, H2.
  - intros sha256hex cfg u Hne. unfold AuthUtils.generateClientKey.
    destruct (String.eqb_spec (cfg_authType cfg) "tenant"); [contradiction | reflexivity].
  - intros sha256hex cfg u1 u2 H.
    now rewrite !AuthUtils_generateClientKey_tenant.
Qed.

Lemma C8_client_key_separation_witness :
  TokenCacheManager.generateClientKey "cli_app" "secret" (Some "alice")
  <> TokenCacheManager.generateClientKey "cli_app" "secret" (Some "bob").
Proof.
  apply (proj1 (proj2 (proj2 C8_client_key_separation))
           "cli_app" "secret" (Some "alice") (Some "bob")).
  - reflexivity.
  - discriminate.
Defined.

(** Claim C9: in tenant mode the request key is the empty string whatever
    the request, the client key does not depend on the user key, and the
    middleware's outcome does not depend on the request. *)
Theorem C9_tenant_mode_ignores_user
    (sha256hex trim encodeURIComponent : string -> string)
    (cfg : FeishuConfig) (Htenant : cfg_authType cfg = "tenant") :
  (forall u1 u2 : option string,
     AuthUtils.generateClientKey sha256hex cfg u1
     = AuthUtils.generateClientKey sha256hex cfg u2)
  /\ (forall req sessions,
     AuthHelpers.getRequestKey trim cfg req sessions = ("", sessions))
  /\ (forall getBaseUrl getTenantToken getUserToken req1 req2 sessions,
     Middleware.verifyAndGetUserToken trim encodeURIComponent getBaseUrl
       getTenantToken getUserToken cfg req1 sessions
     = Middleware.verifyAndGetUserToken trim encodeURIComponent getBaseUrl
         getTenantToken getUserToken cfg req2 sessions).
Proof.
  assert (Ht : AuthHelpers.isAuthForTenant cfg = true).
  { unfold AuthHelpers.isAuthForTenant. now rewrite Htenant. }
  split; [| split].
  - intros u1 u2. now rewrite !AuthUtils_generateClientKey_tenant.
  - intros req sessions. unfold AuthHelpers.getRequestKey. now rewrite Ht.
  - intros getBaseUrl getTenantToken getUserToken req1 req2 sessions.
    unfold Middleware.verifyAndGetUserToken. now rewrite Ht.
Qed.

Lemma C9_tenant_mode_ignores_user_witness :
  AuthUtils.generateClientKey (fun s => s) tenant_cfg (Some "alice")
  = AuthUtils.generateClientKey (fun s => s) tenant_cfg (Some "bob").
Proof.
  exact (proj1 (C9_tenant_mode_ignores_user (fun s => s) (fun s => s) (fun s => s)
                  tenant_cfg eq_refl) (Some "alice") (Some "bob")).
Defined.

(* ------------------------------------------------------------------ *)
(** ** The state codec: base64, UTF-8, JSON round trip *)

Module StateCodecFacts.
Import StateCodec.
Import ListNotations.
Local Open Scope list_scope.

Ltac zlia := Z.div_mod_to_equations; lia.

Lemma forallb_range (P : Z -> bool) (n : nat) :
  forallb P (map Z.of_nat (seq 0 n)) = true ->
  forall v, 0 <= v < Z.of_nat n -> P v = true.
Proof.
  intros H v Hv. rewrite forallb_forall in H. apply H.
  apply in_map_iff. exists (Z.to_nat v). split; [lia |]. apply in_seq. lia.
Qed.

Lemma b64_char_ok (v : Z) : 0 <= v < 64 ->
  unbase64 (b64_char v mod 256) = v /\ (b64_char v =? 61) = false.
Proof.
  intros Hv.
  assert (H := forallb_range
    (fun v => (unbase64 (b64_char v mod 256) =? v) && negb (b64_char v =? 61)) 64
    ltac:(vm_compute; reflexivity) v Hv).
  apply andb_prop in H as [H1 H2]. apply Z.eqb_eq in H1. apply negb_true_iff in H2.
  split; assumption.
Qed.

Lemma b64_sextets_char (v : Z) (rest : list Z) : 0 <= v < 64 ->
  b64_sextets (b64_char v :: rest) = v :: b64_sextets rest.
Proof.
  intros Hv. destruct (b64_char_ok v Hv) as [H1 _]. cbn [b64_sextets]. rewrite H1.
  destruct (Z.ltb_spec v 64); [reflexivity | lia].
Qed.

Lemma list_ind3 {A} (P : list A -> Prop) :
  P [] -> (forall a, P [a]) -> (forall a b, P [a; b]) ->
  (forall a b c l, P l -> P (a :: b :: c :: l)) -> forall l, P l.
Proof.
  intros H0 H1 H2 H3 l. remember (length l) as n eqn:E.
  revert l E. induction n as [n IH] using lt_wf_ind. intros [|a [|b [|c l]]] E; auto.
  apply H3. apply (IH (length l)); [simpl in E; lia | reflexivity].
Qed.


Lemma b64_bytes_sextets_encode (bs : list Z) :
  Forall is_byte bs -> b64_bytes (b64_sextets (base64_encode bs)) = bs.
Proof.
  induction bs as [| b1 | b1 b2 | b1 b2 b3 rest IH] using list_ind3; intros Hb.
  - reflexivity.
  - inversion Hb as [| ? ? hb1 _]. unfold is_byte in *.
    cbn [base64_encode app].
    rewrite !b64_sextets_char by zlia. cbn [b64_bytes]. f_equal. zlia.
  - inversion Hb as [| ? ? hb1 Hb']. inversion Hb' as [| ? ? hb2 _]. unfold is_byte in *.
    cbn [base64_encode app].
    rewrite !b64_sextets_char by zlia. cbn [b64_bytes]. f_equal; [zlia | f_equal; zlia].
  - inversion Hb as [| ? ? hb1 Hb1]. inversion Hb1 as [| ? ? hb2 Hb2].
    inversion Hb2 as [| ? ? hb3 Hb3]. unfold is_byte in *.
    cbn [base64_encode app].
    rewrite !b64_sextets_char by zlia. cbn [b64_bytes app]. rewrite (IH Hb3).
    f_equal; [zlia | f_equal; [zlia | f_equal; zlia]].
Qed.

Lemma div4_shift (k : nat) : ((4 + k) * 3 / 4 = 3 + k * 3 / 4)%nat.
Proof.
  replace ((4 + k) * 3)%nat with (k * 3 + 3 * 4)%nat by lia.
  rewrite Nat.div_add by lia. lia.
Qed.

Lemma base64ByteLength_app4 (x s : list Z) :
  length x = 4%nat -> (3 <= length s)%nat ->
  base64ByteLength (x ++ s) = (3 + base64ByteLength s)%nat.
Proof.
  intros Hx Hs. unfold base64ByteLength.
  rewrite length_app, Hx.
  assert (Hn : forall k, nth_error (x ++ s) (4 + k) = nth_error s k).
  { intros k. rewrite nth_error_app2 by lia. f_equal. lia. }
  replace (4 + length s - 1)%nat with (4 + (length s - 1))%nat by lia.
  rewrite Hn.
  destruct (nth_error s (length s - 1)) as [c |] eqn:Ec.
  2: { apply nth_error_None in Ec. lia. }
  replace (0 <? 4 + length s)%nat with true by (symmetry; apply Nat.ltb_lt; lia).
  replace (0 <? length s)%nat with true by (symmetry; apply Nat.ltb_lt; lia).
  destruct (c =? 61); cbn [andb].
  - replace (4 + (length s - 1) - 1)%nat with (4 + (length s - 1 - 1))%nat by lia.
    rewrite Hn. destruct (nth_error s (length s - 1 - 1)) as [d |] eqn:Ed.
    2: { apply nth_error_None in Ed. lia. }
    replace (1 <? 4 + (length s - 1))%nat with true by (symmetry; apply Nat.ltb_lt; lia).
    replace (1 <? length s - 1)%nat with true by (symmetry; apply Nat.ltb_lt; lia).
    destruct (d =? 61); cbn [andb].
    + replace (4 + (length s - 1) - 1)%nat with (4 + (length s - 1 - 1))%nat by lia.
      apply div4_shift.
    + apply div4_shift.
  - replace (4 + (length s - 1))%nat with (4 + length s - 1)%nat by lia.
    replace (4 + length s - 1)%nat with (4 + (length s - 1))%nat by lia.
    rewrite Hn. destruct (nth_error s (length s - 1)) as [d |] eqn:Ed.
    2: { apply nth_error_None in Ed. lia. }
    replace (1 <? 4 + length s)%nat with true by (symmetry; apply Nat.ltb_lt; lia).
    replace (1 <? length s)%nat with true by (symmetry; apply Nat.ltb_lt; lia).
    destruct (d =? 61); cbn [andb].
    + replace (4 + length s - 1)%nat with (4 + (length s - 1))%nat by lia.
      apply div4_shift.
    + apply div4_shift.
Qed.

Lemma base64_encode_length_ge (l : list Z) : l <> [] -> (4 <= length (base64_encode l))%nat.
Proof.
  intros Hl. destruct l as [| a [| b [| c l]]]; [contradiction | simpl; lia ..].
Qed.

Lemma base64_encode_cons3 (b1 b2 b3 : Z) (l : list Z) :
  base64_encode (b1 :: b2 :: b3 :: l)
  = [b64_char (b1 / 4); b64_char ((b1 mod 4) * 16 + b2 / 16);
     b64_char ((b2 mod 16) * 4 + b3 / 64); b64_char (b3 mod 64)] ++ base64_encode l.
Proof. reflexivity. Qed.

Lemma base64ByteLength_encode (bs : list Z) :
  Forall is_byte bs -> base64ByteLength (base64_encode bs) = length bs.
Proof.
  induction bs as [| b1 | b1 b2 | b1 b2 b3 rest IH] using list_ind3; intros Hb.
  - reflexivity.
  - reflexivity.
  - inversion Hb as [| ? ? hb1 Hb']. inversion Hb' as [| ? ? hb2 _]. unfold is_byte in *.
    unfold base64ByteLength. cbn [base64_encode length nth_error Nat.sub Nat.ltb Nat.leb andb Z.eqb Pos.eqb].
    rewrite (proj2 (b64_char_ok ((b2 mod 16) * 4) ltac:(zlia))). reflexivity.
  - inversion Hb as [| ? ? hb1 Hb1]. inversion Hb1 as [| ? ? hb2 Hb2].
    inversion Hb2 as [| ? ? hb3 Hb3]. unfold is_byte in *.
    destruct rest as [| r rest'].
    + unfold base64ByteLength. cbn [base64_encode app length nth_error Nat.sub Nat.ltb Nat.leb andb Z.eqb Pos.eqb].
      pose proof (proj2 (b64_char_ok (b3 mod 64) ltac:(zlia))) as E.
      rewrite E. cbn [nth_error Nat.sub Nat.ltb Nat.leb andb]. rewrite E. reflexivity.
    + rewrite base64_encode_cons3.
      assert (4 <= length (base64_encode (r :: rest')))%nat
        by (apply base64_encode_length_ge; discriminate).
      rewrite base64ByteLength_app4 by (reflexivity || lia).
      rewrite (IH Hb3). simpl. lia.
Qed.

Lemma buffer_from_base64_encode (bs : list Z) :
  Forall is_byte bs -> buffer_from_base64 (base64_encode bs) = bs.
Proof.
  intros Hb. unfold buffer_from_base64.
  rewrite base64ByteLength_encode, b64_bytes_sextets_encode by exact Hb.
  apply firstn_all.
Qed.

Ltac zdec :=
  repeat (cbn beta iota zeta delta [andb orb negb];
   match goal with
   | |- context [(?x <=? ?y)] =>
       first [ rewrite (proj2 (Z.leb_le x y)) by zlia
             | rewrite (proj2 (Z.leb_gt x y)) by zlia ]
   | |- context [(?x <? ?y)] =>
       first [ rewrite (proj2 (Z.ltb_lt x y)) by zlia
             | rewrite (proj2 (Z.ltb_ge x y)) by zlia ]
   | |- context [(?x =? ?y)] =>
       first [ rewrite (proj2 (Z.eqb_eq x y)) by zlia
             | rewrite (proj2 (Z.eqb_neq x y)) by zlia ]
   end).

Ltac u8_run :=
  repeat (progress (cbn [app utf8_decode bytes_needed bytes_seen code_point
                         lower_boundary upper_boundary u8_init]; unfold u8_first; zdec)).

Lemma utf8_decode_encode_cp (cp : Z) (rest : list Z) :
  0 <= cp < 0x110000 -> ~ (0xD800 <= cp <= 0xDFFF) ->
  utf8_decode u8_init (encode_cp cp ++ rest) = cp :: utf8_decode u8_init rest.
Proof.
  intros Hr Hs. unfold encode_cp.
  destruct (Z.ltb_spec cp 0x80); [| destruct (Z.ltb_spec cp 0x800);
    [| destruct (Z.ltb_spec cp 0x10000)]].
  - u8_run. reflexivity.
  - clear Hs. u8_run. f_equal; zlia.
  - assert (cp < 0x1000 \/ 0xD000 <= cp < 0xD800 \/ (0x1000 <= cp < 0xD000 \/ 0xDFFF < cp))
      as [Hc | [Hc | Hc]] by lia; clear Hs; u8_run; f_equal; zlia.
  - assert (cp < 0x40000 \/ 0x100000 <= cp \/ 0x40000 <= cp < 0x100000)
      as [Hc | [Hc | Hc]] by lia; clear Hs; u8_run; f_equal; zlia.
Qed.


Lemma hex_val_digit (v : Z) : 0 <= v < 16 -> hex_val (hex_digit v) = Some v.
Proof.
  intros Hv.
  assert (H := forallb_range
    (fun v => match hex_val (hex_digit v) with Some w => w =? v | None => false end) 16
    ltac:(vm_compute; reflexivity) v Hv).
  cbv beta in H. destruct (hex_val (hex_digit v)) as [w |]; [| discriminate].
  apply Z.eqb_eq in H. now subst.
Qed.

Lemma parse_u_escape (c : Z) (tail : list Z) : is_u16 c ->
  parse_string_body ([92; 117] ++ hex4 c ++ tail) = cons_fst c (parse_string_body tail).
Proof.
  unfold is_u16. intros Hc.
  change (parse_string_body (92 :: 117 :: hex_digit (c / 4096) :: hex_digit ((c / 256) mod 16)
            :: hex_digit ((c / 16) mod 16) :: hex_digit (c mod 16) :: tail)
          = cons_fst c (parse_string_body tail)).
  transitivity (match hex_val (hex_digit (c / 4096)), hex_val (hex_digit ((c / 256) mod 16)),
                      hex_val (hex_digit ((c / 16) mod 16)), hex_val (hex_digit (c mod 16)) with
                | Some v1, Some v2, Some v3, Some v4 =>
                    cons_fst (v1 * 4096 + v2 * 256 + v3 * 16 + v4) (parse_string_body tail)
                | _, _, _, _ => None
                end); [reflexivity |].
  rewrite !hex_val_digit by zlia. f_equal. zlia.
Qed.

Lemma parse_raw (c : Z) (r : list Z) : 32 <= c -> c <> 34 -> c <> 92 ->
  parse_string_body (c :: r) = cons_fst c (parse_string_body r).
Proof.
  intros H1 H2 H3. cbn [parse_string_body].
  destruct (Z.eqb_spec c 34); [contradiction |].
  destruct (Z.eqb_spec c 92); [contradiction |].
  destruct (Z.ltb_spec c 32); [lia | reflexivity].
Qed.

Lemma json_escape_cons (c : Z) (r : list Z) :
  json_escape (c :: r) =
      if c =? 34 then [92; 34] ++ json_escape r
      else if c =? 92 then [92; 92] ++ json_escape r
      else if c =? 8 then [92; 98] ++ json_escape r
      else if c =? 12 then [92; 102] ++ json_escape r
      else if c =? 10 then [92; 110] ++ json_escape r
      else if c =? 13 then [92; 114] ++ json_escape r
      else if c =? 9 then [92; 116] ++ json_escape r
      else if c <? 32 then [92; 117] ++ hex4 c ++ json_escape r
      else if is_lead c then
        match r with
        | d :: r' =>
            if is_trail d then [c; d] ++ json_escape r'
            else [92; 117] ++ hex4 c ++ json_escape r
        | [] => [92; 117] ++ hex4 c
        end
      else if is_trail c then [92; 117] ++ hex4 c ++ json_escape r
      else c :: json_escape r.
Proof. reflexivity. Qed.

Lemma parse_escape (s rest : list Z) :
  Forall is_u16 s -> parse_string_body (json_escape s ++ 34 :: rest) = Some (s, rest).
Proof.
  revert rest. remember (length s) as n eqn:E. revert s E.
  induction n as [n IH] using lt_wf_ind. intros [| c r] E rest Hs.
  - reflexivity.
  - inversion Hs as [| ? ? Hc Hr]. unfold is_u16 in Hc. simpl in E.
    assert (IHr : forall r', (length r' < n)%nat -> Forall is_u16 r' ->
              forall rest', parse_string_body (json_escape r' ++ 34 :: rest') = Some (r', rest'))
      by (intros r' Hl Hr' rest'; exact (IH _ Hl r' eq_refl rest' Hr')).
    rewrite json_escape_cons. unfold is_lead, is_trail.
    assert (c = 34 \/ c = 92 \/ c = 8 \/ c = 12 \/ c = 10 \/ c = 13 \/ c = 9
            \/ (c < 32 /\ c <> 8 /\ c <> 9 /\ c <> 10 /\ c <> 12 /\ c <> 13)
            \/ 0xD800 <= c <= 0xDBFF \/ 0xDC00 <= c <= 0xDFFF
            \/ (32 <= c /\ c <> 34 /\ c <> 92 /\ (c < 0xD800 \/ 0xDFFF < c)))
      as [-> | [-> | [-> | [-> | [-> | [-> | [-> | [Hk | [Hk | [Hk | Hk]]]]]]]]]] by lia.
    1-7: cbn [Z.eqb Pos.eqb andb app]; cbn [parse_string_body];
         cbn [Z.eqb Pos.eqb]; rewrite (IHr r) by (assumption || lia); reflexivity.
    + zdec. rewrite <- !app_assoc.
      rewrite parse_u_escape by (unfold is_u16; lia). rewrite (IHr r) by (assumption || lia).
      reflexivity.
    + destruct r as [| d r'].
      * zdec. rewrite <- !app_assoc.
        rewrite parse_u_escape by (unfold is_u16; lia). reflexivity.
      * inversion Hr as [| ? ? Hd Hr']. unfold is_u16 in Hd. simpl in E.
        assert (0xDC00 <= d <= 0xDFFF \/ (d < 0xDC00 \/ 0xDFFF < d)) as [Hdt | [Hdt | Hdt]] by lia.
        -- zdec. cbn [app]. rewrite !parse_raw by lia.
           rewrite (IHr r') by (assumption || lia). reflexivity.
        -- zdec; rewrite <- !app_assoc;
             rewrite parse_u_escape by (unfold is_u16; lia);
             rewrite (IHr (d :: r')) by (assumption || simpl; lia); reflexivity.
        -- zdec; rewrite <- !app_assoc;
             rewrite parse_u_escape by (unfold is_u16; lia);
             rewrite (IHr (d :: r')) by (assumption || simpl; lia); reflexivity.
    + zdec. rewrite <- !app_assoc.
      rewrite parse_u_escape by (unfold is_u16; lia). rewrite (IHr r) by (assumption || lia).
      reflexivity.
    + destruct Hk as (Hk1 & Hk2 & Hk3 & [Hk4 | Hk4]);
        zdec; cbn [app]; rewrite parse_raw by lia;
        rewrite (IHr r) by (assumption || lia); reflexivity.
Qed.


Lemma log2_div10_lt (n : Z) : 10 <= n -> Z.log2 (n / 10) < Z.log2 n.
Proof.
  intros Hn.
  assert (H1 : Z.log2 (n / 10) <= Z.log2 (n / 2)) by (apply Z.log2_le_mono; zlia).
  assert (H2 : Z.log2 (n / 2) = Z.max 0 (Z.log2 n - 1)).
  { rewrite <- (Z.log2_shiftr n 1) by lia. rewrite Z.shiftr_div_pow2 by lia. reflexivity. }
  assert (H3 : 3 <= Z.log2 n).
  { change 3 with (Z.log2 8). apply Z.log2_le_mono. lia. }
  lia.
Qed.

Lemma digits_of_shape (f : nat) (n : Z) : 0 < n -> Z.log2 n < Z.of_nat f ->
  exists d ds, digits_of f n = d :: ds /\ 49 <= d <= 57 /\ Forall is_dec_digit ds.
Proof.
  revert n. induction f as [| f IH]; intros n Hn Hf.
  - pose proof (Z.log2_nonneg n). lia.
  - cbn [digits_of]. destruct (Z.ltb_spec n 10).
    + exists (48 + n), []. split; [reflexivity | split; [lia | constructor]].
    + destruct (IH (n / 10)) as (d & ds & E & Hd & Hds).
      * zlia.
      * pose proof (log2_div10_lt n ltac:(lia)). lia.
      * rewrite E. exists d, (ds ++ [48 + n mod 10]). split; [reflexivity | split; [exact Hd |]].
        apply Forall_app. split; [exact Hds | constructor; [unfold is_dec_digit; zlia | constructor]].
Qed.

Lemma number_lexeme_shape (n : Z) :
  number_lexeme n = [48]
  \/ (exists d ds, number_lexeme n = d :: ds /\ 49 <= d <= 57 /\ Forall is_dec_digit ds)
  \/ (exists d ds, number_lexeme n = 45 :: d :: ds /\ 49 <= d <= 57 /\ Forall is_dec_digit ds).
Proof.
  unfold number_lexeme. destruct (Z.ltb_spec n 0).
  - right; right.
    destruct (digits_of_shape (S (Z.to_nat (Z.log2 (- n)))) (- n)) as (d & ds & E & Hd & Hds).
    + lia.
    + pose proof (Z.log2_nonneg (- n)). lia.
    + exists d, ds. rewrite E. auto.
  - destruct (Z.eq_dec n 0) as [-> | Hn].
    + left. reflexivity.
    + right; left.
      destruct (digits_of_shape (S (Z.to_nat (Z.log2 n))) n) as (d & ds & E & Hd & Hds).
      * lia.
      * pose proof (Z.log2_nonneg n). lia.
      * exists d, ds. auto.
Qed.

Lemma take_digits_app (ds tail : list Z) : Forall is_dec_digit ds ->
  take_digits_cu (ds ++ 125 :: tail) = (ds, 125 :: tail).
Proof.
  induction ds as [| c ds IH]; intros H.
  - reflexivity.
  - inversion H as [| ? ? Hc Hds]. unfold is_dec_digit in Hc.
    cbn [app take_digits_cu]. rewrite IH by exact Hds.
    unfold is_digit_cu. zdec. reflexivity.
Qed.

Lemma parse_value_number (f : nat) (n : Z) (tail : list Z) :
  parse_value (S f) (number_lexeme n ++ 125 :: tail)
  = Some (JNumber (number_lexeme n), 125 :: tail).
Proof.
  destruct (number_lexeme_shape n) as [E | [(d & ds & E & Hd & Hds) | (d & ds & E & Hd & Hds)]];
    rewrite E.
  - reflexivity.
  - assert (d = 49 \/ d = 50 \/ d = 51 \/ d = 52 \/ d = 53 \/ d = 54 \/ d = 55 \/ d = 56 \/ d = 57)
      as Hd' by lia.
    repeat destruct Hd' as [-> | Hd']; try subst d;
      simpl; unfold parse_number, digits1; simpl; unfold is_digit_cu; simpl;
      rewrite take_digits_app by exact Hds; simpl; rewrite app_nil_r; reflexivity.
  - assert (d = 49 \/ d = 50 \/ d = 51 \/ d = 52 \/ d = 53 \/ d = 54 \/ d = 55 \/ d = 56 \/ d = 57)
      as Hd' by lia.
    repeat destruct Hd' as [-> | Hd']; try subst d;
      simpl; unfold parse_number, digits1; simpl; unfold is_digit_cu; simpl;
      rewrite take_digits_app by exact Hds; simpl; rewrite app_nil_r; reflexivity.
Qed.

Lemma skip_ws_cons (c : Z) (x : list Z) : is_ws c = false -> skip_ws (c :: x) = c :: x.
Proof. intros H. cbn [skip_ws]. now rewrite H. Qed.

Lemma parse_value_string (f : nat) (v X : list Z) : Forall is_u16 v ->
  parse_value (S f) (34 :: json_escape v ++ 34 :: X) = Some (JString v, X).
Proof.
  intros Hv.
  transitivity (match parse_string_body (json_escape v ++ 34 :: X) with
                | Some (str, r') => Some (JString str, r')
                | None => None
                end); [reflexivity |].
  now rewrite parse_escape.
Qed.

Lemma parse_members_string (g : nat) (k v rest : list Z) :
  Forall is_u16 k -> Forall is_u16 v ->
  parse_members (S (S g))
    (34 :: json_escape k ++ 34 :: 58 :: 34 :: json_escape v ++ 34 :: 44 :: rest)
  = cons_fst (k, JString v) (parse_members (S g) rest).
Proof.
  intros Hk Hv.
  transitivity (
    match parse_string_body (json_escape k ++ 34 :: 58 :: 34 :: json_escape v ++ 34 :: 44 :: rest) with
    | Some (k', r1) =>
        match skip_ws r1 with
        | 58 :: r2 =>
            match parse_value (S g) r2 with
            | Some (v', r3) =>
                match skip_ws r3 with
                | 44 :: r4 =>
                    match parse_members (S g) r4 with
                    | Some (ms, r5) => Some ((k', v') :: ms, r5)
                    | None => None
                    end
                | 125 :: r4 => Some ([(k', v')], r4)
                | _ => None
                end
            | None => None
            end
        | _ => None
        end
    | None => None
    end); [reflexivity |].
  rewrite parse_escape by exact Hk. cbn beta iota.
  rewrite skip_ws_cons by reflexivity. cbn beta iota.
  rewrite parse_value_string by exact Hv. cbn beta iota.
  rewrite skip_ws_cons by reflexivity. cbn beta iota.
  reflexivity.
Qed.

Lemma parse_members_number (g : nat) (k : list Z) (n : Z) (tail : list Z) :
  Forall is_u16 k ->
  parse_members (S (S g)) (34 :: json_escape k ++ 34 :: 58 :: number_lexeme n ++ 125 :: tail)
  = Some ([(k, JNumber (number_lexeme n))], tail).
Proof.
  intros Hk.
  transitivity (
    match parse_string_body (json_escape k ++ 34 :: 58 :: number_lexeme n ++ 125 :: tail) with
    | Some (k', r1) =>
        match skip_ws r1 with
        | 58 :: r2 =>
            match parse_value (S g) r2 with
            | Some (v', r3) =>
                match skip_ws r3 with
                | 44 :: r4 =>
                    match parse_members (S g) r4 with
                    | Some (ms, r5) => Some ((k', v') :: ms, r5)
                    | None => None
                    end
                | 125 :: r4 => Some ([(k', v')], r4)
                | _ => None
                end
            | None => None
            end
        | _ => None
        end
    | None => None
    end); [reflexivity |].
  rewrite parse_escape by exact Hk. cbn beta iota.
  rewrite skip_ws_cons by reflexivity. cbn beta iota.
  rewrite parse_value_number. cbn beta iota.
  rewrite skip_ws_cons by reflexivity. reflexivity.
Qed.

Lemma parse_value_object (f : nat) (X : list Z) :
  parse_value (S (S f)) (123 :: 34 :: X)
  = match parse_members (S f) (34 :: X) with
    | Some (ms, r') => Some (JObject ms, r')
    | None => None
    end.
Proof. reflexivity. Qed.

Lemma cu_u16 (s : string) : Forall is_u16 (cu s).
Proof.
  unfold cu. induction (list_ascii_of_string s) as [| a l IH]; constructor; [| exact IH].
  pose proof (nat_ascii_bounded a). unfold is_u16. lia.
Qed.

Lemma json_quote_app (k Y : list Z) : json_quote k ++ Y = 34 :: json_escape k ++ 34 :: Y.
Proof. unfold json_quote. now rewrite <- !app_assoc. Qed.



Lemma stateData_text4 (a s c : list Z) (ts : Z) :
  json_stringify (stateData a s c None ts)
  = [123] ++ (json_quote (cu "appId") ++ [58] ++ json_quote a ++ [44] ++
      (json_quote (cu "appSecret") ++ [58] ++ json_quote s ++ [44] ++
       (json_quote (cu "clientKey") ++ [58] ++ json_quote c ++ [44] ++
        (json_quote (cu "timestamp") ++ [58] ++ number_lexeme ts)))) ++ [125].
Proof. unfold stateData; cbn [app json_stringify]. reflexivity. Qed.

Lemma stateData_text5 (a s c u : list Z) (ts : Z) :
  json_stringify (stateData a s c (Some u) ts)
  = [123] ++ (json_quote (cu "appId") ++ [58] ++ json_quote a ++ [44] ++
      (json_quote (cu "appSecret") ++ [58] ++ json_quote s ++ [44] ++
       (json_quote (cu "clientKey") ++ [58] ++ json_quote c ++ [44] ++
        (json_quote (cu "redirectUri") ++ [58] ++ json_quote u ++ [44] ++
         (json_quote (cu "timestamp") ++ [58] ++ number_lexeme ts))))) ++ [125].
Proof. unfold stateData; cbn [app json_stringify]. reflexivity. Qed.

Lemma object_text4 (k1 v1 k2 v2 k3 v3 k4 L : list Z) :
  [123] ++ (json_quote k1 ++ [58] ++ json_quote v1 ++ [44] ++
      (json_quote k2 ++ [58] ++ json_quote v2 ++ [44] ++
       (json_quote k3 ++ [58] ++ json_quote v3 ++ [44] ++
        (json_quote k4 ++ [58] ++ L)))) ++ [125]
  = 123 :: 34 :: json_escape k1 ++ 34 :: 58 :: 34 :: json_escape v1 ++ 34 :: 44 ::
    34 :: json_escape k2 ++ 34 :: 58 :: 34 :: json_escape v2 ++ 34 :: 44 ::
    34 :: json_escape k3 ++ 34 :: 58 :: 34 :: json_escape v3 ++ 34 :: 44 ::
    34 :: json_escape k4 ++ 34 :: 58 :: L ++ [125].
Proof.
  rewrite <- !app_assoc. rewrite !json_quote_app. cbn [app].
  repeat (rewrite <- !app_assoc; cbn [app]). reflexivity.
Qed.

Lemma object_text5 (k1 v1 k2 v2 k3 v3 k4 v4 k5 L : list Z) :
  [123] ++ (json_quote k1 ++ [58] ++ json_quote v1 ++ [44] ++
      (json_quote k2 ++ [58] ++ json_quote v2 ++ [44] ++
       (json_quote k3 ++ [58] ++ json_quote v3 ++ [44] ++
        (json_quote k4 ++ [58] ++ json_quote v4 ++ [44] ++
         (json_quote k5 ++ [58] ++ L))))) ++ [125]
  = 123 :: 34 :: json_escape k1 ++ 34 :: 58 :: 34 :: json_escape v1 ++ 34 :: 44 ::
    34 :: json_escape k2 ++ 34 :: 58 :: 34 :: json_escape v2 ++ 34 :: 44 ::
    34 :: json_escape k3 ++ 34 :: 58 :: 34 :: json_escape v3 ++ 34 :: 44 ::
    34 :: json_escape k4 ++ 34 :: 58 :: 34 :: json_escape v4 ++ 34 :: 44 ::
    34 :: json_escape k5 ++ 34 :: 58 :: L ++ [125].
Proof.
  rewrite <- !app_assoc. rewrite !json_quote_app. cbn [app].
  repeat (rewrite <- !app_assoc; cbn [app]). reflexivity.
Qed.

Lemma parse_object4 (g : nat) (k1 v1 k2 v2 k3 v3 k4 : list Z) (n : Z) :
  Forall is_u16 k1 -> Forall is_u16 v1 -> Forall is_u16 k2 -> Forall is_u16 v2 ->
  Forall is_u16 k3 -> Forall is_u16 v3 -> Forall is_u16 k4 ->
  parse_value (S (S (S (S (S (S g))))))
    (123 :: 34 :: json_escape k1 ++ 34 :: 58 :: 34 :: json_escape v1 ++ 34 :: 44 ::
     34 :: json_escape k2 ++ 34 :: 58 :: 34 :: json_escape v2 ++ 34 :: 44 ::
     34 :: json_escape k3 ++ 34 :: 58 :: 34 :: json_escape v3 ++ 34 :: 44 ::
     34 :: json_escape k4 ++ 34 :: 58 :: number_lexeme n ++ [125])
  = Some (JObject [(k1, JString v1); (k2, JString v2); (k3, JString v3);
                   (k4, JNumber (number_lexeme n))], []).
Proof.
  intros. rewrite parse_value_object.
  rewrite !parse_members_string by assumption.
  rewrite parse_members_number by assumption. reflexivity.
Qed.

Lemma parse_object5 (g : nat) (k1 v1 k2 v2 k3 v3 k4 v4 k5 : list Z) (n : Z) :
  Forall is_u16 k1 -> Forall is_u16 v1 -> Forall is_u16 k2 -> Forall is_u16 v2 ->
  Forall is_u16 k3 -> Forall is_u16 v3 -> Forall is_u16 k4 -> Forall is_u16 v4 ->
  Forall is_u16 k5 ->
  parse_value (S (S (S (S (S (S (S g)))))))
    (123 :: 34 :: json_escape k1 ++ 34 :: 58 :: 34 :: json_escape v1 ++ 34 :: 44 ::
     34 :: json_escape k2 ++ 34 :: 58 :: 34 :: json_escape v2 ++ 34 :: 44 ::
     34 :: json_escape k3 ++ 34 :: 58 :: 34 :: json_escape v3 ++ 34 :: 44 ::
     34 :: json_escape k4 ++ 34 :: 58 :: 34 :: json_escape v4 ++ 34 :: 44 ::
     34 :: json_escape k5 ++ 34 :: 58 :: number_lexeme n ++ [125])
  = Some (JObject [(k1, JString v1); (k2, JString v2); (k3, JString v3);
                   (k4, JString v4); (k5, JNumber (number_lexeme n))], []).
Proof.
  intros. rewrite parse_value_object.
  rewrite !parse_members_string by assumption.
  rewrite parse_members_number by assumption. reflexivity.
Qed.

(* --- well-formed UTF-16 ------------------------------------------- *)

Lemma wf16_app (a b : list Z) : wf16 a -> wf16 b -> wf16 (a ++ b).
Proof.
  intros Ha Hb. induction Ha; cbn [app].
  - exact Hb.
  - now constructor.
  - now constructor.
Qed.

Lemma wf16_ascii (c : Z) (t : list Z) : 0 <= c < 128 -> wf16 t -> wf16 (c :: t).
Proof. intros Hc Ht. constructor; [lia | exact Ht]. Qed.

Lemma hex_digit_ascii (v : Z) : 0 <= v < 16 -> 0 <= hex_digit v < 128.
Proof.
  intros Hv.
  assert (H := forallb_range (fun v => (0 <=? hex_digit v) && (hex_digit v <? 128)) 16
    ltac:(vm_compute; reflexivity) v Hv).
  cbv beta in H. apply andb_prop in H as [H1 H2].
  apply Z.leb_le in H1. apply Z.ltb_lt in H2. lia.
Qed.

Lemma wf16_hex4 (c : Z) (t : list Z) : is_u16 c -> wf16 t -> wf16 (hex4 c ++ t).
Proof.
  unfold is_u16. intros Hc Ht. cbn [hex4 app].
  repeat apply wf16_ascii; try apply hex_digit_ascii; try zlia; exact Ht.
Qed.

Lemma wf16_escape (s : list Z) : Forall is_u16 s -> wf16 (json_escape s).
Proof.
  remember (length s) as n eqn:E. revert s E.
  induction n as [n IH] using lt_wf_ind. intros [| c r] E Hs.
  - constructor.
  - inversion Hs as [| ? ? Hc Hr]. unfold is_u16 in Hc. simpl in E.
    assert (IHr : forall r', (length r' < n)%nat -> Forall is_u16 r' -> wf16 (json_escape r'))
      by (intros r' Hl Hr'; exact (IH _ Hl r' eq_refl Hr')).
    rewrite json_escape_cons. unfold is_lead, is_trail.
    assert (c = 34 \/ c = 92 \/ c = 8 \/ c = 12 \/ c = 10 \/ c = 13 \/ c = 9
            \/ (c < 32 /\ c <> 8 /\ c <> 9 /\ c <> 10 /\ c <> 12 /\ c <> 13)
            \/ 0xD800 <= c <= 0xDBFF \/ 0xDC00 <= c <= 0xDFFF
            \/ (32 <= c /\ c <> 34 /\ c <> 92 /\ (c < 0xD800 \/ 0xDFFF < c)))
      as [-> | [-> | [-> | [-> | [-> | [-> | [-> | [Hk | [Hk | [Hk | Hk]]]]]]]]]] by lia.
    1-7: cbn [Z.eqb Pos.eqb andb app];
         apply wf16_ascii; [lia |]; apply wf16_ascii; [lia |]; apply IHr; (assumption || lia).
    + zdec. cbn [app]. apply wf16_ascii; [lia |]; apply wf16_ascii; [lia |].
      apply wf16_hex4; [unfold is_u16; lia |]. apply IHr; (assumption || lia).
    + destruct r as [| d r'].
      * zdec. cbn [app]. apply wf16_ascii; [lia |]; apply wf16_ascii; [lia |].
        rewrite <- (app_nil_r (hex4 c)). apply wf16_hex4; [unfold is_u16; lia | constructor].
      * inversion Hr as [| ? ? Hd Hr']. unfold is_u16 in Hd. simpl in E.
        assert (0xDC00 <= d <= 0xDFFF \/ (d < 0xDC00 \/ 0xDFFF < d)) as [Hdt | [Hdt | Hdt]] by lia.
        -- zdec. cbn [app]. constructor; [lia | lia |]. apply IHr; (assumption || lia).
        -- zdec. cbn [app]. apply wf16_ascii; [lia |]; apply wf16_ascii; [lia |].
           apply wf16_hex4; [unfold is_u16; lia |]. apply IHr; (assumption || simpl; lia).
        -- zdec. cbn [app]. apply wf16_ascii; [lia |]; apply wf16_ascii; [lia |].
           apply wf16_hex4; [unfold is_u16; lia |]. apply IHr; (assumption || simpl; lia).
    + zdec. cbn [app]. apply wf16_ascii; [lia |]; apply wf16_ascii; [lia |].
      apply wf16_hex4; [unfold is_u16; lia |]. apply IHr; (assumption || lia).
    + destruct Hk as (Hk1 & Hk2 & Hk3 & [Hk4 | Hk4]);
        zdec; constructor; [lia | | lia | ]; apply IHr; (assumption || lia).
Qed.

Lemma wf16_number (n : Z) (t : list Z) : wf16 t -> wf16 (number_lexeme n ++ t).
Proof.
  intros Ht.
  assert (Hd : forall ds, Forall is_dec_digit ds -> wf16 (ds ++ t)).
  { induction ds as [| x ds IH]; intros H; [exact Ht |].
    inversion H as [| ? ? Hx Hds]. unfold is_dec_digit in Hx. cbn [app].
    apply wf16_ascii; [lia | exact (IH Hds)]. }
  destruct (number_lexeme_shape n) as [E | [(d & ds & E & Hd1 & Hds) | (d & ds & E & Hd1 & Hds)]];
    rewrite E; cbn [app]; repeat (apply wf16_ascii; [lia |]); auto.
Qed.

Lemma encode_cp_bytes (cp : Z) : 0 <= cp < 0x110000 -> Forall is_byte (encode_cp cp).
Proof.
  intros H. unfold encode_cp.
  destruct (Z.ltb_spec cp 0x80); [| destruct (Z.ltb_spec cp 0x800);
    [| destruct (Z.ltb_spec cp 0x10000)]];
    repeat constructor; unfold is_byte; zlia.
Qed.

Lemma is_lead_false (c : Z) : c < 0xD800 \/ 0xDBFF < c -> is_lead c = false.
Proof. intros H. unfold is_lead. destruct H; zdec; reflexivity. Qed.

Lemma is_trail_false (c : Z) : c < 0xDC00 \/ 0xDFFF < c -> is_trail c = false.
Proof. intros H. unfold is_trail. destruct H; zdec; reflexivity. Qed.

Lemma is_lead_true (c : Z) : 0xD800 <= c <= 0xDBFF -> is_lead c = true.
Proof. intros H. unfold is_lead. zdec. reflexivity. Qed.

Lemma is_trail_true (c : Z) : 0xDC00 <= c <= 0xDFFF -> is_trail c = true.
Proof. intros H. unfold is_trail. zdec. reflexivity. Qed.

Lemma utf16_to_utf8_bmp (c : Z) (t : list Z) : 0 <= c < 0xD800 \/ 0xDFFF < c < 0x10000 ->
  utf16_to_utf8 (c :: t) = encode_cp c ++ utf16_to_utf8 t.
Proof.
  intros H. cbn [utf16_to_utf8].
  rewrite is_lead_false, is_trail_false by lia. reflexivity.
Qed.

Lemma utf16_to_utf8_pair (c d : Z) (t : list Z) :
  0xD800 <= c <= 0xDBFF -> 0xDC00 <= d <= 0xDFFF ->
  utf16_to_utf8 (c :: d :: t)
  = encode_cp (0x10000 + (c - 0xD800) * 1024 + (d - 0xDC00)) ++ utf16_to_utf8 t.
Proof.
  intros Hc Hd. cbn [utf16_to_utf8].
  rewrite is_lead_true, is_trail_true by lia. reflexivity.
Qed.

Lemma utf16_to_utf8_bytes (t : list Z) : wf16 t -> Forall is_byte (utf16_to_utf8 t).
Proof.
  induction 1 as [| c t Hc Ht IH | c d t Hc Hd Ht IH].
  - constructor.
  - rewrite utf16_to_utf8_bmp by exact Hc.
    apply Forall_app; split; [apply encode_cp_bytes; lia | exact IH].
  - rewrite utf16_to_utf8_pair by assumption.
    apply Forall_app; split; [apply encode_cp_bytes; lia | exact IH].
Qed.

Lemma utf16_round_trip (t : list Z) : wf16 t -> utf8_to_utf16 (utf16_to_utf8 t) = t.
Proof.
  unfold utf8_to_utf16.
  induction 1 as [| c t Hc Ht IH | c d t Hc Hd Ht IH].
  - reflexivity.
  - rewrite utf16_to_utf8_bmp by exact Hc.
    rewrite utf8_decode_encode_cp by lia. cbn [flat_map]. rewrite IH.
    unfold cp_to_utf16. zdec. reflexivity.
  - rewrite utf16_to_utf8_pair by assumption.
    rewrite utf8_decode_encode_cp by lia. cbn [flat_map]. rewrite IH.
    unfold cp_to_utf16. zdec. cbn [app]. f_equal; [| f_equal]; zlia.
Qed.

Ltac wf16_text :=
  repeat first
    [ apply wf16_nil
    | apply wf16_ascii; [lia |]
    | apply wf16_app; [apply wf16_escape; assumption |]
    | apply wf16_number ].

Lemma object_json4 (k1 v1 k2 v2 k3 v3 k4 : list Z) (n : Z) :
  Forall is_u16 k1 -> Forall is_u16 v1 -> Forall is_u16 k2 -> Forall is_u16 v2 ->
  Forall is_u16 k3 -> Forall is_u16 v3 -> Forall is_u16 k4 ->
  let T := [123] ++ (json_quote k1 ++ [58] ++ json_quote v1 ++ [44] ++
      (json_quote k2 ++ [58] ++ json_quote v2 ++ [44] ++
       (json_quote k3 ++ [58] ++ json_quote v3 ++ [44] ++
        (json_quote k4 ++ [58] ++ number_lexeme n)))) ++ [125] in
  wf16 T /\
  JSON_parse T = Some (JObject [(k1, JString v1); (k2, JString v2); (k3, JString v3);
                                (k4, JNumber (number_lexeme n))]).
Proof.
  intros. subst T. rewrite object_text4. split; [wf16_text |].
  unfold JSON_parse.
  match goal with |- context [parse_value (S (length ?t)) _] =>
    assert (Hl : (5 <= length t)%nat) by (cbn [length]; rewrite length_app; cbn [length]; lia);
    replace (S (length t)) with (S (S (S (S (S (S (length t - 5))))))) by lia
  end.
  rewrite parse_object4 by assumption. reflexivity.
Qed.

Lemma object_json5 (k1 v1 k2 v2 k3 v3 k4 v4 k5 : list Z) (n : Z) :
  Forall is_u16 k1 -> Forall is_u16 v1 -> Forall is_u16 k2 -> Forall is_u16 v2 ->
  Forall is_u16 k3 -> Forall is_u16 v3 -> Forall is_u16 k4 -> Forall is_u16 v4 ->
  Forall is_u16 k5 ->
  let T := [123] ++ (json_quote k1 ++ [58] ++ json_quote v1 ++ [44] ++
      (json_quote k2 ++ [58] ++ json_quote v2 ++ [44] ++
       (json_quote k3 ++ [58] ++ json_quote v3 ++ [44] ++
        (json_quote k4 ++ [58] ++ json_quote v4 ++ [44] ++
         (json_quote k5 ++ [58] ++ number_lexeme n))))) ++ [125] in
  wf16 T /\
  JSON_parse T = Some (JObject [(k1, JString v1); (k2, JString v2); (k3, JString v3);
                                (k4, JString v4); (k5, JNumber (number_lexeme n))]).
Proof.
  intros. subst T. rewrite object_text5. split; [wf16_text |].
  unfold JSON_parse.
  match goal with |- context [parse_value (S (length ?t)) _] =>
    assert (Hl : (6 <= length t)%nat) by (cbn [length]; rewrite length_app; cbn [length]; rewrite length_app; cbn [length]; lia);
    replace (S (length t)) with (S (S (S (S (S (S (S (length t - 6)))))))) by lia
  end.
  rewrite parse_object5 by assumption. reflexivity.
Qed.

Lemma stateData_json (a s c : list Z) (u : option (list Z)) (ts : Z) :
  Forall is_u16 a -> Forall is_u16 s -> Forall is_u16 c ->
  (forall r, u = Some r -> Forall is_u16 r) ->
  wf16 (json_stringify (stateData a s c u ts)) /\
  JSON_parse (json_stringify (stateData a s c u ts)) = Some (stateData a s c u ts).
Proof.
  intros Ha Hs Hc Hu. destruct u as [r |].
  - rewrite stateData_text5.
    pose proof (object_json5 (cu "appId") a (cu "appSecret") s (cu "clientKey") c
      (cu "redirectUri") r (cu "timestamp") ts (cu_u16 _) Ha (cu_u16 _) Hs (cu_u16 _) Hc
      (cu_u16 _) (Hu r eq_refl) (cu_u16 _)) as H.
    exact H.
  - rewrite stateData_text4.
    pose proof (object_json4 (cu "appId") a (cu "appSecret") s (cu "clientKey") c
      (cu "timestamp") ts (cu_u16 _) Ha (cu_u16 _) Hs (cu_u16 _) Hc (cu_u16 _)) as H.
    exact H.
Qed.

Lemma state_round_trip (nowms : Z) (appId appSecret clientKey : list Z)
    (redirectUri : option (list Z)) :
  Forall is_u16 appId -> Forall is_u16 appSecret -> Forall is_u16 clientKey ->
  (forall r, redirectUri = Some r -> Forall is_u16 r) ->
  decodeState (encodeState nowms appId appSecret clientKey redirectUri)
  = Some (stateData appId appSecret clientKey redirectUri (nowms / 1000)).
Proof.
  intros Ha Hs Hc Hu.
  destruct (stateData_json appId appSecret clientKey redirectUri (nowms / 1000) Ha Hs Hc Hu)
    as [Hw Hp].
  unfold decodeState, encodeState.
  rewrite buffer_from_base64_encode by (apply utf16_to_utf8_bytes; exact Hw).
  rewrite utf16_round_trip by exact Hw. exact Hp.
Qed.

End StateCodecFacts.

(** C10 (counterexample): [decodeState] is not [null] on every input that
    is not valid base64-encoded JSON. Node's base64 decoder skips characters
    outside the alphabet and stops at the first ['='], and invalid UTF-8 is
    replaced by U+FFFD rather than rejected: [" e30="] and ["e30=!!"] decode
    to the object [{}], and ["Iv8i"] (bytes 22 FF 22) to the string
    ["�"]. *)
Lemma C10_counterexample :
  StateCodec.decodeState (StateCodec.cu " e30=") = Some (StateCodec.JObject [])
  /\ StateCodec.decodeState (StateCodec.cu "e30=!!") = Some (StateCodec.JObject [])
  /\ StateCodec.decodeState (StateCodec.cu "Iv8i") = Some (StateCodec.JString [65533]).
Proof. vm_compute. split; [reflexivity | split; reflexivity]. Qed.

(** C10: for every appId, appSecret, clientKey (JS strings: lists of
    UTF-16 code units, lone surrogates included) and optional redirectUri,
    [decodeState (encodeState ...)] is the parsed [stateData] object, so its
    appId, appSecret, clientKey and redirectUri properties are the encoded
    values (redirectUri absent when it was [undefined]) and its timestamp is
    [Math.floor(Date.now() / 1000)]. *)
Theorem C10_state_round_trip (nowms : Z) (appId appSecret clientKey : list Z)
    (redirectUri : option (list Z))
    (Ha : Forall is_u16 appId) (Hs : Forall is_u16 appSecret)
    (Hc : Forall is_u16 clientKey)
    (Hu : forall r, redirectUri = Some r -> Forall is_u16 r) :
  StateCodec.decodeState
    (StateCodec.encodeState nowms appId appSecret clientKey redirectUri)
  = Some (StateCodec.stateData appId appSecret clientKey redirectUri (nowms / 1000))
  /\ (forall v,
      StateCodec.decodeState
        (StateCodec.encodeState nowms appId appSecret clientKey redirectUri) = Some v ->
      StateCodec.json_get v "appId" = Some (StateCodec.JString appId)
      /\ StateCodec.json_get v "appSecret" = Some (StateCodec.JString appSecret)
      /\ StateCodec.json_get v "clientKey" = Some (StateCodec.JString clientKey)
      /\ StateCodec.json_get v "redirectUri" = option_map StateCodec.JString redirectUri
      /\ StateCodec.json_get v "timestamp"
         = Some (StateCodec.JNumber (StateCodec.number_lexeme (nowms / 1000)))).
Proof.
  pose proof (StateCodecFacts.state_round_trip nowms appId appSecret clientKey
                redirectUri Ha Hs Hc Hu) as E.
  split; [exact E |].
  intros v Hv. rewrite E in Hv. injection Hv as <-.
  unfold StateCodec.stateData.
  generalize (StateCodec.number_lexeme (nowms / 1000)) as ts.
  destruct redirectUri; vm_compute; repeat split.
Qed.

(** Witness for C10: an OAuth state with a redirect URI. *)
Lemma C10_state_round_trip_witness :
  StateCodec.decodeState
    (StateCodec.encodeState 1700000000123 (StateCodec.cu "cli_app")
       (StateCodec.cu "secret") (StateCodec.cu "k1")
       (Some (StateCodec.cu "http://localhost:3333/callback")))
  = Some (StateCodec.stateData (StateCodec.cu "cli_app") (StateCodec.cu "secret")
            (StateCodec.cu "k1") (Some (StateCodec.cu "http://localhost:3333/callback"))
            (1700000000123 / 1000)).
Proof.
  refine (proj1 (C10_state_round_trip 1700000000123 (StateCodec.cu "cli_app")
            (StateCodec.cu "secret") (StateCodec.cu "k1")
            (Some (StateCodec.cu "http://localhost:3333/callback")) _ _ _ _));
    [| | | intros r Hr; injection Hr as <-];
    unfold StateCodec.cu; cbn;
    repeat (constructor; [split; [apply Z.leb_le | apply Z.ltb_lt]; vm_compute; reflexivity |]);
    constructor.
Defined.

(* ================================================================== *)
(** * Further properties of the token cache, the refresh paths, the OAuth
    callback and the session map *)

(** Fixtures of the examples below. *)

(** A user record due for refresh at [now = 1000000] s: its access token
    expires in 100 s, its refresh token is good until [2000000] s. *)
Definition rw_item : CacheItem :=
  mkCacheItem (mkTokenData (Some "at") (Some "rt") (Some 1000100) (Some 2000000)
                 (Some "cid") (Some "sec") None None None)
    999000000 2000000000.

Definition rw_cache : Cache := <[user_prefix ++ "ck" := rw_item]> ∅.

(** An upstream refresh endpoint that always answers with a new token pair. *)
Definition rw_upstream (b : RefreshBody) : Exc TokenData :=
  inr (mkTokenData (Some "new-at") (Some "new-rt") None None None None None
         (Some 7200) (Some 86400)).

(** An upstream refresh endpoint that always fails. *)
Definition rw_down (b : RefreshBody) : Exc TokenData := inl (plain_error "network").

(** A user record valid at [now = 1000000] s and outside the refresh
    window: its access token expires in 7200 s. *)
Definition rw_fresh_item : CacheItem :=
  mkCacheItem (mkTokenData (Some "at") (Some "rt") (Some 1007200) (Some 2000000)
                 (Some "cid") (Some "sec") None None None)
    999000000 2000000000.

Definition rw_fresh_cache : Cache := <[user_prefix ++ "ck" := rw_fresh_item]> ∅.

(** A user record without a refresh token whose access token expired at
    [999000] s; the cache entry itself lives until [2000000000] ms. *)
Definition rw_stale_item : CacheItem :=
  mkCacheItem (mkTokenData (Some "at") None (Some 999000) None
                 (Some "cid") (Some "sec") None None None)
    998000000 2000000000.

Definition rw_stale_cache : Cache := <[user_prefix ++ "ck" := rw_stale_item]> ∅.

Definition sess_map : SessionUserKeys.JsMap := [("s1", "u1"); ("s2", "u2")].

Module CacheFacts.
Import TokenCacheManager TokenCacheManagerMore.

Lemma append_cons (c : ascii) (p k : string) : String c p ++ k = String c (p ++ k).
Proof. reflexivity. Qed.

Lemma prefix_app (p k : string) : String.prefix p (p ++ k) = true.
Proof.
  induction p as [| c p IH]; [destruct k; reflexivity |].
  rewrite append_cons. simpl. destruct (ascii_dec c c) as [_ | n]; [exact IH | now destruct n].
Qed.

Lemma prefix_inv (p s : string) : String.prefix p s = true -> exists k, s = p ++ k.
Proof.
  revert s; induction p as [| c p IH]; intros s H; [now exists s |].
  destruct s as [| d s]; [discriminate |]. simpl in H.
  destruct (ascii_dec c d) as [<- | _]; [| discriminate].
  destruct (IH s H) as [k ->]. now exists k.
Qed.

Lemma user_key_user (k : string) : startsWith (user_prefix ++ k) user_prefix = true.
Proof. apply prefix_app. Qed.
Lemma tenant_key_tenant (k : string) : startsWith (tenant_prefix ++ k) tenant_prefix = true.
Proof. apply prefix_app. Qed.
Lemma user_key_not_tenant (k : string) : startsWith (user_prefix ++ k) tenant_prefix = false.
Proof. reflexivity. Qed.
Lemma tenant_key_not_user' (k : string) : startsWith (tenant_prefix ++ k) user_prefix = false.
Proof. reflexivity. Qed.

Lemma user_tenant_neq (a b : string) : user_prefix ++ a <> tenant_prefix ++ b.
Proof. intros H. pose proof (user_key_user a) as Hu. rewrite H in Hu. discriminate. Qed.



(** [cacheUserToken] then [getUserTokenInfo]. Without a custom TTL, a
    refresh expiry whose date is out of range (its log message throws
    before the set) stores nothing and yields [false]. A record with a
    refresh token and a refresh expiry, stored under a custom TTL or with a
    refresh expiry in range, reads back until that expiry (seconds). One
    without refresh data, stored with a custom TTL, reads back until
    [now + ttl * 1000] ms and is gone afterwards. *)
Theorem cacheUserToken_readable (key : string) (ti : TokenData) (customTtl : option Z)
    (nowms t : Z) (cache : Cache) :
  let r := cacheUserToken key ti customTtl nowms cache in
  (num_truthy customTtl = false ->
   num_truthy (refresh_token_expires_at ti) = true ->
   date_in_range (num_val (refresh_token_expires_at ti) * 1000) = false ->
   r = (false, cache))
  /\ (str_truthy (refresh_token ti) && num_truthy (refresh_token_expires_at ti) = true ->
      num_truthy customTtl
      || date_in_range (num_val (refresh_token_expires_at ti) * 1000) = true ->
      fst (getUserTokenInfo key t (snd r))
      = if num_val (refresh_token_expires_at ti) <? t / 1000 then None else Some ti)
  /\ (str_truthy (refresh_token ti) && num_truthy (refresh_token_expires_at ti) = false ->
      num_truthy customTtl = true ->
      fst r = date_in_range (nowms + num_val customTtl * 1000)
      /\ fst (getUserTokenInfo key t (snd r))
         = if t <=? nowms + num_val customTtl * 1000 then Some ti else None).
Proof.
  unfold cacheUserToken; cbn zeta.
  split; [| split].
  - intros Hc Hr Hd. rewrite Hc, Hr, Hd. reflexivity.
  - intros Hrt Hor. pose proof Hrt as Hr. apply andb_prop in Hr as [_ Hr].
    rewrite Hr.
    destruct (num_truthy customTtl) eqn:Hc; cbn [negb andb orb] in *;
      [| rewrite Hor]; cbn [negb andb snd];
      unfold getUserTokenInfo; cbn zeta;
      rewrite lookup_insert_eq; cbn [data item_expiresAt];
      rewrite Hrt; destruct (_ <? _); reflexivity.
  - intros Hrt Hc. rewrite Hc. cbn [negb andb fst snd]. split; [reflexivity |].
    unfold getUserTokenInfo; cbn zeta.
    rewrite lookup_insert_eq; cbn [data item_expiresAt].
    rewrite Hrt. zbool; reflexivity || lia.
Qed.

(** [cacheTenantToken] then [getTenantTokenInfo] / [getTenantToken]: the
    record reads back (with its [app_access_token]) up to and including the
    computed expiry; a later read misses and deletes the entry. *)
Theorem cacheTenantToken_readable (key : string) (ti : TokenData) (customTtl : option Z)
    (nowms t : Z) (cache : Cache) :
  let c' := snd (cacheTenantToken key ti customTtl nowms cache) in
  let expiry :=
    if num_truthy customTtl then nowms + num_val customTtl * 1000
    else if num_truthy (expires_at ti) then num_val (expires_at ti) * 1000
    else nowms + 7200000 in
  getTenantTokenInfo key t c'
  = (if t <=? expiry then (Some ti, c') else (None, delete (tenant_prefix ++ key) c'))
  /\ fst (getTenantToken key t c')
     = (if t <=? expiry then app_access_token ti else None).
Proof.
  unfold getTenantToken, getTenantTokenInfo, cacheTenantToken; cbn zeta; cbn [snd].
  rewrite lookup_insert_eq; cbn [data item_expiresAt].
  destruct (num_truthy customTtl), (num_truthy (expires_at ti));
    zbool; (split; reflexivity) || lia.
Qed.

(** [cacheTenantToken] with a positive custom TTL at a non-negative time
    returns [true] exactly when the expiry is a valid JS date
    ([<= 8.64e15] ms); the record is stored and readable either way. *)
Theorem cacheTenantToken_result (key : string) (ti : TokenData) (n nowms : Z)
    (cache : Cache) (Hn : 0 < n) (Hnow : 0 <= nowms) :
  fst (cacheTenantToken key ti (Some n) nowms cache)
    = (nowms + n * 1000 <=? 8640000000000000)
  /\ fst (getTenantTokenInfo key nowms (snd (cacheTenantToken key ti (Some n) nowms cache)))
     = Some ti.
Proof.
  unfold getTenantTokenInfo, cacheTenantToken, date_in_range, num_truthy, num_val;
    cbn zeta; cbn [fst snd].
  rewrite lookup_insert_eq; cbn [data item_expiresAt].
  destruct (Z.eqb_spec n 0); [lia |]. cbn [negb].
  rewrite Z.abs_eq by lia. split; [reflexivity |]. zbool; [lia | reflexivity].
Qed.

Lemma getUserTokenInfo_ext (k : string) (t : Z) (c1 c2 : Cache) :
  c1 !! (user_prefix ++ k) = c2 !! (user_prefix ++ k) ->
  fst (getUserTokenInfo k t c1) = fst (getUserTokenInfo k t c2).
Proof.
  intros E. unfold getUserTokenInfo; cbn zeta. rewrite E.
  destruct (c2 !! _) as [it |]; [| reflexivity].
  destruct (_ && _); destruct (_ <? _) || destruct (_ >? _); reflexivity.
Qed.

Lemma getTenantTokenInfo_ext (k : string) (t : Z) (c1 c2 : Cache) :
  c1 !! (tenant_prefix ++ k) = c2 !! (tenant_prefix ++ k) ->
  fst (getTenantTokenInfo k t c1) = fst (getTenantTokenInfo k t c2).
Proof.
  intros E. unfold getTenantTokenInfo; cbn zeta. rewrite E.
  destruct (c2 !! _) as [it |]; [| reflexivity].
  destruct (_ >? _); reflexivity.
Qed.

(** The user and tenant namespaces do not interfere: caching or removing a
    user token leaves every tenant read unchanged, and vice versa. *)
Theorem user_tenant_independent (k k' : string) (ti : TokenData) (ttl : option Z)
    (nowms t : Z) (cache : Cache) :
  fst (getTenantTokenInfo k' t (snd (cacheUserToken k ti ttl nowms cache)))
    = fst (getTenantTokenInfo k' t cache)
  /\ fst (getTenantTokenInfo k' t (snd (removeUserToken k cache)))
     = fst (getTenantTokenInfo k' t cache)
  /\ fst (getUserTokenInfo k' t (snd (cacheTenantToken k ti ttl nowms cache)))
     = fst (getUserTokenInfo k' t cache)
  /\ fst (getUserTokenInfo k' t (snd (removeTenantToken k cache)))
     = fst (getUserTokenInfo k' t cache).
Proof.
  repeat split.
  - apply getTenantTokenInfo_ext. unfold cacheUserToken; cbn zeta.
    destruct (_ && _); cbn [snd]; [reflexivity |].
    apply lookup_insert_ne, user_tenant_neq.
  - apply getTenantTokenInfo_ext. unfold removeUserToken; cbn zeta.
    destruct (cache !! _); [| reflexivity].
    apply lookup_delete_ne, user_tenant_neq.
  - apply getUserTokenInfo_ext. unfold cacheTenantToken; cbn zeta; cbn [snd].
    apply lookup_insert_ne. intros H. symmetry in H. exact (user_tenant_neq _ _ H).
  - apply getUserTokenInfo_ext. unfold removeTenantToken; cbn zeta.
    destruct (cache !! _); [| reflexivity].
    apply lookup_delete_ne. intros H. symmetry in H. exact (user_tenant_neq _ _ H).
Qed.

(** [removeUserToken] / [removeTenantToken] return [true] exactly when the
    entry existed; afterwards the key reads as missing and every other key
    is untouched. *)
Theorem removeToken_spec (k : string) (t : Z) (cache : Cache) :
  (fst (removeUserToken k cache) = true <-> is_Some (cache !! (user_prefix ++ k)))
  /\ fst (getUserTokenInfo k t (snd (removeUserToken k cache))) = None
  /\ (forall key, key <> user_prefix ++ k ->
      snd (removeUserToken k cache) !! key = cache !! key)
  /\ (fst (removeTenantToken k cache) = true <-> is_Some (cache !! (tenant_prefix ++ k)))
  /\ fst (getTenantTokenInfo k t (snd (removeTenantToken k cache))) = None
  /\ (forall key, key <> tenant_prefix ++ k ->
      snd (removeTenantToken k cache) !! key = cache !! key).
Proof.
  unfold removeUserToken, removeTenantToken; cbn zeta.
  repeat split.
  - destruct (cache !! (user_prefix ++ k)); [eauto | discriminate].
  - intros [x Hx]; now rewrite Hx.
  - unfold getUserTokenInfo; cbn zeta.
    destruct (cache !! (user_prefix ++ k)) eqn:E; cbn [snd].
    + now rewrite lookup_delete_eq.
    + now rewrite E.
  - intros key Hk. destruct (cache !! (user_prefix ++ k)); cbn [snd];
      [now apply lookup_delete_ne | reflexivity].
  - destruct (cache !! (tenant_prefix ++ k)); [eauto | discriminate].
  - intros [x Hx]; now rewrite Hx.
  - unfold getTenantTokenInfo; cbn zeta.
    destruct (cache !! (tenant_prefix ++ k)) eqn:E; cbn [snd].
    + now rewrite lookup_delete_eq.
    + now rewrite E.
  - intros key Hk. destruct (cache !! (tenant_prefix ++ k)); cbn [snd];
      [now apply lookup_delete_ne | reflexivity].
Qed.

(** [checkUserTokenStatus]: [isValid] is the negation of [isExpired];
    [shouldRefresh] implies valid and refreshable; [canRefresh] implies a
    readable record with a refresh token; a missing record gives the
    expired status; the store is the one [getUserTokenInfo] leaves. *)
Theorem checkUserTokenStatus_consistent (k : string) (nowms : Z) (cache : Cache) :
  let st := fst (checkUserTokenStatus k nowms cache) in
  isValid st = negb (isExpired st)
  /\ (shouldRefresh st = true -> isValid st = true /\ canRefresh st = true)
  /\ (canRefresh st = true ->
      exists ti, fst (getUserTokenInfo k nowms cache) = Some ti
                 /\ str_truthy (refresh_token ti) = true)
  /\ (fst (getUserTokenInfo k nowms cache) = None -> st = expired_status)
  /\ snd (checkUserTokenStatus k nowms cache) = snd (getUserTokenInfo k nowms cache).
Proof.
  unfold checkUserTokenStatus; cbn zeta.
  destruct (getUserTokenInfo k nowms cache) as [[ti |] c1];
    cbn [fst snd isValid isExpired canRefresh shouldRefresh];
    refine (conj eq_refl (conj _ (conj _ (conj _ eq_refl)))).
  - intros H. apply andb_prop in H as [H Hc]. apply andb_prop in H as [H1 _].
    split; [| exact Hc]. apply Z.ltb_lt in H1.
    destruct (num_truthy (expires_at ti)); [| lia].
    apply negb_true_iff, Z.ltb_ge. lia.
  - intros H. apply andb_prop in H as [H _]. apply andb_prop in H as [H _].
    exists ti. split; [reflexivity | exact H].
  - discriminate.
  - discriminate.
  - discriminate.
  - reflexivity.
Qed.

(** [checkTenantTokenStatus]: never refreshable, [isValid] is the
    negation of [isExpired], [shouldRefresh] implies valid, a missing record
    gives the expired status, the store is the one [getTenantTokenInfo]
    leaves. *)
Theorem checkTenantTokenStatus_consistent (k : string) (nowms : Z) (cache : Cache) :
  let st := fst (checkTenantTokenStatus k nowms cache) in
  canRefresh st = false
  /\ isValid st = negb (isExpired st)
  /\ (shouldRefresh st = true -> isValid st = true)
  /\ (fst (getTenantTokenInfo k nowms cache) = None -> st = expired_status)
  /\ snd (checkTenantTokenStatus k nowms cache) = snd (getTenantTokenInfo k nowms cache).
Proof.
  unfold checkTenantTokenStatus; cbn zeta.
  destruct (getTenantTokenInfo k nowms cache) as [[ti |] c1];
    cbn [fst snd isValid isExpired canRefresh shouldRefresh];
    refine (conj eq_refl (conj eq_refl (conj _ (conj _ eq_refl)))).
  - intros H. apply andb_prop in H as [H1 _]. apply Z.ltb_lt in H1.
    destruct (num_truthy (expires_at ti)); [| lia].
    apply negb_true_iff, Z.ltb_ge. lia.
  - discriminate.
  - discriminate.
  - reflexivity.
Qed.

Lemma clear_prefixed_spec (prefix : string) (cache : Cache) :
  let (n, c') := clear_prefixed prefix cache in
  (n + size c' = size cache)%nat
  /\ (forall key, startsWith key prefix = true -> c' !! key = None)
  /\ (forall key, startsWith key prefix = false -> c' !! key = cache !! key).
Proof.
  unfold clear_prefixed. split; [| split].
  - rewrite <- map_size_disj_union.
    + f_equal. rewrite <- (map_filter_union_complement
        (fun kv : string * CacheItem => startsWith kv.1 prefix = true) cache) at 3.
      f_equal. apply map_filter_ext. intros i x _. symmetry. apply not_true_iff_false.
    + apply map_disjoint_spec. intros i x y Hx Hy.
      apply map_lookup_filter_Some in Hx as [_ Hx]. apply map_lookup_filter_Some in Hy as [_ Hy].
      cbn in Hx, Hy. congruence.
  - intros key Hk. apply map_lookup_filter_None. right. intros x _. cbn. unfold startsWith in Hk. congruence.
  - intros key Hk. rewrite map_lookup_filter. destruct (cache !! key); [| reflexivity].
    cbn. rewrite option_guard_True; [reflexivity | exact Hk].
Qed.

(** [clearUserTokens] / [clearTenantTokens]: the count plus the remaining
    size is the old size, no key of the namespace remains, keys outside the
    namespace are untouched. *)
Theorem clearTokens_spec (cache : Cache) :
  (let (n, c') := clearUserTokens cache in
   (n + size c' = size cache)%nat
   /\ (forall k, c' !! (user_prefix ++ k) = None)
   /\ (forall key, startsWith key user_prefix = false -> c' !! key = cache !! key))
  /\ (let (n, c') := clearTenantTokens cache in
   (n + size c' = size cache)%nat
   /\ (forall k, c' !! (tenant_prefix ++ k) = None)
   /\ (forall key, startsWith key tenant_prefix = false -> c' !! key = cache !! key)).
Proof.
  unfold clearUserTokens, clearTenantTokens. split.
  - pose proof (clear_prefixed_spec user_prefix cache) as H.
    destruct (clear_prefixed user_prefix cache) as [n c'].
    destruct H as (H1 & H2 & H3). split; [exact H1 | split; [| exact H3]].
    intros k. apply H2, prefix_app.
  - pose proof (clear_prefixed_spec tenant_prefix cache) as H.
    destruct (clear_prefixed tenant_prefix cache) as [n c'].
    destruct H as (H1 & H2 & H3). split; [exact H1 | split; [| exact H3]].
    intros k. apply H2, prefix_app.
Qed.

Lemma substring_app (p k : string) :
  substring (String.length p) (String.length k) (p ++ k) = k.
Proof.
  induction p as [| c p IH].
  - cbn [String.length]. change ("" ++ k) with k.
    induction k as [| c k IH]; [reflexivity |].
    cbn. f_equal. exact IH.
  - rewrite append_cons. cbn [String.length substring]. exact IH.
Qed.

Lemma replace_first_unfold (s pat rep : string) :
  replace_first s pat rep
  = if String.prefix pat s
    then rep ++ substring (String.length pat) (String.length s - String.length pat) s
    else match s with
         | EmptyString => s
         | String c s' => String c (replace_first s' pat rep)
         end.
Proof. destruct s; reflexivity. Qed.

Lemma replace_first_prefix (p k : string) : replace_first (p ++ k) p "" = k.
Proof.
  rewrite replace_first_unfold, prefix_app, string_length_append.
  change ("" ++ ?x) with x.
  replace (String.length p + String.length k - String.length p)%nat
    with (String.length k) by lia.
  apply substring_app.
Qed.

Lemma valid_keys_in (prefix : string) (nowms : Z) (cache : Cache) (k : string) :
  In k (valid_keys prefix nowms cache)
  <-> exists it, cache !! (prefix ++ k) = Some it /\ nowms < item_expiresAt it.
Proof.
  unfold valid_keys. rewrite in_map_iff. split.
  - intros [[key it] [Hk Hin]]. apply filter_In in Hin as [Hin Hg].
    apply andb_prop in Hg as [Hp He]. apply Z.ltb_lt in He. cbn in Hk, Hp, He.
    destruct (prefix_inv _ _ Hp) as [k0 ->]. rewrite replace_first_prefix in Hk. subst k0.
    exists it. split; [| exact He].
    apply elem_of_map_to_list, list_elem_of_In. exact Hin.
  - intros [it [Hl He]]. exists (prefix ++ k, it). split.
    + apply replace_first_prefix.
    + apply filter_In. split.
      * apply list_elem_of_In, elem_of_map_to_list. exact Hl.
      * cbn. unfold startsWith. rewrite prefix_app. apply Z.ltb_lt in He. now rewrite He.
Qed.

Lemma NoDup_map_filter_fst {A B} (f : A * B -> bool) (l : list (A * B)) :
  List.NoDup (List.map fst l) -> List.NoDup (List.map fst (List.filter f l)).
Proof.
  induction l as [| [a b] l IH]; cbn; [auto |].
  intros H. apply NoDup_cons_iff in H as [Hn Hd].
  destruct (f (a, b)); cbn; [| auto].
  constructor; [| auto].
  intros Hin. apply Hn. apply in_map_iff in Hin as [[a' b'] [Ea Hin]].
  apply in_map_iff. exists (a', b'). split; [exact Ea |].
  apply filter_In in Hin as [Hin _]. exact Hin.
Qed.

Lemma valid_keys_NoDup (prefix : string) (nowms : Z) (cache : Cache) :
  NoDup (valid_keys prefix nowms cache).
Proof.
  apply NoDup_ListNoDup. unfold valid_keys.
  assert (Hd : List.NoDup (List.map fst (List.filter (fun kv : string * CacheItem =>
             startsWith kv.1 prefix && (nowms <? item_expiresAt kv.2)) (map_to_list cache)))).
  { apply NoDup_map_filter_fst. apply NoDup_ListNoDup. apply NoDup_fst_map_to_list. }
  assert (Hp : Forall (fun kv : string * CacheItem => startsWith kv.1 prefix = true)
            (List.filter (fun kv : string * CacheItem =>
             startsWith kv.1 prefix && (nowms <? item_expiresAt kv.2)) (map_to_list cache))).
  { apply Forall_forall. intros kv Hin. apply list_elem_of_In, filter_In in Hin as [_ H].
    apply andb_prop in H as [H _]. exact H. }
  revert Hd Hp. generalize (List.filter (fun kv : string * CacheItem =>
             startsWith kv.1 prefix && (nowms <? item_expiresAt kv.2)) (map_to_list cache)).
  induction l as [| [key it] l IH]; intros Hd Hp; cbn; [constructor |].
  cbn in Hd. apply NoDup_cons_iff in Hd as [Hn Hd].
  apply Forall_cons_iff in Hp as [Hk Hp]. cbn in Hk.
  constructor; [| apply IH; assumption].
  intros Hin. apply Hn. apply in_map_iff in Hin as [[key' it'] [E Hin]]. cbn in E.
  rewrite Forall_forall in Hp. pose proof (Hp _ (proj2 (list_elem_of_In _ _) Hin)) as Hk'. cbn in Hk'.
  destruct (prefix_inv _ _ Hk) as [a ->]. destruct (prefix_inv _ _ Hk') as [b ->].
  rewrite !replace_first_prefix in E. subst b.
  apply in_map_iff. exists (prefix ++ a, it'). split; [reflexivity | exact Hin].
Qed.

(** [getValidUserTokenKeys] / [getValidTenantTokenKeys] list, without
    duplicates and with the prefix stripped, exactly the keys whose entry
    has [expiresAt > now]. *)
Theorem validTokenKeys_spec (nowms : Z) (cache : Cache) (k : string) :
  (In k (getValidUserTokenKeys nowms cache)
   <-> exists it, cache !! (user_prefix ++ k) = Some it /\ nowms < item_expiresAt it)
  /\ NoDup (getValidUserTokenKeys nowms cache)
  /\ (In k (getValidTenantTokenKeys nowms cache)
      <-> exists it, cache !! (tenant_prefix ++ k) = Some it /\ nowms < item_expiresAt it)
  /\ NoDup (getValidTenantTokenKeys nowms cache).
Proof.
  unfold getValidUserTokenKeys, getValidTenantTokenKeys.
  split; [apply valid_keys_in | split; [apply valid_keys_NoDup | split]];
    [apply valid_keys_in | apply valid_keys_NoDup].
Qed.

Lemma list_filter_bool {A} (f : A -> bool) (l : list A) :
  filter (fun x => f x = true) l = List.filter f l.
Proof.
  induction l as [| x l IH]; [reflexivity |].
  rewrite filter_cons. cbn. destruct (f x) eqn:E.
  - rewrite decide_True by reflexivity. now rewrite IH.
  - rewrite decide_False by congruence. exact IH.
Qed.

Lemma size_filter_list (f : string * CacheItem -> bool) (m : Cache) :
  size (filter (fun kv => f kv = true) m) = length (List.filter f (map_to_list m)).
Proof.
  rewrite <- length_map_to_list, map_filter_alt.
  assert (Hd : NoDup (filter (fun kv => f kv = true) (map_to_list m)).*1).
  { apply (sublist_NoDup _ ((map_to_list m).*1)); [apply NoDup_fst_map_to_list |].
    apply fmap_sublist, sublist_filter. }
  rewrite (Permutation_length (map_to_list_to_map _ Hd)).
  now rewrite list_filter_bool.
Qed.

Lemma fold_stats (nowms : Z) (l : list (string * CacheItem)) (u t vu vt : nat) :
  List.fold_left (stats_step nowms) l (u, t, vu, vt)
  = ((u + length (List.filter (fun kv : string * CacheItem => startsWith kv.1 user_prefix) l))%nat,
     (t + length (List.filter (fun kv : string * CacheItem => startsWith kv.1 tenant_prefix) l))%nat,
     (vu + length (List.filter (fun kv : string * CacheItem =>
                    startsWith kv.1 user_prefix && (nowms <? item_expiresAt kv.2)%Z) l))%nat,
     (vt + length (List.filter (fun kv : string * CacheItem =>
                    startsWith kv.1 tenant_prefix && (nowms <? item_expiresAt kv.2)%Z) l))%nat).
Proof.
  revert u t vu vt. induction l as [| [key it] l IH]; intros u t vu vt; cbn -[startsWith].
  - rewrite ?pair_equal_spec; repeat split; lia.
  - destruct (startsWith key user_prefix) eqn:Eu.
    + assert (Et : startsWith key tenant_prefix = false).
      { destruct (startsWith key tenant_prefix) eqn:Et; [| reflexivity].
        rewrite (tenant_key_not_user key Et) in Eu. discriminate. }
      rewrite Et. destruct (nowms <? item_expiresAt it); cbn -[startsWith]; rewrite IH; rewrite ?pair_equal_spec; repeat split; lia.
    + destruct (startsWith key tenant_prefix);
        [destruct (nowms <? item_expiresAt it) |]; cbn; rewrite IH; rewrite ?pair_equal_spec; repeat split; lia.
Qed.

Lemma filter_disjoint_length (f g : string * CacheItem -> bool) (l : list (string * CacheItem)) :
  (forall x, f x = true -> g x = false) ->
  (length (List.filter f l) + length (List.filter g l) <= length l)%nat.
Proof.
  intros H. induction l as [| x l IH]; cbn; [lia |].
  specialize (H x). destruct (f x), (g x); cbn; [specialize (H eq_refl); discriminate | lia ..].
Qed.

Lemma filter_andb_length (f g : string * CacheItem -> bool) (l : list (string * CacheItem)) :
  (length (List.filter (fun x => f x && g x) l) <= length (List.filter f l))%nat.
Proof. induction l as [| x l IH]; cbn; [lia |]. destruct (f x), (g x); cbn; lia. Qed.

(** [getStats] agrees with the other bulk operations: the valid counts are
    the lengths of the valid-key lists, the counts are what the clear
    operations would delete, valid <= count, and the two counts together
    are at most the cache size. *)
Theorem getStats_consistent (nowms : Z) (cache : Cache) :
  let s := getStats nowms cache in
  validUserTokens s = length (getValidUserTokenKeys nowms cache)
  /\ validTenantTokens s = length (getValidTenantTokenKeys nowms cache)
  /\ userTokenCount s = fst (clearUserTokens cache)
  /\ tenantTokenCount s = fst (clearTenantTokens cache)
  /\ (validUserTokens s <= userTokenCount s)%nat
  /\ (validTenantTokens s <= tenantTokenCount s)%nat
  /\ (userTokenCount s + tenantTokenCount s <= totalCacheSize s)%nat.
Proof.
  unfold getStats. rewrite fold_stats. cbn zeta; cbn [validUserTokens validTenantTokens
    userTokenCount tenantTokenCount totalCacheSize Nat.add].
  unfold getValidUserTokenKeys, getValidTenantTokenKeys, valid_keys,
    clearUserTokens, clearTenantTokens, clear_prefixed. cbn [fst].
  rewrite !length_map, !size_filter_list.
  refine (conj eq_refl (conj eq_refl (conj eq_refl (conj eq_refl (conj _ (conj _ _)))))).
  - apply filter_andb_length.
  - apply filter_andb_length.
  - rewrite <- length_map_to_list. apply filter_disjoint_length.
    intros [key it] H. cbn -[startsWith] in H |- *. destruct (startsWith key tenant_prefix) eqn:E; [| reflexivity].
    rewrite (tenant_key_not_user key E) in H. discriminate.
Qed.

Lemma clean_lookup_None (nowms : Z) (cache : Cache) (k : string) :
  cache !! k = None -> snd (cleanExpiredTokens nowms cache) !! k = None.
Proof. intros H. apply map_lookup_filter_None_2. left. exact H. Qed.

(** The sweep and the read agree on user entries but for one boundary: the
    sweep removes an entry exactly when [getUserTokenInfo] would miss it, or
    when the entry has no refresh data and [expiresAt = now] (the sweep
    uses [<=], the read [>]). *)
Theorem cleanExpired_vs_getUserTokenInfo (nowms : Z) (cache : Cache) (k : string) :
  snd (cleanExpiredTokens nowms cache) !! (user_prefix ++ k) = None
  <-> fst (getUserTokenInfo k nowms cache) = None
      \/ exists it, cache !! (user_prefix ++ k) = Some it
         /\ str_truthy (refresh_token (data it))
            && num_truthy (refresh_token_expires_at (data it)) = false
         /\ item_expiresAt it = nowms.
Proof.
  destruct (cache !! (user_prefix ++ k)) as [it |] eqn:H.
  - rewrite (cleanExpiredTokens_lookup nowms cache _ it H).
    unfold shouldDelete, getUserTokenInfo; cbn zeta. rewrite user_key_user, H.
    destruct (str_truthy _ && num_truthy _) eqn:Er.
    + destruct (_ <? _); cbn; split; try tauto; try discriminate.
      intros [? | (it' & E & E2 & _)]; [discriminate |].
      injection E as <-. congruence.
    + zbool; try (exfalso; lia); cbn; split; try tauto; try discriminate;
        first [ intros _; right; exists it; split; [reflexivity | split; [exact Er | lia]]
              | intros [? | (it' & E & _ & E3)]; [discriminate |]; injection E as <-; lia ].
  - rewrite clean_lookup_None by exact H.
    unfold getUserTokenInfo; cbn zeta. rewrite H. cbn. tauto.
Qed.

(** The same for tenant entries: the sweep removes an entry exactly when
    [getTenantTokenInfo] would miss it or [expiresAt = now]. *)
Theorem cleanExpired_vs_getTenantTokenInfo (nowms : Z) (cache : Cache) (k : string) :
  snd (cleanExpiredTokens nowms cache) !! (tenant_prefix ++ k) = None
  <-> fst (getTenantTokenInfo k nowms cache) = None
      \/ exists it, cache !! (tenant_prefix ++ k) = Some it /\ item_expiresAt it = nowms.
Proof.
  destruct (cache !! (tenant_prefix ++ k)) as [it |] eqn:H.
  - rewrite (cleanExpiredTokens_lookup nowms cache _ it H).
    unfold shouldDelete, getTenantTokenInfo; cbn zeta.
    rewrite tenant_key_not_user', H.
    zbool; try (exfalso; lia); cbn; split; try tauto; try discriminate;
      first [ intros _; right; exists it; split; [reflexivity | lia]
            | intros [? | (it' & E & E3)]; [discriminate |]; injection E as <-; lia ].
  - rewrite clean_lookup_None by exact H.
    unfold getTenantTokenInfo; cbn zeta. rewrite H. cbn. tauto.
Qed.

Lemma concat_empty_sep (l : list string) :
  String.concat "" l = List.fold_right String.append "" l.
Proof.
  induction l as [| x l IH]; [reflexivity |].
  destruct l as [| y l].
  - cbn. induction x as [| c x IHx]; [reflexivity |].
    change (String c x = String c (x ++ "")). rewrite <- IHx. reflexivity.
  - change (String.concat "" (x :: y :: l)) with (x ++ "" ++ String.concat "" (y :: l)).
    rewrite IH. reflexivity.
Qed.

Lemma substring_0_length (n : nat) (s : string) :
  String.length (substring 0 n s) = Nat.min n (String.length s).
Proof.
  revert s; induction n as [| n IH]; intros [| c s]; cbn; try reflexivity.
  rewrite IH. reflexivity.
Qed.

Lemma all_hex_app (a b : string) : all_hex (a ++ b) = all_hex a && all_hex b.
Proof.
  induction a as [| c a IH]; [reflexivity |].
  change (String c a ++ b) with (String c (a ++ b)). cbn [all_hex].
  rewrite IH. apply andb_assoc.
Qed.

Lemma all_hex_substring (n : nat) (s : string) :
  all_hex s = true -> all_hex (substring 0 n s) = true.
Proof.
  revert s; induction n as [| n IH]; intros [| c s]; cbn; try reflexivity.
  intros H. apply andb_true_iff in H as [H1 H2]. rewrite H1, (IH s H2). reflexivity.
Qed.

Lemma hex_char_hex (v : Z) : 0 <= v < 16 ->
  List.existsb (Ascii.eqb (hex_char v)) (list_ascii_of_string "0123456789abcdef") = true.
Proof.
  intros Hv.
  assert (v = 0 \/ v = 1 \/ v = 2 \/ v = 3 \/ v = 4 \/ v = 5 \/ v = 6 \/ v = 7 \/
          v = 8 \/ v = 9 \/ v = 10 \/ v = 11 \/ v = 12 \/ v = 13 \/ v = 14 \/ v = 15)
    as Hc by lia.
  repeat destruct Hc as [-> | Hc]; [reflexivity .. |]. subst v. reflexivity.
Qed.

Lemma hex_byte_spec (b : Z) : 0 <= b < 256 ->
  String.length (hex_byte b) = 2%nat /\ all_hex (hex_byte b) = true.
Proof.
  intros Hb. split; [reflexivity |]. cbn [hex_byte all_hex].
  rewrite !hex_char_hex; [reflexivity | apply Z.mod_pos_bound; lia |].
  split; [apply Z.div_pos; lia | apply Z.div_lt_upper_bound; lia].
Qed.

Lemma hex_concat_spec (l : list Z) : Forall (fun b => 0 <= b < 256) l ->
  String.length (String.concat "" (List.map hex_byte l)) = (2 * length l)%nat
  /\ all_hex (String.concat "" (List.map hex_byte l)) = true.
Proof.
  rewrite concat_empty_sep. induction 1 as [| b l Hb Hl IH]; [split; reflexivity |].
  cbn [List.map List.fold_right]. destruct (hex_byte_spec b Hb) as [L1 A1].
  destruct IH as [L2 A2].
  rewrite string_length_append, all_hex_app, L1, L2, A1, A2. cbn [length]. split; [lia | reflexivity].
Qed.

(** [generateRandomKey(length)] returns exactly [length] lowercase hex
    characters, when [crypto.randomBytes(n)] yields [n] bytes. *)
Theorem generateRandomKey_spec (randomBytes : nat -> list Z) (len : nat)
    (Hn : length (randomBytes ((len + 1) / 2)%nat) = ((len + 1) / 2)%nat)
    (Hb : Forall (fun b => 0 <= b < 256) (randomBytes ((len + 1) / 2)%nat)) :
  String.length (generateRandomKey randomBytes len) = len
  /\ all_hex (generateRandomKey randomBytes len) = true.
Proof.
  unfold generateRandomKey. destruct (hex_concat_spec _ Hb) as [L A].
  split.
  - rewrite substring_0_length, L, Hn.
    pose proof (Nat.div_mod (len + 1) 2 ltac:(lia)).
    pose proof (Nat.mod_upper_bound (len + 1) 2 ltac:(lia)). lia.
  - apply all_hex_substring, A.
Qed.

End CacheFacts.

Module SessionFacts.
Import SessionUserKeys.

Lemma map_get_set (m : JsMap) (k v k' : string) :
  map_get (map_set m k v) k' = if String.eqb k' k then Some v else map_get m k'.
Proof.
  induction m as [| [a b] m IH]; cbn.
  - reflexivity.
  - destruct (String.eqb_spec k a) as [-> | Hka]; cbn.
    + destruct (String.eqb k' a); reflexivity.
    + rewrite IH. destruct (String.eqb_spec k' a), (String.eqb_spec k' k); congruence.
Qed.

Lemma map_get_None_notin (m : JsMap) (k : string) :
  map_get m k = None <-> ~ In k (map fst m).
Proof.
  induction m as [| [a b] m IH]; cbn; [tauto |].
  destruct (String.eqb_spec k a) as [-> | Hka]; [split; [discriminate | tauto] |].
  rewrite IH. intuition congruence.
Qed.

Lemma map_set_keys (m : JsMap) (k v : string) :
  map fst (map_set m k v)
  = if List.existsb (String.eqb k) (List.map fst m) then map fst m else (map fst m ++ [k])%list.
Proof.
  induction m as [| [a b] m IH]; cbn; [reflexivity |].
  destruct (String.eqb_spec k a) as [-> | Hka]; cbn; [reflexivity |].
  rewrite IH. destruct (List.existsb _ _); reflexivity.
Qed.

Lemma map_delete_spec (m : JsMap) (k : string) :
  List.NoDup (map fst m) ->
  fst (map_delete m k) = match map_get m k with Some _ => true | None => false end
  /\ map fst (snd (map_delete m k)) = List.remove string_dec k (map fst m)
  /\ (forall k', map_get (snd (map_delete m k)) k'
                 = if String.eqb k' k then None else map_get m k').
Proof.
  induction m as [| [a b] m IH]; intros Hd; cbn.
  - split; [reflexivity | split; [reflexivity |]]. intros k'. destruct (String.eqb k' k); reflexivity.
  - inversion Hd as [| ? ? Hna Hd']; subst.
    destruct (String.eqb_spec k a) as [-> | Hka]; cbn.
    + split; [reflexivity | split].
      * destruct (string_dec a a) as [_ | n]; [| now destruct n].
        symmetry. apply notin_remove. exact Hna.
      * intros k'. destruct (String.eqb_spec k' a) as [-> | ?]; [| reflexivity].
        apply map_get_None_notin. exact Hna.
    + destruct (IH Hd') as (H1 & H2 & H3).
      destruct (map_delete m k) as [bb r] eqn:E. cbn in *.
      split; [exact H1 | split].
      * rewrite H2. destruct (string_dec k a) as [-> | _]; [congruence | reflexivity].
      * intros k'. rewrite H3. destruct (String.eqb_spec k' a), (String.eqb_spec k' k); congruence.
Qed.

Lemma sid_sound (m : JsMap) (u s : string) :
  getSessionIdByUserKey u m = Some s -> In (s, u) m.
Proof.
  induction m as [| [a b] m IH]; cbn; [discriminate |].
  destruct (String.eqb_spec b u) as [-> | _]; [intros [= ->]; now left |].
  intros H. right. exact (IH H).
Qed.

Lemma get_in_nodup (m : JsMap) (s u : string) :
  List.NoDup (map fst m) -> In (s, u) m -> map_get m s = Some u.
Proof.
  induction m as [| [a b] m IH]; cbn; [tauto |].
  intros Hd Hin. inversion Hd as [| ? ? Hna Hd']; subst.
  destruct Hin as [[= -> ->] | Hin].
  - now rewrite String.eqb_refl.
  - destruct (String.eqb_spec s a) as [-> | _].
    + exfalso. apply Hna. apply in_map_iff. now exists (a, u).
    + exact (IH Hd' Hin).
Qed.

Lemma get_in (m : JsMap) (s u : string) : map_get m s = Some u -> In (s, u) m.
Proof.
  induction m as [| [a b] m IH]; cbn; [discriminate |].
  destruct (String.eqb_spec s a) as [-> | _]; [intros [= ->]; now left |].
  intros H. right. exact (IH H).
Qed.

Lemma sid_complete (m : JsMap) (s u : string) :
  In (s, u) m -> exists s', getSessionIdByUserKey u m = Some s'.
Proof.
  induction m as [| [a b] m IH]; cbn; [tauto |].
  destruct (String.eqb_spec b u) as [-> | Hb]; [eauto |].
  intros [[= -> ->] | Hin]; [congruence | exact (IH Hin)].
Qed.

End SessionFacts.

Module SessionProps.
Import SessionUserKeys SessionFacts.

Lemma map_set_new (m : JsMap) (k v : string) :
  map_get m k = None -> map_set m k v = (m ++ [(k, v)])%list.
Proof.
  induction m as [| [a b] m IH]; cbn; [reflexivity |].
  destruct (String.eqb_spec k a) as [-> | _]; [discriminate |].
  intros H. rewrite (IH H). reflexivity.
Qed.

Lemma sid_app (m : JsMap) (s u u' : string) :
  getSessionIdByUserKey u' (m ++ [(s, u)])%list
  = match getSessionIdByUserKey u' m with
    | Some x => Some x
    | None => if String.eqb u u' then Some s else None
    end.
Proof.
  induction m as [| [a b] m IH]; cbn; [reflexivity |].
  destruct (String.eqb b u'); [reflexivity | exact IH].
Qed.

Lemma NoDup_remove_str (s : string) (l : list string) :
  List.NoDup l -> List.NoDup (List.remove string_dec s l).
Proof.
  induction l as [| a l IH]; cbn; [tauto |]. intros Hd.
  apply NoDup_cons_iff in Hd as [Hna Hd].
  destruct (string_dec s a); [exact (IH Hd) |].
  constructor; [| exact (IH Hd)]. intros Hin. apply in_remove in Hin. tauto.
Qed.

(** [bindSessionUserKey] then [getUserKeyBySessionId]: the bound session
    reads the new user key, every other session reads as before, and the
    map keeps one entry per session id. *)
Theorem bindSessionUserKey_spec (s u : string) (m : JsMap) :
  (forall s', getUserKeyBySessionId s' (bindSessionUserKey s u m)
              = if String.eqb s' s then Some u else getUserKeyBySessionId s' m)
  /\ (List.NoDup (map fst m) -> List.NoDup (map fst (bindSessionUserKey s u m))).
Proof.
  split.
  - intros s'. apply map_get_set.
  - intros Hd. unfold bindSessionUserKey. rewrite map_set_keys.
    destruct (List.existsb (String.eqb s) (map fst m)) eqn:E; [exact Hd |].
    apply NoDup_ListNoDup, NoDup_app.
    split; [apply NoDup_ListNoDup, Hd | split; [| apply NoDup_singleton]].
    intros x Hx Hx'. apply list_elem_of_singleton in Hx'. subst x.
    apply list_elem_of_In in Hx.
    assert (Hin : List.existsb (String.eqb s) (map fst m) = true).
    { apply existsb_exists. exists s. split; [exact Hx | apply String.eqb_refl]. }
    congruence.
Qed.

(** [unbindSessionUserKey] returns whether the session was bound, removes
    its binding, leaves the other sessions unchanged and keeps one entry per
    session id. *)
Theorem unbindSessionUserKey_spec (s : string) (m : JsMap)
    (Hd : List.NoDup (map fst m)) :
  fst (unbindSessionUserKey s m) = isSessionIdBound s m
  /\ getUserKeyBySessionId s (snd (unbindSessionUserKey s m)) = None
  /\ (forall s', s' <> s ->
        getUserKeyBySessionId s' (snd (unbindSessionUserKey s m))
        = getUserKeyBySessionId s' m)
  /\ List.NoDup (map fst (snd (unbindSessionUserKey s m))).
Proof.
  destruct (map_delete_spec m s Hd) as (H1 & H2 & H3).
  unfold unbindSessionUserKey, getUserKeyBySessionId, isSessionIdBound.
  split; [exact H1 | split; [| split]].
  - rewrite H3, String.eqb_refl. reflexivity.
  - intros s' Hs'. rewrite H3. destruct (String.eqb_spec s' s); [contradiction | reflexivity].
  - rewrite H2. apply NoDup_remove_str. exact Hd.
Qed.

(** The reverse lookup [getSessionIdByUserKey] is sound (the session it
    returns is bound to the user key) and [isUserKeyBound] holds exactly
    when some session is bound to the user key. *)
Theorem getSessionIdByUserKey_spec (u : string) (m : JsMap)
    (Hd : List.NoDup (map fst m)) :
  (forall s, getSessionIdByUserKey u m = Some s -> getUserKeyBySessionId s m = Some u)
  /\ (isUserKeyBound u m = true <-> exists s, getUserKeyBySessionId s m = Some u).
Proof.
  split.
  - intros s H. apply get_in_nodup; [exact Hd | exact (sid_sound m u s H)].
  - unfold isUserKeyBound, getUserKeyBySessionId. split.
    + destruct (getSessionIdByUserKey u m) as [s |] eqn:E; [| discriminate].
      intros _. exists s. apply get_in_nodup; [exact Hd | exact (sid_sound m u s E)].
    + intros [s Hs]. destruct (sid_complete m s u (get_in m s u Hs)) as [s' ->].
      reflexivity.
Qed.

(** Binding a new session keeps the reverse lookup of every user key: the
    earliest bound session wins, and the new session is returned only for
    a user key that had none. *)
Theorem getSessionIdByUserKey_bind_new (s u u' : string) (m : JsMap)
    (Hs : getUserKeyBySessionId s m = None) :
  getSessionIdByUserKey u' (bindSessionUserKey s u m)
  = match getSessionIdByUserKey u' m with
    | Some x => Some x
    | None => if String.eqb u u' then Some s else None
    end.
Proof. unfold bindSessionUserKey. rewrite (map_set_new m s u Hs). apply sid_app. Qed.

End SessionProps.

Module AuthFacts.
Import TokenCacheManager CacheFacts.

Lemma getUserTokenInfo_frame (ck : string) (nowms : Z) (c : Cache) (k : string) :
  k <> user_prefix ++ ck -> snd (getUserTokenInfo ck nowms c) !! k = c !! k.
Proof.
  intros Hk. unfold getUserTokenInfo; cbn zeta.
  destruct (c !! (user_prefix ++ ck)); [| reflexivity].
  destruct (_ && _); [destruct (_ <? _) | destruct (_ >? _)]; cbn;
    try reflexivity; apply lookup_delete_ne; congruence.
Qed.

Lemma checkUserTokenStatus_store (ck : string) (nowms : Z) (c : Cache) :
  snd (checkUserTokenStatus ck nowms c) = snd (getUserTokenInfo ck nowms c).
Proof.
  unfold checkUserTokenStatus. destruct (getUserTokenInfo ck nowms c) as [[ti |] c']; reflexivity.
Qed.

Lemma getUserToken_store (ck : string) (nowms : Z) (c : Cache) :
  snd (getUserToken ck nowms c) = snd (getUserTokenInfo ck nowms c).
Proof.
  unfold getUserToken. destruct (getUserTokenInfo ck nowms c) as [[ti |] c']; reflexivity.
Qed.

Lemma cacheUserToken_frame (ck : string) (ti : TokenData) (ttl : option Z) (nowms : Z)
    (c : Cache) (k : string) :
  k <> user_prefix ++ ck -> snd (cacheUserToken ck ti ttl nowms c) !! k = c !! k.
Proof.
  intros Hk. unfold cacheUserToken; cbn zeta.
  destruct (_ && _); cbn [snd]; [reflexivity |].
  apply lookup_insert_ne. congruence.
Qed.

Lemma removeUserToken_frame (ck : string) (c : Cache) (k : string) :
  k <> user_prefix ++ ck -> snd (removeUserToken ck c) !! k = c !! k.
Proof.
  intros Hk. unfold removeUserToken; cbn zeta.
  destruct (c !! _); [cbn; apply lookup_delete_ne; congruence | reflexivity].
Qed.

Section Frame.
Variable upstream_refresh : RefreshBody -> Exc TokenData.

Lemma refreshUserToken_frame (ck : string) (a s : option string) (nowms : Z) (c : Cache)
    (k : string) :
  k <> user_prefix ++ ck ->
  snd (AuthService.refreshUserToken upstream_refresh ck a s nowms c) !! k = c !! k.
Proof.
  intros Hk. unfold AuthService.refreshUserToken.
  pose proof (getUserTokenInfo_frame ck nowms c k Hk) as F.
  destruct (getUserTokenInfo ck nowms c) as [[ti |] c1]; cbn in F |- *; [| exact F].
  destruct (negb _); [exact F |]. destruct (negb _); [exact F |].
  destruct (upstream_refresh _) as [e | d]; [exact F |].
  destruct (_ && _); cbn; [| exact F].
  rewrite cacheUserToken_frame by exact Hk. exact F.
Qed.

Lemma getUserAccessToken_frame (ck : string) (a s : option string) (nowms : Z) (c : Cache)
    (k : string) :
  k <> user_prefix ++ ck ->
  snd (AuthService.getUserAccessToken upstream_refresh ck a s nowms c) !! k = c !! k.
Proof.
  intros Hk. unfold AuthService.getUserAccessToken.
  pose proof (checkUserTokenStatus_store ck nowms c) as S1.
  destruct (checkUserTokenStatus ck nowms c) as [st c1] eqn:E1. cbn in S1.
  assert (F1 : c1 !! k = c !! k) by (rewrite S1; apply getUserTokenInfo_frame, Hk).
  assert (F2 : snd (if isValid st && negb (shouldRefresh st) then
                     let (cachedToken, c') := getUserToken ck nowms c1 in
                     if str_truthy cachedToken then (cachedToken, c') else (None, c')
                   else (None, c1)) !! k = c !! k).
  { destruct (_ && _); [| exact F1].
    pose proof (getUserToken_store ck nowms c1) as S2.
    destruct (getUserToken ck nowms c1) as [tok c'] eqn:E2. cbn in S2.
    assert (c' !! k = c !! k) by (rewrite S2, getUserTokenInfo_frame by exact Hk; exact F1).
    destruct (str_truthy tok); assumption. }
  destruct (if isValid st && negb (shouldRefresh st) then _ else _) as [early c2].
  cbn in F2. destruct early as [tok |]; [exact F2 |].
  destruct (_ && _); [| exact F2].
  pose proof (refreshUserToken_frame ck a s nowms c2 k Hk) as F3.
  destruct (AuthService.refreshUserToken upstream_refresh ck a s nowms c2) as [[e | r] c3].
  - cbn in F3. pose proof (removeUserToken_frame ck c3 k Hk) as F4.
    destruct (removeUserToken ck c3) as [b c4]. cbn in F4 |- *. congruence.
  - cbn in F3 |- *. destruct (str_truthy _); cbn; congruence.
Qed.

Lemma checkKey_frame (ck : string) (nowms : Z) (cnt : TokenRefreshManager.Counts)
    (c : Cache) (k : string) :
  k <> user_prefix ++ ck ->
  snd (TokenRefreshManager.checkKey upstream_refresh ck nowms cnt c) !! k = c !! k.
Proof.
  intros Hk. unfold TokenRefreshManager.checkKey; cbn zeta.
  pose proof (checkUserTokenStatus_store ck nowms c) as S1.
  destruct (checkUserTokenStatus ck nowms c) as [st c1]. cbn in S1.
  assert (F1 : c1 !! k = c !! k) by (rewrite S1; apply getUserTokenInfo_frame, Hk).
  destruct (_ || _); [| exact F1].
  pose proof (getUserTokenInfo_frame ck nowms c1 k Hk) as F2.
  destruct (getUserTokenInfo ck nowms c1) as [[ti |] c2]; cbn in F2 |- *; [| congruence].
  destruct (negb _); [cbn; congruence |]. destruct (negb _); [cbn; congruence |].
  pose proof (refreshUserToken_frame ck None None nowms c2 k Hk) as F3.
  destruct (AuthService.refreshUserToken upstream_refresh ck None None nowms c2) as [[e | r] c3].
  - cbn in F3. destruct (TokenRefreshManager.refreshTokenInvalid e); cbn.
    + rewrite removeUserToken_frame by exact Hk. congruence.
    + congruence.
  - cbn in F3 |- *. congruence.
Qed.

End Frame.

(** [refreshUserToken] and [getUserAccessToken] for a client key touch no
    cache entry but [user_access_token:<clientKey>]. *)
Theorem token_ops_frame (upstream_refresh : RefreshBody -> Exc TokenData)
    (clientKey : string) (appId appSecret : option string) (nowms : Z) (cache : Cache)
    (k : string) (Hk : k <> user_prefix ++ clientKey) :
  snd (AuthService.refreshUserToken upstream_refresh clientKey appId appSecret nowms cache) !! k
    = cache !! k
  /\ snd (AuthService.getUserAccessToken upstream_refresh clientKey appId appSecret nowms cache) !! k
    = cache !! k.
Proof.
  split; [apply refreshUserToken_frame | apply getUserAccessToken_frame]; exact Hk.
Qed.

(** [getUserAccessToken] either returns a non-empty token or throws the
    [需要用户授权] authorization error; it throws nothing else. *)
Theorem getUserAccessToken_outcome (upstream_refresh : RefreshBody -> Exc TokenData)
    (clientKey : string) (appId appSecret : option string) (nowms : Z) (cache : Cache) :
  fst (AuthService.getUserAccessToken upstream_refresh clientKey appId appSecret nowms cache)
    = inl AuthService.auth_required
  \/ exists tok, tok <> ""
     /\ fst (AuthService.getUserAccessToken upstream_refresh clientKey appId appSecret nowms cache)
        = inr tok.
Proof.
  unfold AuthService.getUserAccessToken.
  destruct (checkUserTokenStatus clientKey nowms cache) as [st c1].
  assert (Hearly : forall tok c2,
    (if isValid st && negb (shouldRefresh st) then
       let (cachedToken, c') := getUserToken clientKey nowms c1 in
       if str_truthy cachedToken then (cachedToken, c') else (None, c')
     else (None, c1)) = (Some tok, c2) -> tok <> "").
  { intros tok c2. destruct (_ && _); [| discriminate].
    destruct (getUserToken clientKey nowms c1) as [t c'].
    destruct (str_truthy t) eqn:Et; [| discriminate].
    intros [= -> _] ->. discriminate. }
  destruct (if isValid st && negb (shouldRefresh st) then _ else _) as [early c2].
  destruct early as [tok |].
  - right. exists tok. split; [exact (Hearly tok c2 eq_refl) | reflexivity].
  - destruct (_ && _); [| left; reflexivity].
    destruct (AuthService.refreshUserToken upstream_refresh clientKey appId appSecret nowms c2)
      as [[e | r] c3].
    + destruct (removeUserToken clientKey c3). left. reflexivity.
    + destruct (str_truthy (access_token r)) eqn:Et; [| left; reflexivity].
      right. exists (default "" (access_token r)). split; [| reflexivity].
      destruct (access_token r) as [t |]; [| discriminate]. cbn in Et |- *.
      intros ->. discriminate.
Qed.

(** [getUserAccessToken] calls the refresh endpoint only when the token is
    refreshable and expired or due: otherwise its result and store do not
    depend on the endpoint. *)
Theorem getUserAccessToken_no_refresh_call (up1 up2 : RefreshBody -> Exc TokenData)
    (clientKey : string) (appId appSecret : option string) (nowms : Z) (cache : Cache)
    (H : (canRefresh (fst (checkUserTokenStatus clientKey nowms cache))
          && (isExpired (fst (checkUserTokenStatus clientKey nowms cache))
              || shouldRefresh (fst (checkUserTokenStatus clientKey nowms cache)))) = false) :
  AuthService.getUserAccessToken up1 clientKey appId appSecret nowms cache
  = AuthService.getUserAccessToken up2 clientKey appId appSecret nowms cache.
Proof.
  unfold AuthService.getUserAccessToken.
  destruct (checkUserTokenStatus clientKey nowms cache) as [st c1]. cbn in H.
  destruct (if isValid st && negb (shouldRefresh st) then _ else _) as [[tok |] c2];
    [reflexivity |].
  rewrite H. reflexivity.
Qed.

(** A successful [refreshUserToken] whose response has a positive
    [refresh_token_expires_in] stores the new record so that it reads back
    at the same time. *)
Theorem refreshUserToken_success_readable (upstream_refresh : RefreshBody -> Exc TokenData)
    (clientKey : string) (appId appSecret : option string) (nowms : Z) (cache : Cache)
    (d1 : TokenData)
    (Hr : fst (AuthService.refreshUserToken upstream_refresh clientKey appId appSecret nowms cache)
          = inr d1)
    (Hpos : 0 < num_val (refresh_token_expires_in d1)) :
  getUserTokenInfo clientKey nowms
    (snd (AuthService.refreshUserToken upstream_refresh clientKey appId appSecret nowms cache))
  = (Some d1,
     snd (AuthService.refreshUserToken upstream_refresh clientKey appId appSecret nowms cache)).
Proof.
  revert Hr Hpos. unfold AuthService.refreshUserToken.
  destruct (getUserTokenInfo clientKey nowms cache) as [[ti |] c1]; cbn; [| discriminate].
  destruct (negb _); [discriminate |]. destruct (negb _); [discriminate |].
  destruct (upstream_refresh _) as [e | d]; [discriminate |].
  destruct (_ && _); [| discriminate].
  intros [= <-]. cbn [refresh_token_expires_in num_val]. intros Hpos.
  destruct (refresh_token_expires_in d) as [n |] eqn:Hd; cbn in Hpos; [| lia].
  assert (Hn0 : (n =? 0) = false) by (apply Z.eqb_neq; lia).
  cbn [snd]. unfold cacheUserToken, getUserTokenInfo, num_truthy, num_val; cbn zeta.
  rewrite !Hn0. cbn [negb andb snd]. rewrite ?Hn0. cbn [negb andb snd].
  rewrite lookup_insert_eq. cbn [data item_expiresAt refresh_token refresh_token_expires_at].
  rewrite ?Hd.
  cbn [data item_expiresAt refresh_token refresh_token_expires_at expires_at negb andb].
  rewrite ?Hn0. cbn [negb].
  destruct (str_truthy (refresh_token d)); cbn [andb].
  - destruct (nowms / 1000 + n =? 0); cbn [negb]; rewrite ?Hn0; cbn [negb];
      zbool; reflexivity || lia.
  - rewrite ?Hn0; cbn [negb]; zbool; reflexivity || lia.
Qed.

Module RefreshFacts.
Import TokenRefreshManager.

Lemma checkKey_counts (up : RefreshBody -> Exc TokenData) (ck : string) (nowms : Z)
    (cnt : Counts) (c : Cache) :
  let cnt' := fst (checkKey up ck nowms cnt c) in
  checked cnt' = S (checked cnt)
  /\ (refreshed cnt <= refreshed cnt')%nat /\ (failed cnt <= failed cnt')%nat
  /\ (refreshed cnt' + failed cnt' <= S (refreshed cnt + failed cnt))%nat.
Proof.
  unfold checkKey; cbn zeta.
  destruct (checkUserTokenStatus ck nowms c) as [st c1].
  destruct (_ || _); [| cbn; lia].
  destruct (getUserTokenInfo ck nowms c1) as [[ti |] c2]; [| cbn; lia].
  destruct (negb _); [cbn; lia |]. destruct (negb _); [cbn; lia |].
  destruct (AuthService.refreshUserToken up ck None None nowms c2) as [[e | r] c3];
    [destruct (refreshTokenInvalid e) |]; cbn; lia.
Qed.

(** [checkAndRefreshTokens]: [checkedCount] grows by the number of keys,
    [refreshedCount] and [failedCount] never decrease and grow together by
    at most that number. *)
Theorem checkAndRefreshTokens_counts (upstream_refresh : RefreshBody -> Exc TokenData)
    (keys : list string) (nowms : Z) (cnt : Counts) (cache : Cache) :
  let cnt' := fst (checkAndRefreshTokens upstream_refresh keys nowms cnt cache) in
  checked cnt' = (checked cnt + length keys)%nat
  /\ (refreshed cnt <= refreshed cnt')%nat /\ (failed cnt <= failed cnt')%nat
  /\ (refreshed cnt' + failed cnt' <= refreshed cnt + failed cnt + length keys)%nat.
Proof.
  revert cnt cache. induction keys as [| k ks IH]; intros cnt cache; cbn zeta.
  - cbn. lia.
  - cbn [checkAndRefreshTokens length].
    pose proof (checkKey_counts upstream_refresh k nowms cnt cache) as Hk. cbn zeta in Hk.
    destruct (checkKey upstream_refresh k nowms cnt cache) as [cnt1 c1]. cbn [fst] in Hk.
    specialize (IH cnt1 c1). cbn zeta in IH. lia.
Qed.

(** [checkAndRefreshTokens] touches no entry but the user entries of the
    keys it visits. *)
Theorem checkAndRefreshTokens_frame (upstream_refresh : RefreshBody -> Exc TokenData)
    (keys : list string) (nowms : Z) (cnt : Counts) (cache : Cache) (k : string)
    (Hk : forall ck, In ck keys -> k <> user_prefix ++ ck) :
  snd (checkAndRefreshTokens upstream_refresh keys nowms cnt cache) !! k = cache !! k.
Proof.
  revert cnt cache. induction keys as [| ck ks IH]; intros cnt cache; [reflexivity |].
  cbn [checkAndRefreshTokens].
  pose proof (checkKey_frame upstream_refresh ck nowms cnt cache k (Hk ck (or_introl eq_refl)))
    as F.
  destruct (checkKey upstream_refresh ck nowms cnt cache) as [cnt1 c1]. cbn in F.
  rewrite IH; [exact F |]. intros ck' Hin. apply Hk. right. exact Hin.
Qed.

End RefreshFacts.

End AuthFacts.

Module CallbackFacts.
Import StateCodec CallbackService.

Lemma stateData_get (appId appSecret clientKey : list Z) (redirectUri : option (list Z))
    (ts : Z) :
  json_get (stateData appId appSecret clientKey redirectUri ts) "appId" = Some (JString appId)
  /\ json_get (stateData appId appSecret clientKey redirectUri ts) "appSecret"
     = Some (JString appSecret)
  /\ json_get (stateData appId appSecret clientKey redirectUri ts) "clientKey"
     = Some (JString clientKey)
  /\ json_get (stateData appId appSecret clientKey redirectUri ts) "redirectUri"
     = option_map JString redirectUri.
Proof.
  unfold stateData. generalize (number_lexeme ts) as l. intros l.
  destruct redirectUri; vm_compute; repeat split.
Qed.

(** [callback] on a state produced by [encodeState] and a non-empty code:
    it proceeds to the token exchange, with the state's client key and
    redirect URI (or the default one), exactly when the state's appId and
    appSecret equal the configured ones; otherwise it fails with
    [state参数验证失败]. *)
Theorem callback_own_state (configAppId configAppSecret : list Z) (port nowms : Z)
    (appId appSecret clientKey : list Z) (redirectUri : option (list Z)) (code : list Z)
    (Ha : Forall is_u16 appId) (Hs : Forall is_u16 appSecret)
    (Hc : Forall is_u16 clientKey)
    (Hu : forall r, redirectUri = Some r -> Forall is_u16 r)
    (Hcode : code <> []) :
  callback configAppId configAppSecret port (Some code)
    (Some (encodeState nowms appId appSecret clientKey redirectUri))
  = if bool_decide (appId = configAppId) && bool_decide (appSecret = configAppSecret)
    then CbExchange (Some (JString clientKey))
           (match redirectUri with
            | Some ((_ :: _) as r) => JString r
            | _ => JString (cu "http://localhost:" ++ number_lexeme port ++ cu "/callback")
            end)
    else CbFail "state参数验证失败" 400.
Proof.
  pose proof (StateCodecFacts.state_round_trip nowms appId appSecret clientKey
                redirectUri Ha Hs Hc Hu) as E.
  unfold callback.
  destruct code as [| c0 code]; [congruence |]. cbn [length Nat.eqb negb].
  destruct (encodeState nowms appId appSecret clientKey redirectUri) as [| b st] eqn:Est.
  { exfalso. vm_compute in E. discriminate E. }
  rewrite E.
  destruct (stateData_get appId appSecret clientKey redirectUri (nowms / 1000))
    as (G1 & G2 & G3 & G4).
  assert (T : json_truthy (stateData appId appSecret clientKey redirectUri (nowms / 1000))
              = true) by reflexivity.
  cbv iota beta. rewrite T, G1, G2, G3, G4. cbn [negb strict_eq_str].
  destruct (bool_decide (appId = configAppId)), (bool_decide (appSecret = configAppSecret));
    cbn [negb orb andb]; try reflexivity.
  destruct redirectUri as [[| r0 r] |]; cbn; reflexivity.
Qed.

End CallbackFacts.

Module ExtraExamples.
Import TokenCacheManager TokenCacheManagerMore CacheFacts AuthFacts.

(** Example for [cacheTenantToken_result]: a one-hour TTL. *)
Lemma cacheTenantToken_result_witness :
  fst (cacheTenantToken "k" empty_data (Some 3600) 1000 ∅)
    = (1000 + 3600 * 1000 <=? 8640000000000000)
  /\ fst (getTenantTokenInfo "k" 1000 (snd (cacheTenantToken "k" empty_data (Some 3600) 1000 ∅)))
     = Some empty_data.
Proof. apply (cacheTenantToken_result "k" empty_data 3600 1000 ∅); lia. Defined.

(** Example for [generateRandomKey_spec]: seven characters from constant bytes. *)
Lemma generateRandomKey_spec_witness :
  String.length (generateRandomKey (fun n => List.repeat 171 n) 7) = 7%nat
  /\ all_hex (generateRandomKey (fun n => List.repeat 171 n) 7) = true.
Proof.
  apply (generateRandomKey_spec (fun n => List.repeat 171 n) 7); [reflexivity |].
  cbn. repeat constructor; lia.
Defined.

(** The example session map has one entry per session id. *)
Lemma sess_map_nodup : List.NoDup (List.map fst sess_map).
Proof. cbn. constructor; [cbn; intros [H | []]; discriminate | constructor; [tauto | constructor]]. Qed.

(** Example for [unbindSessionUserKey_spec]. *)
Lemma unbindSessionUserKey_spec_witness :
  fst (SessionUserKeys.unbindSessionUserKey "s1" sess_map)
    = SessionUserKeys.isSessionIdBound "s1" sess_map
  /\ SessionUserKeys.getUserKeyBySessionId "s1"
       (snd (SessionUserKeys.unbindSessionUserKey "s1" sess_map)) = None
  /\ (forall s', s' <> "s1" ->
        SessionUserKeys.getUserKeyBySessionId s'
          (snd (SessionUserKeys.unbindSessionUserKey "s1" sess_map))
        = SessionUserKeys.getUserKeyBySessionId s' sess_map)
  /\ List.NoDup (List.map fst (snd (SessionUserKeys.unbindSessionUserKey "s1" sess_map))).
Proof. apply (SessionProps.unbindSessionUserKey_spec "s1" sess_map sess_map_nodup). Defined.

(** Example for [getSessionIdByUserKey_spec]. *)
Lemma getSessionIdByUserKey_spec_witness :
  (forall s, SessionUserKeys.getSessionIdByUserKey "u2" sess_map = Some s ->
             SessionUserKeys.getUserKeyBySessionId s sess_map = Some "u2")
  /\ (SessionUserKeys.isUserKeyBound "u2" sess_map = true
      <-> exists s, SessionUserKeys.getUserKeyBySessionId s sess_map = Some "u2").
Proof. apply (SessionProps.getSessionIdByUserKey_spec "u2" sess_map sess_map_nodup). Defined.

(** Example for [getSessionIdByUserKey_bind_new]: [u1] stays with [s1]. *)
Lemma getSessionIdByUserKey_bind_new_witness :
  SessionUserKeys.getSessionIdByUserKey "u1"
    (SessionUserKeys.bindSessionUserKey "s3" "u1" sess_map) = Some "s1".
Proof.
  rewrite (SessionProps.getSessionIdByUserKey_bind_new "s3" "u1" "u1" sess_map eq_refl).
  reflexivity.
Defined.

(** Example for [token_ops_frame]. *)
Lemma token_ops_frame_witness :
  snd (AuthService.refreshUserToken rw_upstream "ck" None None 1000000000 rw_cache)
    !! (user_prefix ++ "other") = rw_cache !! (user_prefix ++ "other")
  /\ snd (AuthService.getUserAccessToken rw_upstream "ck" None None 1000000000 rw_cache)
    !! (user_prefix ++ "other") = rw_cache !! (user_prefix ++ "other").
Proof.
  apply (token_ops_frame rw_upstream "ck" None None 1000000000 rw_cache (user_prefix ++ "other")).
  intros H. apply string_append_inv_head in H. discriminate H.
Defined.

(** Example for [getUserAccessToken_no_refresh_call]: a valid token
    outside the refresh window (returned as is, with either endpoint), and
    an expired token that has no refresh token (rejected with either
    endpoint). *)
Lemma getUserAccessToken_no_refresh_call_witness :
  (AuthService.getUserAccessToken rw_upstream "ck" None None 1000000000 rw_fresh_cache
   = AuthService.getUserAccessToken rw_down "ck" None None 1000000000 rw_fresh_cache
   /\ fst (AuthService.getUserAccessToken rw_down "ck" None None 1000000000 rw_fresh_cache)
      = inr "at")
  /\ (AuthService.getUserAccessToken rw_upstream "ck" None None 1000000000 rw_stale_cache
      = AuthService.getUserAccessToken rw_down "ck" None None 1000000000 rw_stale_cache
      /\ fst (AuthService.getUserAccessToken rw_upstream "ck" None None 1000000000
                rw_stale_cache)
         = inl AuthService.auth_required).
Proof.
  split; split.
  - apply (getUserAccessToken_no_refresh_call rw_upstream rw_down "ck" None None
             1000000000 rw_fresh_cache).
    vm_compute. reflexivity.
  - vm_compute. reflexivity.
  - apply (getUserAccessToken_no_refresh_call rw_upstream rw_down "ck" None None
             1000000000 rw_stale_cache).
    vm_compute. reflexivity.
  - vm_compute. reflexivity.
Defined.

(** Example for [refreshUserToken_success_readable]. *)
Lemma refreshUserToken_success_readable_witness :
  exists d1,
    fst (AuthService.refreshUserToken rw_upstream "ck" None None 1000000000 rw_cache) = inr d1
    /\ getUserTokenInfo "ck" 1000000000
         (snd (AuthService.refreshUserToken rw_upstream "ck" None None 1000000000 rw_cache))
       = (Some d1,
          snd (AuthService.refreshUserToken rw_upstream "ck" None None 1000000000 rw_cache)).
Proof.
  set (d1 := match fst (AuthService.refreshUserToken rw_upstream "ck" None None 1000000000
                          rw_cache) with inr d => d | inl _ => empty_data end).
  assert (Hr : fst (AuthService.refreshUserToken rw_upstream "ck" None None 1000000000 rw_cache)
               = inr d1) by (vm_compute; reflexivity).
  exists d1. split; [exact Hr |].
  apply (refreshUserToken_success_readable rw_upstream "ck" None None 1000000000 rw_cache d1 Hr).
  vm_compute. reflexivity.
Defined.

(** Example for [checkAndRefreshTokens_frame]: the tenant entry of the same key. *)
Lemma checkAndRefreshTokens_frame_witness :
  snd (TokenRefreshManager.checkAndRefreshTokens rw_upstream ["ck"] 1000000000
         (TokenRefreshManager.mkCounts 0 0 0) rw_cache) !! (tenant_prefix ++ "ck")
  = rw_cache !! (tenant_prefix ++ "ck").
Proof.
  apply (RefreshFacts.checkAndRefreshTokens_frame rw_upstream ["ck"] 1000000000
           (TokenRefreshManager.mkCounts 0 0 0) rw_cache (tenant_prefix ++ "ck")).
  intros ck [<- | []] H. symmetry in H. exact (user_tenant_neq _ _ H).
Defined.

Import StateCodec CallbackFacts.

(** Example for [callback_own_state]: a state without redirect URI. *)
Lemma callback_own_state_witness :
  CallbackService.callback (cu "cli_app") (cu "secret") 3333 (Some (cu "abc"))
    (Some (encodeState 1700000000123 (cu "cli_app") (cu "secret") (cu "k1") None))
  = if bool_decide (cu "cli_app" = cu "cli_app") && bool_decide (cu "secret" = cu "secret")
    then CallbackService.CbExchange (Some (JString (cu "k1")))
           (JString (cu "http://localhost:" ++ number_lexeme 3333 ++ cu "/callback")%list)
    else CallbackService.CbFail "state参数验证失败" 400.
Proof.
  apply (callback_own_state (cu "cli_app") (cu "secret") 3333 1700000000123
           (cu "cli_app") (cu "secret") (cu "k1") None (cu "abc")
           (StateCodecFacts.cu_u16 _) (StateCodecFacts.cu_u16 _) (StateCodecFacts.cu_u16 _)); [discriminate | discriminate].
Defined.

End ExtraExamples.
